(** * SecureChat: the end-to-end encryption engine

    A shallow embedding of the browser-side crypto engine of SecureChat
    ([services/cryptoService.js], [contexts/CryptoContext.jsx]) and of the
    send path of [pages/ChatPage.jsx], together with the properties the
    specification states about them.

    Layout: the platform codecs the code calls ([btoa]/[atob],
    [TextEncoder]/[TextDecoder], [String.prototype.trim]) are written out;
    the Web Crypto primitives (ECDH on P-256, AES-GCM) are an interface with
    laws, instantiated further down by a small executable platform on which
    the examples run. *)

From Stdlib Require Import NArith ZArith List Lia Bool Ascii String.
From Stdlib Require Strings.Byte.
From stdpp Require Import base option list gmap strings.

Import ListNotations.
Local Open Scope N_scope.

(** ** Bytes *)

Abbreviation byte := Init.Byte.byte.
Abbreviation bytes := (list Init.Byte.byte).

(** The byte with value [n mod 256] (what storing [n] into a [Uint8Array]
    cell does). *)
Definition byte_of_N (n : N) : byte :=
  match Byte.of_N (n mod 256) with
  | Some b => b
  | None => Init.Byte.x00
  end.

Definition byte_xor (a b : byte) : byte :=
  byte_of_N (N.lxor (Byte.to_N a) (Byte.to_N b)).

(** Flip bit [i mod 8] of the byte at index [i / 8]; out of range: no change. *)
Fixpoint flip_bit (i : nat) (bs : bytes) : bytes :=
  match bs with
  | [] => []
  | b :: r =>
      if (i <? 8)%nat
      then byte_xor b (byte_of_N (2 ^ N.of_nat i)) :: r
      else b :: flip_bit (i - 8) r
  end.

(** [ArrayBuffer.prototype.slice(0, -16)] and [slice(-16)]: the negative
    index is taken from the end and clamped at 0. *)
Definition slice_0_m16 (buf : bytes) : bytes := firstn (length buf - 16) buf.
Definition slice_m16 (buf : bytes) : bytes := skipn (length buf - 16) buf.

(** ** Base64: [window.btoa] and [window.atob] *)

Module Base64.

Definition alphabet : bytes :=
  list_byte_of_string
    "ABCDEFGHIJKLMNOPQRSTUVWXYZabcdefghijklmnopqrstuvwxyz0123456789+/".

Definition pad : byte := Init.Byte.x3d.

(** The character of a sextet. *)
Definition char_of (n : N) : byte := nth (N.to_nat n) alphabet pad.

Fixpoint index_from (i : N) (c : byte) (l : bytes) : option N :=
  match l with
  | [] => None
  | x :: r => if Byte.eqb x c then Some i else index_from (N.succ i) c r
  end.

(** The sextet of a character of the alphabet. *)
Definition index_of (c : byte) : option N := index_from 0 c alphabet.

Definition quad3 (a b c : byte) : bytes :=
  let n := 65536 * Byte.to_N a + 256 * Byte.to_N b + Byte.to_N c in
  [char_of (n / 262144); char_of (n / 4096 mod 64);
   char_of (n / 64 mod 64); char_of (n mod 64)].

Definition quad2 (a b : byte) : bytes :=
  let n := 1024 * Byte.to_N a + 4 * Byte.to_N b in
  [char_of (n / 4096); char_of (n / 64 mod 64); char_of (n mod 64); pad].

Definition quad1 (a : byte) : bytes :=
  let n := 16 * Byte.to_N a in
  [char_of (n / 64); char_of (n mod 64); pad; pad].

(** Base64 encoding with padding (RFC 4648 section 4). *)
Fixpoint encode (l : bytes) : bytes :=
  match l with
  | [] => []
  | [a] => quad1 a
  | [a; b] => quad2 a b
  | a :: b :: c :: r => quad3 a b c ++ encode r
  end.

(** The encoding without its padding. *)
Fixpoint body (l : bytes) : bytes :=
  match l with
  | [] => []
  | [a] => firstn 2 (quad1 a)
  | [a; b] => firstn 3 (quad2 a b)
  | a :: b :: c :: r => quad3 a b c ++ body r
  end.

(** ASCII whitespace: TAB, LF, FF, CR, SPACE. *)
Definition is_ascii_whitespace (c : byte) : bool :=
  let n := Byte.to_N c in
  (n =? 9) || (n =? 10) || (n =? 12) || (n =? 13) || (n =? 32).

(** Remove one or two trailing [=]. *)
Fixpoint strip_padding (s : bytes) : bytes :=
  match s with
  | [] => []
  | c :: r =>
      match r with
      | [] => if Byte.eqb c pad then [] else [c]
      | [d] => if Byte.eqb c pad && Byte.eqb d pad then [] else c :: strip_padding r
      | _ => c :: strip_padding r
      end
  end.

Fixpoint sextets (s : bytes) : option (list N) :=
  match s with
  | [] => Some []
  | c :: r =>
      match index_of c, sextets r with
      | Some n, Some ns => Some (n :: ns)
      | _, _ => None
      end
  end.

(** Groups of four sextets give three bytes; a rest of two sextets gives one
    byte (the low four bits are dropped), a rest of three gives two bytes. *)
Fixpoint bytes_of_sextets (l : list N) : bytes :=
  match l with
  | a :: b :: c :: d :: r =>
      let n := 262144 * a + 4096 * b + 64 * c + d in
      byte_of_N (n / 65536) :: byte_of_N (n / 256) :: byte_of_N n
        :: bytes_of_sextets r
  | [a; b; c] =>
      let n := 4096 * a + 64 * b + c in
      [byte_of_N (n / 1024); byte_of_N (n / 4)]
  | [a; b] => [byte_of_N ((64 * a + b) / 16)]
  | _ => []
  end.

(** The forgiving-base64 decode of the HTML standard, which [atob] runs. *)
Definition decode (s : bytes) : option bytes :=
  let t := List.filter (fun c => negb (is_ascii_whitespace c)) s in
  let d := if (length t mod 4 =? 0)%nat then strip_padding t else t in
  if (length d mod 4 =? 1)%nat then None
  else option_map bytes_of_sextets (sextets d).

End Base64.

(** [btoa] takes a binary string (every code unit below 256, which the type
    [string] guarantees) and [atob] returns one; [atob] throws
    [InvalidCharacterError] where this returns [None]. *)
Definition btoa (binary : string) : string :=
  string_of_list_byte (Base64.encode (list_byte_of_string binary)).

Definition atob (base64 : string) : option string :=
  option_map string_of_list_byte (Base64.decode (list_byte_of_string base64)).

(** ** JavaScript strings, [TextEncoder], [TextDecoder] and [trim] *)

(** A JavaScript string is a sequence of UTF-16 code units. *)
Abbreviation jsstring := (list N).

(** A string literal whose characters are all below U+0100. *)
Definition js (s : string) : jsstring := map Byte.to_N (list_byte_of_string s).

Module TextCodec.

Definition is_lead (u : N) : bool := (0xD800 <=? u) && (u <=? 0xDBFF).
Definition is_trail (u : N) : bool := (0xDC00 <=? u) && (u <=? 0xDFFF).

(** Conversion to scalar values: a surrogate pair is one code point, an
    unpaired surrogate becomes U+FFFD. *)
Fixpoint scalar_values (s : jsstring) : list N :=
  match s with
  | [] => []
  | u :: r =>
      if is_lead u then
        match r with
        | v :: r' =>
            if is_trail v
            then (0x10000 + (u - 0xD800) * 1024 + (v - 0xDC00)) :: scalar_values r'
            else 0xFFFD :: scalar_values r
        | [] => [0xFFFD]
        end
      else if is_trail u then 0xFFFD :: scalar_values r
      else u :: scalar_values r
  end.

(** A Unicode scalar value: a code point that is not a surrogate. *)
Definition is_scalar (cp : N) : Prop :=
  cp < 0x110000 /\ ~ (0xD800 <= cp <= 0xDFFF).

Definition utf8_bytes (cp : N) : bytes :=
  if cp <? 0x80 then [byte_of_N cp]
  else if cp <? 0x800 then
    [byte_of_N (0xC0 + cp / 64); byte_of_N (0x80 + cp mod 64)]
  else if cp <? 0x10000 then
    [byte_of_N (0xE0 + cp / 4096); byte_of_N (0x80 + cp / 64 mod 64);
     byte_of_N (0x80 + cp mod 64)]
  else
    [byte_of_N (0xF0 + cp / 262144); byte_of_N (0x80 + cp / 4096 mod 64);
     byte_of_N (0x80 + cp / 64 mod 64); byte_of_N (0x80 + cp mod 64)].

(** [new TextEncoder().encode(s)]. *)
Definition encode (s : jsstring) : bytes := flat_map utf8_bytes (scalar_values s).

(** The state of the UTF-8 decoder inside a multi-byte sequence: the code
    point so far, the continuation bytes still expected, and the bounds of
    the next byte. *)
Record pending := {
  code_point : N;
  bytes_left : nat;
  lower_boundary : N;
  upper_boundary : N;
}.

Definition first_byte (b : N) : list N * option pending :=
  if b <=? 0x7F then ([b], None)
  else if (0xC2 <=? b) && (b <=? 0xDF) then
    ([], Some {| code_point := b mod 32; bytes_left := 1;
                 lower_boundary := 0x80; upper_boundary := 0xBF |})
  else if (0xE0 <=? b) && (b <=? 0xEF) then
    ([], Some {| code_point := b mod 16; bytes_left := 2;
                 lower_boundary := if b =? 0xE0 then 0xA0 else 0x80;
                 upper_boundary := if b =? 0xED then 0x9F else 0xBF |})
  else if (0xF0 <=? b) && (b <=? 0xF4) then
    ([], Some {| code_point := b mod 8; bytes_left := 3;
                 lower_boundary := if b =? 0xF0 then 0x90 else 0x80;
                 upper_boundary := if b =? 0xF4 then 0x8F else 0xBF |})
  else ([0xFFFD], None).

(** A byte outside the bounds ends the sequence with U+FFFD and is then read
    again as a first byte. *)
Definition next_byte (p : pending) (b : N) : list N * option pending :=
  if (lower_boundary p <=? b) && (b <=? upper_boundary p) then
    let cp := code_point p * 64 + b mod 64 in
    match bytes_left p with
    | S (S n) =>
        ([], Some {| code_point := cp; bytes_left := S n;
                     lower_boundary := 0x80; upper_boundary := 0xBF |})
    | _ => ([cp], None)
    end
  else
    let '(out, st) := first_byte b in (0xFFFD :: out, st).

Definition feed (st : option pending) (b : byte) : list N * option pending :=
  match st with
  | None => first_byte (Byte.to_N b)
  | Some p => next_byte p (Byte.to_N b)
  end.

(** The UTF-8 decoder of the Encoding standard, in replacement mode. *)
Fixpoint decode_loop (st : option pending) (bs : bytes) : list N :=
  match bs with
  | [] => match st with Some _ => [0xFFFD] | None => [] end
  | b :: r => let '(out, st') := feed st b in out ++ decode_loop st' r
  end.

Definition code_units (cp : N) : list N :=
  if cp <? 0x10000 then [cp]
  else [0xD800 + (cp - 0x10000) / 1024; 0xDC00 + (cp - 0x10000) mod 1024].

(** With [ignoreBOM] unset, a leading U+FEFF is not part of the output. *)
Definition strip_bom (cps : list N) : list N :=
  match cps with
  | cp :: r => if cp =? 0xFEFF then r else cps
  | [] => []
  end.

(** [new TextDecoder().decode(bytes)]: never throws. *)
Definition decode (bs : bytes) : jsstring :=
  flat_map code_units (strip_bom (decode_loop None bs)).

(** Well-formed UTF-16: every code unit is 16 bits wide and every surrogate
    is half of a pair. *)
Fixpoint well_formed (s : jsstring) : bool :=
  match s with
  | [] => true
  | u :: r =>
      if is_lead u then
        match r with
        | v :: r' => is_trail v && well_formed r'
        | [] => false
        end
      else negb (is_trail u) && (u <? 0x10000) && well_formed r
  end.

Definition starts_with_bom (s : jsstring) : bool :=
  match s with
  | u :: _ => u =? 0xFEFF
  | [] => false
  end.

End TextCodec.

(** White space and line terminators of ECMAScript. *)
Definition is_js_whitespace (u : N) : bool :=
  ((0x09 <=? u) && (u <=? 0x0D)) || (u =? 0x20) || (u =? 0xA0) || (u =? 0x1680)
  || ((0x2000 <=? u) && (u <=? 0x200A)) || (u =? 0x2028) || (u =? 0x2029)
  || (u =? 0x202F) || (u =? 0x205F) || (u =? 0x3000) || (u =? 0xFEFF).

Fixpoint trim_start (s : jsstring) : jsstring :=
  match s with
  | [] => []
  | u :: r => if is_js_whitespace u then trim_start r else s
  end.

(** [String.prototype.trim]. *)
Definition trim (s : jsstring) : jsstring := rev (trim_start (rev (trim_start s))).

(** ** Exceptions *)

(** What a [catch] clause can receive: [new Error(message)] thrown by the
    code itself, and the exceptions of the platform. *)
Inductive JsError : Type :=
| Error (message : string)
| TypeError
| DataError
| OperationError
| InvalidCharacterError
| QuotaExceededError
| SecurityError
| AxiosError (status : option N).

Inductive Result (A : Type) : Type :=
| Ok (value : A)
| Throw (error : JsError).
Arguments Ok {A} value.
Arguments Throw {A} error.

Definition value_or {A} (default : A) (r : Result A) : A :=
  match r with
  | Ok a => a
  | Throw _ => default
  end.

(** ** The Web Crypto primitives

    [window.crypto.subtle] restricted to the calls the service makes: ECDH
    on P-256 and AES-GCM with a 128-bit tag. [None] stands for a rejected
    promise. Key generation is a function of the randomness it draws. *)
Class WebCrypto : Type := {
  EcPrivate : Type;
  EcPublic : Type;
  AesKey : Type;
  generateKey : bytes -> option EcPrivate;
  publicOf : EcPrivate -> EcPublic;
  exportRaw : EcPublic -> bytes;
  importRaw : bytes -> option EcPublic;
  exportPkcs8 : EcPrivate -> bytes;
  importPkcs8 : bytes -> option EcPrivate;
  deriveBits : EcPublic -> EcPrivate -> bytes;
  importAes : bytes -> option AesKey;
  gcmEncrypt : AesKey -> bytes -> bytes -> option bytes;
  gcmDecrypt : AesKey -> bytes -> bytes -> option bytes;
}.

(** Key export and import are inverse, a PKCS #8 export is not empty, both
    sides of an ECDH exchange compute the same 256 bits, and 256 bits import
    as an AES key. *)
Class EcdhLaws (W : WebCrypto) : Prop := {
  importRaw_exportRaw : forall P, importRaw (exportRaw P) = Some P;
  importPkcs8_exportPkcs8 : forall d, importPkcs8 (exportPkcs8 d) = Some d;
  exportPkcs8_nonempty : forall d, exportPkcs8 d <> [];
  deriveBits_agree :
    forall a b, deriveBits (publicOf b) a = deriveBits (publicOf a) b;
  deriveBits_length : forall P d, length (deriveBits P d) = 32%nat;
  importAes_256 : forall bs, length bs = 32%nat -> is_Some (importAes bs);
}.

(** AES-GCM under a 96-bit IV: the output is the ciphertext followed by the
    16-byte tag, and decryption inverts encryption. *)
Class AesGcmLaws (W : WebCrypto) : Prop := {
  gcmEncrypt_length :
    forall k iv p, length iv = 12%nat ->
      exists c, gcmEncrypt k iv p = Some c /\ length c = (length p + 16)%nat;
  gcmDecrypt_gcmEncrypt :
    forall k iv p c, gcmEncrypt k iv p = Some c -> gcmDecrypt k iv c = Some p;
}.

(** The integrity contract of the primitive for single-bit modifications: an
    output of encryption with one bit flipped, ciphertext or tag, does not
    verify. *)
Class AesGcmIntegrity (W : WebCrypto) : Prop := {
  gcm_bit_flip :
    forall k iv p c i, gcmEncrypt k iv p = Some c ->
      (i < 8 * length c)%nat -> gcmDecrypt k iv (flip_bit i c) = None;
}.

(** ** The world the service runs in *)

(** The random source: a tape of bytes and the position reached. *)
Record Entropy : Type := { tape : nat -> byte; cursor : nat }.

Definition draw (n : nat) (e : Entropy) : bytes * Entropy :=
  (map (tape e) (seq (cursor e) n),
   {| tape := tape e; cursor := cursor e + n |}).

(** [window.localStorage]: access may be denied ([SecurityError]) and a write
    may exceed the quota ([QuotaExceededError]). *)
Record Storage : Type := {
  items : gmap string string;
  access_denied : bool;
  quota_exceeded : bool;
}.

Section World.
Context {W : WebCrypto}.

Record KeyPair : Type := { privateKey : EcPrivate; publicKey : option EcPublic }.

(** The singleton [cryptoService] ([keyPair], [sharedKeys]) and its
    environment. [directory] is the server's answer to
    [GET /users/:id/public-key]. *)
Record World : Type := {
  keyPair : option KeyPair;
  sharedKeys : gmap string AesKey;
  localStorage : Storage;
  entropy : Entropy;
  directory : string -> Result string;
}.

Definition set_keyPair (kp : option KeyPair) (w : World) : World :=
  {| keyPair := kp; sharedKeys := sharedKeys w; localStorage := localStorage w;
     entropy := entropy w; directory := directory w |}.

Definition set_sharedKeys (m : gmap string AesKey) (w : World) : World :=
  {| keyPair := keyPair w; sharedKeys := m; localStorage := localStorage w;
     entropy := entropy w; directory := directory w |}.

Definition set_localStorage (st : Storage) (w : World) : World :=
  {| keyPair := keyPair w; sharedKeys := sharedKeys w; localStorage := st;
     entropy := entropy w; directory := directory w |}.

Definition set_entropy (e : Entropy) (w : World) : World :=
  {| keyPair := keyPair w; sharedKeys := sharedKeys w;
     localStorage := localStorage w; entropy := e; directory := directory w |}.

(** An [async] function run to completion: the world it leaves and either the
    value of its promise or the exception it rejects with. An exception does
    not undo the writes made before it. *)
Definition M (A : Type) : Type := World -> Result A * World.

Definition ret {A} (a : A) : M A := fun w => (Ok a, w).
Definition throw {A} (e : JsError) : M A := fun w => (Throw e, w).

Definition bind {A B} (m : M A) (k : A -> M B) : M B :=
  fun w =>
    match m w with
    | (Ok a, w') => k a w'
    | (Throw e, w') => (Throw e, w')
    end.

Definition try_catch {A} (body : M A) (handler : JsError -> M A) : M A :=
  fun w =>
    match body w with
    | (Ok a, w') => (Ok a, w')
    | (Throw e, w') => handler e w'
    end.

Definition get : M World := fun w => (Ok w, w).
Definition modify (f : World -> World) : M unit := fun w => (Ok tt, f w).

Definition of_option {A} (o : option A) (e : JsError) : M A :=
  match o with
  | Some a => ret a
  | None => throw e
  end.

End World.

Declare Scope js_scope.
Delimit Scope js_scope with js.
Notation "'await' x <- m ;; k" := (bind m (fun x => k))
  (at level 10, x name, m at level 99, k at level 200, only parsing) : js_scope.

(** ** [services/cryptoService.js] *)

Module CryptoService.

Record EncryptedData : Type := {
  ciphertext : string;
  iv : string;
  authTag : string;
}.

Definition arrayBufferToBase64 (buffer : bytes) : string :=
  btoa (string_of_list_byte buffer).

(** The bytes a field of the envelope carries, when it is base64. *)
Definition field_bytes (field : string) : option bytes :=
  option_map list_byte_of_string (atob field).

(** The number of bits a field carries. *)
Definition field_bits (field : string) : nat :=
  match field_bytes field with
  | Some buffer => 8 * length buffer
  | None => 0
  end.

(** A field with bit [i] of the bytes it carries flipped. *)
Definition flip_field (i : nat) (field : string) : string :=
  match field_bytes field with
  | Some buffer => arrayBufferToBase64 (flip_bit i buffer)
  | None => field
  end.

Definition tamper_ciphertext (i : nat) (e : EncryptedData) : EncryptedData :=
  {| ciphertext := flip_field i (ciphertext e); iv := iv e; authTag := authTag e |}.

Definition tamper_authTag (i : nat) (e : EncryptedData) : EncryptedData :=
  {| ciphertext := ciphertext e; iv := iv e; authTag := flip_field i (authTag e) |}.

Section Service.
Context {W : WebCrypto}.
Local Open Scope js_scope.

(** *** The platform calls *)

Definition getRandomValues (n : nat) : M bytes :=
  fun w => let '(bs, e) := draw n (entropy w) in (Ok bs, set_entropy e w).

Definition subtle_generateKey : M KeyPair :=
  await seed <- getRandomValues 32 ;;
  await d <- of_option (generateKey seed) OperationError ;;
  ret {| privateKey := d; publicKey := Some (publicOf d) |}.

(** [exportKey('raw', key)]; [key] may be [null]. *)
Definition subtle_exportKey_raw (key : option EcPublic) : M bytes :=
  match key with
  | Some P => ret (exportRaw P)
  | None => throw TypeError
  end.

Definition localStorage_getItem (key : string) : M (option string) :=
  fun w =>
    if access_denied (localStorage w) then (Throw SecurityError, w)
    else (Ok (items (localStorage w) !! key), w).

Definition localStorage_setItem (key value : string) : M unit :=
  fun w =>
    let st := localStorage w in
    if access_denied st then (Throw SecurityError, w)
    else if quota_exceeded st then (Throw QuotaExceededError, w)
    else (Ok tt,
          set_localStorage
            {| items := <[key := value]> (items st);
               access_denied := access_denied st;
               quota_exceeded := quota_exceeded st |} w).

(** *** Utilities *)

Definition base64ToArrayBuffer (base64 : string) : M bytes :=
  await binary <- of_option (atob base64) InvalidCharacterError ;;
  ret (list_byte_of_string binary).

(** *** The service *)

Definition initialize : M bool :=
  try_catch
    (await kp <- subtle_generateKey ;;
     await _ <- modify (set_keyPair (Some kp)) ;;
     ret true)
    (fun _ => throw (Error "Cryptography initialization failed")).

Definition exportPublicKey : M string :=
  await w <- get ;;
  match keyPair w with
  | None => throw (Error "Crypto not initialized. Call initialize() first.")
  | Some kp =>
      try_catch
        (await exported <- subtle_exportKey_raw (publicKey kp) ;;
         ret (arrayBufferToBase64 exported))
        (fun error => throw error)
  end.

Definition importPublicKey (publicKeyBase64 : string) : M EcPublic :=
  try_catch
    (await keyData <- base64ToArrayBuffer publicKeyBase64 ;;
     of_option (importRaw keyData) DataError)
    (fun error => throw error).

Definition deriveSharedKey (otherUserPublicKeyBase64 userId : string) : M AesKey :=
  await w <- get ;;
  match keyPair w with
  | None => throw (Error "Crypto not initialized")
  | Some kp =>
      match sharedKeys w !! userId with
      | Some cached => ret cached
      | None =>
          try_catch
            (await otherPublicKey <- importPublicKey otherUserPublicKeyBase64 ;;
             let sharedSecret := deriveBits otherPublicKey (privateKey kp) in
             await sharedKey <- of_option (importAes sharedSecret) DataError ;;
             await _ <- modify (fun w => set_sharedKeys (<[userId := sharedKey]> (sharedKeys w)) w) ;;
             ret sharedKey)
            (fun error => throw error)
      end
  end.

Definition encryptMessage (plaintext : jsstring) (sharedKey : AesKey) : M EncryptedData :=
  try_catch
    (await iv <- getRandomValues 12 ;;
     let plaintextBuffer := TextCodec.encode plaintext in
     await ciphertextBuffer <- of_option (gcmEncrypt sharedKey iv plaintextBuffer) OperationError ;;
     let ciphertext := slice_0_m16 ciphertextBuffer in
     let authTag := slice_m16 ciphertextBuffer in
     ret {| ciphertext := arrayBufferToBase64 ciphertext;
            iv := arrayBufferToBase64 iv;
            authTag := arrayBufferToBase64 authTag |})
    (fun error => throw error).

Definition decryptMessage (encryptedData : EncryptedData) (sharedKey : AesKey) : M jsstring :=
  try_catch
    (await ciphertextBuffer <- base64ToArrayBuffer (ciphertext encryptedData) ;;
     await ivBuffer <- base64ToArrayBuffer (iv encryptedData) ;;
     await authTagBuffer <- base64ToArrayBuffer (authTag encryptedData) ;;
     let combinedBuffer := ciphertextBuffer ++ authTagBuffer in
     await plaintextBuffer <- of_option (gcmDecrypt sharedKey ivBuffer combinedBuffer) OperationError ;;
     ret (TextCodec.decode plaintextBuffer))
    (fun _ =>
       throw (Error "Failed to decrypt message. Message may be corrupted or key mismatch.")).

Definition encryptForUser (plaintext : jsstring) (otherUserPublicKey userId : string)
  : M EncryptedData :=
  await sharedKey <- deriveSharedKey otherUserPublicKey userId ;;
  encryptMessage plaintext sharedKey.

Definition decryptFromUser (encryptedData : EncryptedData)
    (otherUserPublicKey userId : string) : M jsstring :=
  await sharedKey <- deriveSharedKey otherUserPublicKey userId ;;
  decryptMessage encryptedData sharedKey.

Definition clearKeys : M unit :=
  await _ <- modify (set_sharedKeys ∅) ;;
  modify (set_keyPair None).

Definition isInitialized : M bool :=
  await w <- get ;;
  ret (match keyPair w with Some _ => true | None => false end).

Definition storage_key (userId : string) : string := "privateKey_" +:+ userId.

Definition savePrivateKey (userId : string) : M unit :=
  try_catch
    (await w <- get ;;
     await kp <- of_option (keyPair w) TypeError ;;
     let exported := exportPkcs8 (privateKey kp) in
     let base64 := arrayBufferToBase64 exported in
     localStorage_setItem (storage_key userId) base64)
    (fun _ => ret tt).

Definition loadPrivateKey (userId : string) : M bool :=
  try_catch
    (await base64 <- localStorage_getItem (storage_key userId) ;;
     match base64 with
     | None => ret false
     | Some EmptyString => ret false
     | Some base64 =>
         await keyData <- base64ToArrayBuffer base64 ;;
         await privateKey <- of_option (importPkcs8 keyData) DataError ;;
         await _ <- modify (set_keyPair (Some {| privateKey := privateKey; publicKey := None |})) ;;
         ret true
     end)
    (fun _ => ret false).

(** *** The operations that need the identity key pair *)

Inductive Operation : Type :=
| ExportPublicKey
| DeriveSharedKey (otherUserPublicKeyBase64 userId : string)
| EncryptForUser (plaintext : jsstring) (otherUserPublicKey userId : string)
| DecryptFromUser (encryptedData : EncryptedData) (otherUserPublicKey userId : string).

(** The outcome of an operation, its value forgotten. *)
Definition outcome {A} (m : M A) : M unit :=
  await _ <- m ;;
  ret tt.

Definition perform (op : Operation) : M unit :=
  match op with
  | ExportPublicKey => outcome exportPublicKey
  | DeriveSharedKey pk uid => outcome (deriveSharedKey pk uid)
  | EncryptForUser p pk uid => outcome (encryptForUser p pk uid)
  | DecryptFromUser e pk uid => outcome (decryptFromUser e pk uid)
  end.

(** A sequence of operations, each run whatever the previous ones did. *)
Fixpoint perform_all (ops : list Operation) (w : World) : list (Result unit) * World :=
  match ops with
  | [] => ([], w)
  | op :: rest =>
      let '(r, w') := perform op w in
      let '(rs, w'') := perform_all rest w' in
      (r :: rs, w'')
  end.

(** The cache entry for [userId], if there is one, is the key derived from
    the private key [d] and the peer public key [P]. *)
Definition cache_sound (w : World) (userId : string) (d : EcPrivate) (P : EcPublic)
  : Prop :=
  forall k, sharedKeys w !! userId = Some k -> importAes (deriveBits P d) = Some k.

Definition active_key_pairs (w : World) : list KeyPair :=
  match keyPair w with
  | Some kp => [kp]
  | None => []
  end.

End Service.

(** The two messages with which the service reports a missing key pair. *)
Definition not_initialized (e : JsError) : bool :=
  match e with
  | Error message =>
      String.eqb message "Crypto not initialized"
      || String.eqb message "Crypto not initialized. Call initialize() first."
  | _ => false
  end.

Definition decrypt_failure : JsError :=
  Error "Failed to decrypt message. Message may be corrupted or key mismatch.".

End CryptoService.

(** ** [contexts/CryptoContext.jsx] *)

Module CryptoContext.
Section Provider.
Context {W : WebCrypto}.
Local Open Scope js_scope.

(** [axiosInstance.get(`/users/${userId}/public-key`)], reduced to
    [response.data.publicKey]. *)
Definition axios_get_public_key (userId : string) : M string :=
  fun w => (directory w userId, w).

Definition getUserPublicKey (userId : string) : M string :=
  try_catch
    (axios_get_public_key userId)
    (fun _ => throw (Error "User has not set up encryption yet")).

(** The callbacks close over the React state [isInitialized]. *)
Definition encryptMessage (isInitialized : bool) (plaintext : jsstring)
    (recipientId : string) : M CryptoService.EncryptedData :=
  if negb isInitialized then throw (Error "Crypto not initialized")
  else
    try_catch
      (await recipientPublicKey <- getUserPublicKey recipientId ;;
       CryptoService.encryptForUser plaintext recipientPublicKey recipientId)
      (fun err => throw err).

Definition decryption_failed : jsstring :=
  js "[Decryption failed: Message may be corrupted]".

Definition decryptMessage (isInitialized : bool)
    (encryptedData : CryptoService.EncryptedData) (senderId : string) : M jsstring :=
  if negb isInitialized then throw (Error "Crypto not initialized")
  else
    try_catch
      (await senderPublicKey <- getUserPublicKey senderId ;;
       CryptoService.decryptFromUser encryptedData senderPublicKey senderId)
      (fun _ => ret decryption_failed).

(** [clearCrypto]; the value is the new [isInitialized]. *)
Definition clearCrypto : M bool :=
  await _ <- CryptoService.clearKeys ;;
  ret false.

End Provider.
End CryptoContext.

(** ** [pages/ChatPage.jsx]: the send path *)

Module ChatPage.

Record Contact : Type := { id : string; userId : option string }.

(** The [messageData] handed to [sendMessage]. *)
Record MessagePayload : Type := {
  conversationId : option string;
  text : jsstring;
  encryptedData : option string;
  iv : option string;
  authTag : option string;
  isEncrypted : bool;
  senderId : option string;
}.

(** Truthiness of a value that is [null]/[undefined] or a string. *)
Definition truthy (v : option string) : bool :=
  match v with
  | Some (String _ _) => true
  | _ => false
  end.

Definition plain_payload (activeId user_id : option string) (plaintext : jsstring)
  : MessagePayload :=
  {| conversationId := activeId; text := plaintext; encryptedData := None;
     iv := None; authTag := None; isEncrypted := false; senderId := user_id |}.

Definition encrypted_payload (activeId user_id : option string)
    (encrypted : CryptoService.EncryptedData) : MessagePayload :=
  {| conversationId := activeId; text := js "[Encrypted]";
     encryptedData := Some (CryptoService.ciphertext encrypted);
     iv := Some (CryptoService.iv encrypted);
     authTag := Some (CryptoService.authTag encrypted);
     isEncrypted := true; senderId := user_id |}.

Section Page.
Context {W : WebCrypto}.
Local Open Scope js_scope.

(** [canEncrypt]: the contact's user id when all three conjuncts are truthy. *)
Definition canEncrypt (isCryptoInitialized : bool) (activeContact : option Contact)
  : option string :=
  if isCryptoInitialized then
    match activeContact with
    | Some c => if truthy (userId c) then userId c else None
    | None => None
    end
  else None.

(** [handleSend] up to the dispatch of [sendMessage]: the payload dispatched,
    or [None] when the guard returns first. *)
Definition handleSend (isCryptoInitialized isConnected activeGroup : bool)
    (activeId : option string) (activeContact : option Contact)
    (user_id : option string) (messageText : jsstring) : M (option MessagePayload) :=
  match trim messageText with
  | [] => ret None
  | _ :: _ =>
      if negb (truthy activeId) || negb isConnected || activeGroup then ret None
      else
        await messagePayload <-
          match canEncrypt isCryptoInitialized activeContact with
          | Some recipient =>
              try_catch
                (await encrypted <-
                   CryptoContext.encryptMessage isCryptoInitialized
                     (trim messageText) recipient ;;
                 ret (encrypted_payload activeId user_id encrypted))
                (fun _ => ret (plain_payload activeId user_id (trim messageText)))
          | None => ret (plain_payload activeId user_id (trim messageText))
          end ;;
        ret (Some messagePayload)
  end.

End Page.
End ChatPage.

(** ** Concurrent calls of [CryptoContext.encryptMessage]

    A call runs without interruption from one [await] to the next; calls in
    flight interleave at these points. A [Task] is one call for a fixed
    plaintext and recipient, made while [isInitialized] holds, at the
    [await] it is suspended on. The steps are cut at the awaits of the
    directory request and of the Web Crypto calls; the resumption of a caller
    by the return of an [async] function, which runs no platform call and
    changes nothing, is part of the step that returns. *)

Module Concurrent.
Section Tasks.
Context {W : WebCrypto}.
Variable plaintext : jsstring.
Variable recipientId : string.

Inductive Task : Type :=
| Called
| AwaitFetch
| AwaitImportKey (keyData : bytes)
| AwaitDeriveBits (sharedSecret : bytes)
| AwaitImportAes (sharedSecret : bytes)
| AwaitEncrypt (sharedKey : AesKey) (iv : bytes)
| Returned (r : Result CryptoService.EncryptedData).

Record Config : Type := {
  world : World;
  tasks : list Task;
  fetches : nat;
  derivations : nat;
}.

(** Entering [CryptoService.encryptMessage]: the IV is drawn and
    [subtle.encrypt] is called. *)
Definition start_encrypt (sharedKey : AesKey) (w : World) : Task * World :=
  let '(iv, e) := draw 12 (entropy w) in (AwaitEncrypt sharedKey iv, set_entropy e w).

(** One step of a task: the code between two [await]s, with the number of
    directory requests and of ECDH derivations it issues. *)
Definition step (t : Task) (w : World) : Task * World * nat * nat :=
  match t with
  | Called => (AwaitFetch, w, 1, 0)%nat
  | AwaitFetch =>
      match directory w recipientId with
      | Throw _ => (Returned (Throw (Error "User has not set up encryption yet")), w, 0, 0)%nat
      | Ok recipientPublicKey =>
          match keyPair w with
          | None => (Returned (Throw (Error "Crypto not initialized")), w, 0, 0)%nat
          | Some _ =>
              match sharedKeys w !! recipientId with
              | Some cached => (start_encrypt cached w, 0, 0)%nat
              | None =>
                  match atob recipientPublicKey with
                  | None => (Returned (Throw InvalidCharacterError), w, 0, 0)%nat
                  | Some binary => (AwaitImportKey (list_byte_of_string binary), w, 0, 0)%nat
                  end
              end
          end
      end
  | AwaitImportKey keyData =>
      match importRaw keyData with
      | None => (Returned (Throw DataError), w, 0, 0)%nat
      | Some otherPublicKey =>
          match keyPair w with
          | None => (Returned (Throw TypeError), w, 0, 0)%nat
          | Some kp =>
              (AwaitDeriveBits (deriveBits otherPublicKey (privateKey kp)), w, 0, 1)%nat
          end
      end
  | AwaitDeriveBits sharedSecret => (AwaitImportAes sharedSecret, w, 0, 0)%nat
  | AwaitImportAes sharedSecret =>
      match importAes sharedSecret with
      | None => (Returned (Throw DataError), w, 0, 0)%nat
      | Some sharedKey =>
          (start_encrypt sharedKey
             (set_sharedKeys (<[recipientId := sharedKey]> (sharedKeys w)) w), 0, 0)%nat
      end
  | AwaitEncrypt sharedKey iv =>
      match gcmEncrypt sharedKey iv (TextCodec.encode plaintext) with
      | None => (Returned (Throw OperationError), w, 0, 0)%nat
      | Some ciphertextBuffer =>
          (Returned (Ok {| CryptoService.ciphertext :=
                             CryptoService.arrayBufferToBase64 (slice_0_m16 ciphertextBuffer);
                           CryptoService.iv := CryptoService.arrayBufferToBase64 iv;
                           CryptoService.authTag :=
                             CryptoService.arrayBufferToBase64 (slice_m16 ciphertextBuffer) |}),
           w, 0, 0)%nat
      end
  | Returned r => (Returned r, w, 0, 0)%nat
  end.

(** The scheduler resumes task [i]. *)
Definition resume (c : Config) (i : nat) : Config :=
  match tasks c !! i with
  | Some t =>
      let '(t', w', f, d) := step t (world c) in
      {| world := w'; tasks := <[i := t']> (tasks c);
         fetches := fetches c + f; derivations := derivations c + d |}
  | None => c
  end.

Definition run (schedule : list nat) (c : Config) : Config :=
  fold_left resume schedule c.

(** [K] calls made in the same tick. *)
Definition fire (K : nat) (w : World) : Config :=
  {| world := w; tasks := replicate K Called; fetches := 0; derivations := 0 |}.

Definition is_returned (t : Task) : bool :=
  match t with Returned _ => true | _ => false end.

Definition succeeded (t : Task) : bool :=
  match t with Returned (Ok _) => true | _ => false end.

Definition all_returned (c : Config) : bool := forallb is_returned (tasks c).

(** Bookkeeping: whether a task has issued its directory request, and whether
    it may still come to issue a derivation. *)
Definition fetched (t : Task) : nat :=
  match t with Called => 0 | _ => 1 end.

Definition undecided (t : Task) : nat :=
  match t with Called | AwaitFetch | AwaitImportKey _ => 1 | _ => 0 end.

(** A task that can only be where it is after an ECDH derivation took place. *)
Definition holds_key (t : Task) : bool :=
  match t with
  | AwaitDeriveBits _ | AwaitImportAes _ | AwaitEncrypt _ _ | Returned (Ok _) => true
  | _ => false
  end.

(** The number of steps a task can still take. *)
Definition remaining (t : Task) : nat :=
  match t with
  | Called => 6
  | AwaitFetch => 5
  | AwaitImportKey _ => 4
  | AwaitDeriveBits _ => 3
  | AwaitImportAes _ => 2
  | AwaitEncrypt _ _ => 1
  | Returned _ => 0
  end.

(** The schedule that resumes [K] calls in turn, [n] times over. *)
Definition rounds (n K : nat) : list nat := concat (replicate n (seq 0 K)).

(** While no derivation has been issued the cache has no entry for the
    recipient and no task holds a key. *)
Definition cold (c : Config) : Prop :=
  (1 <= derivations c)%nat
  \/ (sharedKeys (world c) !! recipientId = None
      /\ Forall (fun t => holds_key t = false) (tasks c)).

End Tasks.
End Concurrent.

(** ** A small executable platform

    Diffie-Hellman in the multiplicative group modulo 251 and a one-byte
    stream cipher whose tag is the parity of the ciphertext followed by the
    first key byte. It satisfies the laws above and is what
    the examples run on; it makes no claim of security. *)

Module Toy.

Definition modulus : N := 251.
Definition generator : N := 6.

Definition public_of (d : byte) : byte :=
  byte_of_N (generator ^ Byte.to_N d mod modulus).

Definition derive (P d : byte) : bytes :=
  repeat (byte_of_N (Byte.to_N P ^ Byte.to_N d mod modulus)) 32.

Definition export_raw (P : byte) : bytes :=
  Init.Byte.x04 :: P :: repeat Init.Byte.x00 63.

Definition import_raw (keyData : bytes) : option byte :=
  match keyData with
  | h :: P :: rest =>
      if Byte.eqb h Init.Byte.x04 && (length rest =? 63)%nat then Some P else None
  | _ => None
  end.

Definition export_pkcs8 (d : byte) : bytes := [Init.Byte.x30; d].

Definition import_pkcs8 (keyData : bytes) : option byte :=
  match keyData with
  | [h; d] => if Byte.eqb h Init.Byte.x30 then Some d else None
  | _ => None
  end.

Definition import_aes (raw : bytes) : option bytes :=
  if (length raw =? 16)%nat || (length raw =? 24)%nat || (length raw =? 32)%nat
  then Some raw else None.

Definition xor_all (bs : bytes) : byte := fold_right byte_xor Init.Byte.x00 bs.

Definition mask (key iv : bytes) : byte :=
  byte_xor (nth 0 key Init.Byte.x00) (xor_all iv).

Definition tag (key iv c : bytes) : bytes :=
  xor_all c :: nth 0 key Init.Byte.x00 :: repeat Init.Byte.x00 14.

Fixpoint bytes_eqb (a b : bytes) : bool :=
  match a, b with
  | [], [] => true
  | x :: a', y :: b' => Byte.eqb x y && bytes_eqb a' b'
  | _, _ => false
  end.

Definition encrypt (key iv p : bytes) : option bytes :=
  match iv with
  | [] => None
  | _ :: _ =>
      let c := map (byte_xor (mask key iv)) p in
      Some (c ++ tag key iv c)
  end.

Definition decrypt (key iv buf : bytes) : option bytes :=
  if (length buf <? 16)%nat then None
  else
    let c := slice_0_m16 buf in
    if bytes_eqb (slice_m16 buf) (tag key iv c)
    then Some (map (byte_xor (mask key iv)) c)
    else None.

Definition platform : WebCrypto :=
  {| EcPrivate := byte; EcPublic := byte; AesKey := bytes;
     generateKey := fun seed => head seed;
     publicOf := public_of;
     exportRaw := export_raw;
     importRaw := import_raw;
     exportPkcs8 := export_pkcs8;
     importPkcs8 := import_pkcs8;
     deriveBits := derive;
     importAes := import_aes;
     gcmEncrypt := encrypt;
     gcmDecrypt := decrypt |}.

(** A fresh browser: no key pair, empty storage, and a directory that knows
    nobody. The random tape counts up from 3. *)
Definition counting : Entropy :=
  {| tape := fun i => byte_of_N (N.of_nat i + 3); cursor := 0 |}.

Definition blank : @World platform :=
  {| keyPair := None; sharedKeys := ∅;
     localStorage := {| items := ∅; access_denied := false; quota_exceeded := false |};
     entropy := counting;
     directory := fun _ => Throw (AxiosError (Some 404)) |}.

Definition alice_pair : @KeyPair platform :=
  {| privateKey := Init.Byte.x03 : @EcPrivate platform;
     publicKey := Some (public_of Init.Byte.x03) |}.

(** Alice after [initialize]; after [savePrivateKey]; with the quota used up;
    and with her key stored but access to the storage denied. *)
Definition alice : @World platform := snd (CryptoService.initialize blank).

Definition alice_saved : @World platform :=
  snd (CryptoService.savePrivateKey "alice" alice).

Definition alice_quota : @World platform :=
  set_localStorage
    {| items := ∅; access_denied := false; quota_exceeded := true |} alice.

Definition alice_denied : @World platform :=
  set_localStorage
    {| items := items (localStorage alice_saved); access_denied := true;
       quota_exceeded := false |} alice_saved.

(** Bob, whose key generation draws from the tape six bytes further on. *)
Definition bob : @World platform :=
  snd (CryptoService.initialize
         (set_entropy {| tape := tape counting; cursor := 6 |} blank)).

Definition alice_public : string :=
  Eval vm_compute in value_or ""%string (fst (CryptoService.exportPublicKey alice)).

Definition bob_public : string :=
  Eval vm_compute in value_or ""%string (fst (CryptoService.exportPublicKey bob)).

Definition carol_public : string :=
  Eval vm_compute in CryptoService.arrayBufferToBase64 (export_raw (public_of Init.Byte.x0b)).

(** The key Alice derives for Bob, and "hello" encrypted under it. *)
Definition alice_bob_key : bytes :=
  Eval vm_compute in
    value_or [] (fst (CryptoService.deriveSharedKey (W := platform) bob_public "bob" alice)).

Definition hello : CryptoService.EncryptedData :=
  Eval vm_compute in
    value_or {| CryptoService.ciphertext := ""; CryptoService.iv := "";
                CryptoService.authTag := "" |}
      (fst (CryptoService.encryptMessage (W := platform) (js "hello") alice_bob_key alice)).

(** The same bytes cut one place earlier: a 4-byte ciphertext and a 17-byte
    tag field. *)
Definition hello_long_tag : CryptoService.EncryptedData :=
  Eval vm_compute in
    match CryptoService.field_bytes (CryptoService.ciphertext hello),
          CryptoService.field_bytes (CryptoService.authTag hello) with
    | Some c, Some t =>
        {| CryptoService.ciphertext := CryptoService.arrayBufferToBase64 (firstn 4 c);
           CryptoService.iv := CryptoService.iv hello;
           CryptoService.authTag := CryptoService.arrayBufferToBase64 (skipn 4 c ++ t) |}
    | _, _ => hello
    end.

(** Alice with a directory that has Bob's public key, and two schedules for
    two calls. *)
Definition alice_online : @World platform :=
  {| keyPair := keyPair alice; sharedKeys := sharedKeys alice;
     localStorage := localStorage alice; entropy := entropy alice;
     directory := fun userId =>
       if String.eqb userId "bob" then Ok bob_public
       else Throw (AxiosError (Some 404)) |}.

Definition round_robin : list nat := [0; 1; 0; 1; 0; 1; 0; 1; 0; 1; 0; 1]%nat.

Definition one_after_the_other : list nat := [0; 0; 0; 0; 0; 0; 1; 1; 1; 1; 1; 1]%nat.

(** Alice encrypts for Bob, Bob decrypts. *)
Definition send_and_receive (plaintext : jsstring) : Result jsstring :=
  match fst (CryptoService.encryptForUser plaintext bob_public "bob" alice) with
  | Ok e => fst (CryptoService.decryptFromUser e alice_public "alice" bob)
  | Throw err => Throw err
  end.

(** The same, when Alice's cache holds under "bob" a key that was derived
    from Carol's public key. *)
Definition alice_stale : @World platform :=
  snd (CryptoService.deriveSharedKey carol_public "bob" alice).

Definition send_with_cached_key (plaintext : jsstring) : Result jsstring :=
  match fst (CryptoService.encryptForUser plaintext bob_public "bob" alice_stale) with
  | Ok e => fst (CryptoService.decryptFromUser e alice_public "alice" bob)
  | Throw err => Throw err
  end.

(** Alice holds a key cached for "bob" when a different public key arrives
    under that id; she derives for it, logs out, reloads her private key and
    derives for it again. *)
Definition stale : @World platform :=
  snd (CryptoService.deriveSharedKey bob_public "bob" alice_saved).

Definition first_call : Result bytes * @World platform :=
  CryptoService.deriveSharedKey carol_public "bob" stale.

Definition reloaded : @World platform :=
  snd (CryptoService.loadPrivateKey "alice"
         (snd (CryptoService.clearKeys (snd first_call)))).

Definition second_call : Result bytes * @World platform :=
  CryptoService.deriveSharedKey carol_public "bob" reloaded.

Definition crossed (plaintext : jsstring) : Result jsstring :=
  match fst first_call, fst second_call with
  | Ok k1, Ok k2 =>
      match fst (CryptoService.encryptMessage (W := platform) plaintext k1 stale) with
      | Ok e => fst (CryptoService.decryptMessage (W := platform) e k2 reloaded)
      | Throw err => Throw err
      end
  | _, _ => Throw TypeError
  end.

End Toy.

(** ** [contexts/CryptoContext.jsx]: the provider's state and initialization *)

Module CryptoProvider.

(** The React state of [CryptoProvider] and its [initializationAttempted]
    ref. *)
Record State : Type := {
  isInitialized : bool;
  publicKey : option string;
  isLoading : bool;
  error : option string;
  initializationAttempted : bool;
}.

Definition setIsInitialized (b : bool) (st : State) : State :=
  {| isInitialized := b; publicKey := publicKey st; isLoading := isLoading st;
     error := error st; initializationAttempted := initializationAttempted st |}.

Definition setPublicKey (k : option string) (st : State) : State :=
  {| isInitialized := isInitialized st; publicKey := k; isLoading := isLoading st;
     error := error st; initializationAttempted := initializationAttempted st |}.

Definition setIsLoading (b : bool) (st : State) : State :=
  {| isInitialized := isInitialized st; publicKey := publicKey st; isLoading := b;
     error := error st; initializationAttempted := initializationAttempted st |}.

Definition setError (e : option string) (st : State) : State :=
  {| isInitialized := isInitialized st; publicKey := publicKey st;
     isLoading := isLoading st; error := e;
     initializationAttempted := initializationAttempted st |}.

Definition setInitializationAttempted (b : bool) (st : State) : State :=
  {| isInitialized := isInitialized st; publicKey := publicKey st;
     isLoading := isLoading st; error := error st; initializationAttempted := b |}.

(** The state of a provider that has just been mounted. *)
Definition mounted : State :=
  {| isInitialized := false; publicKey := None; isLoading := false; error := None;
     initializationAttempted := false |}.

(** The value, the state and the world a callback leaves. *)
Definition returned {A S V : Type} (x : A * S * V) : A := fst (fst x).
Definition state_after {A S V : Type} (x : A * S * V) : S := snd (fst x).
Definition world_after {A S V : Type} (x : A * S * V) : V := snd x.

Section Provider.
Context {W : WebCrypto}.

(** A callback of the provider run to completion: it threads the provider's
    state next to the world of the service, and an exception undoes neither. *)
Definition Async (A : Type) : Type := State -> World -> Result A * State * World.

Definition done {A} (a : A) : Async A := fun st w => (Ok a, st, w).
Definition raise {A} (e : JsError) : Async A := fun st w => (Throw e, st, w).

Definition andThen {A B} (m : Async A) (k : A -> Async B) : Async B :=
  fun st w =>
    match m st w with
    | (Ok a, st', w') => k a st' w'
    | (Throw e, st', w') => (Throw e, st', w')
    end.

(** A call into the service or to the server. *)
Definition call {A} (m : M A) : Async A :=
  fun st w => let '(r, w') := m w in (r, st, w').

(** A state setter. *)
Definition set (f : State -> State) : Async unit := fun st w => (Ok tt, f st, w).

Definition state : Async State := fun st w => (Ok st, st, w).

(** [try { body } catch (err) { handler } finally { cleanup }]. *)
Definition try_catch_finally {A} (body : Async A) (handler : JsError -> Async A)
    (cleanup : State -> State) : Async A :=
  fun st w =>
    let '(r, st', w') :=
      match body st w with
      | (Ok a, st', w') => (Ok a, st', w')
      | (Throw e, st', w') => handler e st' w'
      end in
    (r, cleanup st', w').

Definition catch {A} (body : Async A) (handler : JsError -> Async A) : Async A :=
  fun st w =>
    match body st w with
    | (Ok a, st', w') => (Ok a, st', w')
    | (Throw e, st', w') => handler e st' w'
    end.

(** [axiosInstance.put('/users/public-key', { publicKey })], sent with the
    session of the logged-in user. *)
Variable axios_put_public_key : string -> M unit.

(** [err.message] of an exception of the platform. *)
Variable platform_message : JsError -> string.

Definition message (err : JsError) : string :=
  match err with
  | Error m => m
  | _ => platform_message err
  end.

(** [err.message || 'Encryption initialization failed']. *)
Definition message_or_default (err : JsError) : string :=
  match message err with
  | EmptyString => "Encryption initialization failed"
  | m => m
  end.

(** [err.response?.status === 404]. *)
Definition is_404 (err : JsError) : bool :=
  match err with
  | AxiosError (Some status) => status =? 404
  | _ => false
  end.

Local Notation "'await' x <- m ;; k" := (andThen m (fun x => k))
  (at level 10, x name, m at level 99, k at level 200, only parsing).

(** The calls that generate a key pair, publish its public half and store its
    private half; [initializeCrypto] makes them in two places (lines 44-54
    and 67-71). *)
Definition generate_and_upload (id : string) : Async unit :=
  await _ <- call CryptoService.initialize ;;
  await pubKey <- call CryptoService.exportPublicKey ;;
  await _ <- set (setPublicKey (Some pubKey)) ;;
  await _ <- call (axios_put_public_key pubKey) ;;
  call (CryptoService.savePrivateKey id).

(** [initializeCrypto(forceReinit)] for the logged-in user [user?.id]. *)
Definition initializeCrypto (user_id : option string) (forceReinit : bool)
  : Async bool :=
  await st <- state ;;
  if isInitialized st && negb forceReinit then done true
  else
    match user_id with
    | None | Some EmptyString => done false
    | Some id =>
        await _ <- set (setIsLoading true) ;;
        await _ <- set (setError None) ;;
        try_catch_finally
          (await loaded <- call (CryptoService.loadPrivateKey id) ;;
           await _ <-
             (if negb loaded then generate_and_upload id
              else
                catch
                  (await response <- call (CryptoContext.axios_get_public_key id) ;;
                   set (setPublicKey (Some response)))
                  (fun err =>
                     if is_404 err then generate_and_upload id else raise err)) ;;
           await _ <- set (setIsInitialized true) ;;
           done true)
          (fun err =>
             await _ <- set (setError (Some (message_or_default err))) ;;
             done false)
          (setIsLoading false)
    end.

(** [clearCrypto], on logout. *)
Definition clearCrypto : Async unit :=
  await _ <- call CryptoService.clearKeys ;;
  await _ <- set (setIsInitialized false) ;;
  await _ <- set (setPublicKey None) ;;
  await _ <- set (setError None) ;;
  set (setInitializationAttempted false).

(** The effect that initializes when a user is logged in, once per session. *)
Definition autoInitialize (user_id : option string) : Async unit :=
  await st <- state ;;
  await _ <-
    (if ChatPage.truthy user_id && negb (isInitialized st) && negb (isLoading st)
        && negb (initializationAttempted st)
     then
       await _ <- set (setInitializationAttempted true) ;;
       await _ <- initializeCrypto user_id false ;;
       done tt
     else done tt) ;;
  if negb (ChatPage.truthy user_id) then set (setInitializationAttempted false)
  else done tt.


End Provider.
End CryptoProvider.

(** ** [pages/ChatPage.jsx]: showing messages *)

Module ChatMessages.

(** A message as the server formats it: [id] is the [ObjectId] of the
    message in hexadecimal, [senderId] is ['me'] for the messages of the
    requesting user, and the three fields of the envelope are strings, empty
    for a message that is not encrypted. *)
Record Message : Type := {
  id : string;
  conversationId : string;
  senderId : string;
  receiverId : option string;
  text : jsstring;
  isEncrypted : bool;
  encryptedData : string;
  iv : string;
  authTag : string;
}.

(** The state [decryptedMessages]: an object from message ids to texts. It
    is read and written at message ids only, none of which names a property
    of [Object.prototype]. *)
Abbreviation Decrypted := (gmap string jsstring).

(** Truthiness of a string and of a property that may be missing. *)
Definition nonempty (s : string) : bool :=
  match s with
  | EmptyString => false
  | String _ _ => true
  end.

Definition truthy_text (v : option jsstring) : bool :=
  match v with
  | Some (_ :: _) => true
  | _ => false
  end.

(** [a || b] for a property that may be missing and a string. *)
Definition or_text (v : option jsstring) (b : jsstring) : jsstring :=
  match v with
  | Some (u :: r) => u :: r
  | _ => b
  end.

Definition envelope (msg : Message) : CryptoService.EncryptedData :=
  {| CryptoService.ciphertext := encryptedData msg;
     CryptoService.iv := iv msg;
     CryptoService.authTag := authTag msg |}.

(** The user whose key decrypts [msg]: the receiver of a message the user
    sent, [activeContact.userId] when the message names no receiver, and the
    sender otherwise; [None] when that is falsy. *)
Definition otherUserId (activeContact : ChatPage.Contact) (msg : Message)
  : option string :=
  let candidate :=
    if String.eqb (senderId msg) "me" then
      if ChatPage.truthy (receiverId msg) then receiverId msg
      else ChatPage.userId activeContact
    else Some (senderId msg) in
  if ChatPage.truthy candidate then candidate else None.

Definition cannot_decrypt : jsstring := js "[Cannot decrypt: Old message format]".
Definition decryption_failed : jsstring := js "[Decryption failed]".
Definition decrypting : jsstring := js "Decrypting...".

Section Page.
Context {W : WebCrypto}.
Local Open Scope js_scope.

(** The body of the loop of [decryptMessagesAsync]: the entry it writes into
    [newDecrypted] for one message. *)
Definition decrypt_one (isCryptoInitialized : bool) (decryptedMessages : Decrypted)
    (activeContact : ChatPage.Contact) (msg : Message) : M jsstring :=
  if truthy_text (decryptedMessages !! id msg) || negb (isEncrypted msg) then
    ret (or_text (decryptedMessages !! id msg) (text msg))
  else
    try_catch
      (match otherUserId activeContact msg with
       | None => ret cannot_decrypt
       | Some other =>
           CryptoContext.decryptMessage isCryptoInitialized (envelope msg) other
       end)
      (fun _ => ret decryption_failed).

Fixpoint decrypt_all (isCryptoInitialized : bool) (decryptedMessages : Decrypted)
    (activeContact : ChatPage.Contact) (messages : list Message)
    (newDecrypted : Decrypted) : M Decrypted :=
  match messages with
  | [] => ret newDecrypted
  | msg :: rest =>
      await entry <-
        decrypt_one isCryptoInitialized decryptedMessages activeContact msg ;;
      decrypt_all isCryptoInitialized decryptedMessages activeContact rest
        (<[id msg := entry]> newDecrypted)
  end.

(** [decryptMessagesAsync]: the new value of [decryptedMessages]. *)
Definition decryptMessagesAsync (messages : list Message)
    (isCryptoInitialized : bool) (user_present : bool)
    (activeContact : option ChatPage.Contact) (decryptedMessages : Decrypted)
  : M Decrypted :=
  match messages, activeContact with
  | _ :: _, Some contact =>
      if isCryptoInitialized && user_present then
        await newDecrypted <-
          decrypt_all isCryptoInitialized decryptedMessages contact messages ∅ ;;
        ret (newDecrypted ∪ decryptedMessages)
      else ret decryptedMessages
  | _, _ => ret decryptedMessages
  end.

(** [displayMessages]. *)
Definition displayMessages (messages : list Message) (decryptedMessages : Decrypted)
  : list Message :=
  map (fun msg =>
         {| id := id msg; conversationId := conversationId msg;
            senderId := senderId msg; receiverId := receiverId msg;
            text := if isEncrypted msg
                    then or_text (decryptedMessages !! id msg) decrypting
                    else text msg;
            isEncrypted := isEncrypted msg; encryptedData := encryptedData msg;
            iv := iv msg; authTag := authTag msg |})
      messages.

(** The state [handleNewMessage] works on: the ids already processed, the
    decrypted texts, and the messages handed to [addMessage], latest first. *)
Record Page : Type := {
  processedMessageIds : gset string;
  decryptedMessages : Decrypted;
  added : list Message;
}.

(** [handleNewMessage], the listener of the socket event ['newMessage']. *)
Definition handleNewMessage (activeId user_id : option string)
    (isCryptoInitialized : bool) (msg : Message) (page : Page) : M Page :=
  if negb (bool_decide (Some (conversationId msg) = activeId)) then ret page
  else if nonempty (id msg) && bool_decide (id msg ∈ processedMessageIds page)
  then ret page
  else
    let processed :=
      if nonempty (id msg) then {[ id msg ]} ∪ processedMessageIds page
      else processedMessageIds page in
    if negb (bool_decide (Some (senderId msg) = user_id)) then
      if isEncrypted msg && isCryptoInitialized then
        await decrypted <-
          try_catch
            (CryptoContext.decryptMessage isCryptoInitialized (envelope msg)
               (senderId msg))
            (fun _ => ret decryption_failed) ;;
        ret {| processedMessageIds := processed;
               decryptedMessages := <[id msg := decrypted]> (decryptedMessages page);
               added := msg :: added page |}
      else
        ret {| processedMessageIds := processed;
               decryptedMessages := decryptedMessages page;
               added := msg :: added page |}
    else
      ret {| processedMessageIds := processed;
             decryptedMessages := decryptedMessages page;
             added := added page |}.

(** [dispatch(sendMessage({ conversationId, messageData }))]: the payload of
    the fulfilled action, [None] when the request was rejected. *)
Variable sendMessage : ChatPage.MessagePayload -> M (option Message).

(** The whole of [handleSend]: the payload is built and dispatched, and a
    fulfilled response with an id is recorded as processed, with the text
    that was sent as its decryption when it was sent encrypted. The emission
    on the socket that follows changes no state of the page and is left
    out. *)
Definition handleSend (isCryptoInitialized isConnected activeGroup : bool)
    (activeId : option string) (activeContact : option ChatPage.Contact)
    (user_id : option string) (messageText : jsstring) (page : Page) : M Page :=
  await dispatched <-
    ChatPage.handleSend isCryptoInitialized isConnected activeGroup activeId
      activeContact user_id messageText ;;
  match dispatched with
  | None => ret page
  | Some messagePayload =>
      try_catch
        (await response <- sendMessage messagePayload ;;
         match response with
         | Some payload =>
             if nonempty (id payload) then
               ret {| processedMessageIds :=
                        {[ id payload ]} ∪ processedMessageIds page;
                      decryptedMessages :=
                        if ChatPage.isEncrypted messagePayload
                        then <[id payload := trim messageText]> (decryptedMessages page)
                        else decryptedMessages page;
                      added := added page |}
             else ret page
         | None => ret page
         end)
        (fun _ => ret page)
  end.

End Page.
End ChatMessages.

(** ** The backend: [services/cryptoService.js] and
    [controllers/userController.js] *)

(** The raw export of a P-256 public key is the uncompressed point: 65
    bytes. *)
Class RawKeyLength (W : WebCrypto) : Prop := {
  exportRaw_length : forall P, length (exportRaw P) = 65%nat;
}.

Module Server.

(** A value of a JSON request body as the controller tests it: missing, a
    string, or anything else with its truthiness. *)
Inductive Value : Type :=
| Undefined
| Str (s : string)
| Other (truthy : bool).

Definition truthy (v : Value) : bool :=
  match v with
  | Undefined => false
  | Str EmptyString => false
  | Str (String _ _) => true
  | Other b => b
  end.

(** [/^[0-9a-fA-F]{24}$/]. *)
Definition is_hex_digit (c : ascii) : bool :=
  let n := N_of_ascii c in
  ((0x30 <=? n) && (n <=? 0x39)) || ((0x41 <=? n) && (n <=? 0x46))
  || ((0x61 <=? n) && (n <=? 0x66)).

Definition is_object_id (s : string) : bool :=
  (String.length s =? 24)%nat && forallb is_hex_digit (list_ascii_of_string s).

(** The hexadecimal form in which an [ObjectId] prints. *)
Definition lower (c : ascii) : ascii :=
  let n := N_of_ascii c in
  if (0x41 <=? n) && (n <=? 0x5A) then ascii_of_N (n + 32) else c.

Fixpoint lowercase (s : string) : string :=
  match s with
  | EmptyString => EmptyString
  | String c r => String (lower c) (lowercase r)
  end.

(** The fields of a [User] document that the two controllers touch; the
    schema stores [publicKey] as the string it is given. *)
Record User : Type := {
  publicKey : option string;
  fullName : string;
}.

(** The users collection, by [_id], and whether the database answers. *)
Record Db : Type := {
  users : gmap string User;
  available : bool;
}.

Inductive Body : Type :=
| ErrorBody (error : string)
| UpdatedBody (message : string) (publicKey : option string)
| PublicKeyBody (publicKey userId fullName : string).

Record Response : Type := { status : N; body : Body }.

Section Controllers.

(** [Buffer.from(s, 'base64')] of Node.js. *)
Variable buffer_from_base64 : string -> bytes.

(** The cast of a string to an [ObjectId] that Mongoose makes on a query by
    [_id]; [None] stands for its [CastError]. *)
Variable cast_object_id : string -> option string.

(** [CryptoService.isValidPublicKey]. *)
Definition isValidPublicKey (publicKeyBase64 : Value) : bool :=
  match publicKeyBase64 with
  | Str (String c r) =>
      let buffer := buffer_from_base64 (String c r) in
      (length buffer =? 65)%nat || (length buffer =? 33)%nat
  | _ => false
  end.

Definition server_error : Response :=
  {| status := 500; body := ErrorBody "Server error" |}.

(** [updatePublicKey] for the authenticated user [req.user.userId] and the
    [publicKey] of the request body, which is an object. *)
Definition updatePublicKey (userId : string) (publicKey : Value) (db : Db)
  : Response * Db :=
  if negb (truthy publicKey) then
    ({| status := 400; body := ErrorBody "Public key is required" |}, db)
  else if negb (isValidPublicKey publicKey) then
    ({| status := 400; body := ErrorBody "Invalid public key format" |}, db)
  else
    match publicKey, available db, cast_object_id userId with
    | Str key, true, Some oid =>
        match users db !! oid with
        | None => ({| status := 404; body := ErrorBody "User not found" |}, db)
        | Some user =>
            ({| status := 200;
                body := UpdatedBody "Public key updated successfully" (Some key) |},
             {| users := <[oid := {| publicKey := Some key;
                                     fullName := fullName user |}]> (users db);
                available := true |})
        end
    | _, _, _ => (server_error, db)
    end.

(** [getPublicKey] for [req.params.id]. *)
Definition getPublicKey (userId : string) (db : Db) : Response :=
  if negb (is_object_id userId) then
    {| status := 400; body := ErrorBody "Invalid user ID format" |}
  else
    match available db, cast_object_id userId with
    | true, Some oid =>
        match users db !! oid with
        | None => {| status := 404; body := ErrorBody "User not found" |}
        | Some user =>
            match publicKey user with
            | Some (String c r) =>
                {| status := 200;
                   body := PublicKeyBody (String c r) oid (fullName user) |}
            | _ =>
                {| status := 404;
                   body := ErrorBody "User has not set up encryption yet" |}
            end
        end
    | _, _ => server_error
    end.

(** Every key in the collection passes [isValidPublicKey]. *)
Definition keys_valid (db : Db) : Prop :=
  forall oid user key,
    users db !! oid = Some user -> publicKey user = Some key ->
    isValidPublicKey (Str key) = true.

End Controllers.
End Server.

(** ** A small server and a conversation for the examples *)

Module Scenario.

(** A server that accepts every upload and then serves the key under the
    id of the session. *)
Definition upload (session : string) (pubKey : string) : @M Toy.platform unit :=
  fun w =>
    (Ok tt,
     {| keyPair := keyPair w; sharedKeys := sharedKeys w;
        localStorage := localStorage w; entropy := entropy w;
        directory := fun userId =>
          if String.eqb userId session then Ok pubKey else directory w userId |}).

Definition platform_message (err : JsError) : string := "Request failed".

(** Alice's conversation with Bob, and the message "hello" as the server
    returns it to her after she sent it. *)
Definition bob_contact : ChatPage.Contact :=
  {| ChatPage.id := "c1"; ChatPage.userId := Some "bob"%string |}.

Definition sent_hello : ChatMessages.Message :=
  {| ChatMessages.id := "m1"; ChatMessages.conversationId := "c1";
     ChatMessages.senderId := "me"; ChatMessages.receiverId := Some "bob"%string;
     ChatMessages.text := js "[Encrypted]"; ChatMessages.isEncrypted := true;
     ChatMessages.encryptedData := CryptoService.ciphertext Toy.hello;
     ChatMessages.iv := CryptoService.iv Toy.hello;
     ChatMessages.authTag := CryptoService.authTag Toy.hello |}.

Definition plain_hello : ChatMessages.Message :=
  {| ChatMessages.id := "m0"; ChatMessages.conversationId := "c1";
     ChatMessages.senderId := "bob"; ChatMessages.receiverId := Some "alice"%string;
     ChatMessages.text := js "hello"; ChatMessages.isEncrypted := false;
     ChatMessages.encryptedData := ""; ChatMessages.iv := "";
     ChatMessages.authTag := "" |}.

(** What [handleSend] dispatches when Alice types " hi " to Bob, and a
    server that confirms every message under the id "m2". *)
Definition hi_payload : ChatPage.MessagePayload :=
  Eval vm_compute in
    match fst (ChatPage.handleSend (W := Toy.platform) true true false
                 (Some "c1"%string) (Some bob_contact) (Some "alice"%string)
                 (js "  hi ") Toy.alice_online) with
    | Ok (Some payload) => payload
    | _ => ChatPage.plain_payload None None []
    end.

Definition confirm (payload : ChatPage.MessagePayload)
  : @M Toy.platform (option ChatMessages.Message) :=
  ret (Some {| ChatMessages.id := "m2"; ChatMessages.conversationId := "c1";
               ChatMessages.senderId := "me";
               ChatMessages.receiverId := Some "bob"%string;
               ChatMessages.text := ChatPage.text payload;
               ChatMessages.isEncrypted := ChatPage.isEncrypted payload;
               ChatMessages.encryptedData :=
                 default ""%string (ChatPage.encryptedData payload);
               ChatMessages.iv := default ""%string (ChatPage.iv payload);
               ChatMessages.authTag := default ""%string (ChatPage.authTag payload) |}).

Definition empty_page : ChatMessages.Page :=
  {| ChatMessages.processedMessageIds := ∅; ChatMessages.decryptedMessages := ∅;
     ChatMessages.added := [] |}.

(** A decoder and a cast that behave as Node.js and Mongoose do on the
    inputs of the examples. *)
Definition buffer_from_base64 (s : string) : bytes :=
  default [] (CryptoService.field_bytes s).

Definition cast_object_id (s : string) : option string :=
  if Server.is_object_id s then Some (Server.lowercase s) else None.

Definition alice_id : string := "0123456789abcdef01234567".

Definition db : Server.Db :=
  {| Server.users :=
       {[ alice_id := {| Server.publicKey := None; Server.fullName := "Alice" |} ]};
     Server.available := true |}.

End Scenario.

(** * Properties *)

(** ** Bytes and bounded case analysis *)

Ltac Zify.zify_post_hook ::= Z.to_euclidean_division_equations.

Lemma byte_of_N_to_N (b : byte) : byte_of_N (Byte.to_N b) = b.
Proof.
  unfold byte_of_N. pose proof (Byte.to_N_bounded b) as Hb.
  rewrite N.mod_small by lia. now rewrite Byte.of_to_N.
Qed.

Lemma to_N_byte_of_N (n : N) : Byte.to_N (byte_of_N n) = n mod 256.
Proof.
  unfold byte_of_N. destruct (Byte.of_N (n mod 256)) as [b|] eqn:E.
  - now apply Byte.to_of_N.
  - apply Byte.of_N_None_iff in E. lia.
Qed.

Lemma to_N_byte_of_N_small (n : N) : n < 256 -> Byte.to_N (byte_of_N n) = n.
Proof. intros H. rewrite to_N_byte_of_N. apply N.mod_small, H. Qed.

Lemma to_N_lt (b : byte) : Byte.to_N b < 256.
Proof. pose proof (Byte.to_N_bounded b). lia. Qed.

Lemma to_N_inj (a b : byte) : Byte.to_N a = Byte.to_N b -> a = b.
Proof.
  intros H. rewrite <- (byte_of_N_to_N a), <- (byte_of_N_to_N b). now rewrite H.
Qed.

Lemma below_cases (f : N -> bool) (k : nat) :
  forallb f (map N.of_nat (seq 0 k)) = true ->
  forall n, n < N.of_nat k -> f n = true.
Proof.
  intros HF n Hn. rewrite forallb_forall in HF. apply HF.
  apply in_map_iff. exists (N.to_nat n). split; [lia|].
  apply in_seq. lia.
Qed.

Lemma list_ind2 {A} (P : list A -> Prop) :
  P [] -> (forall a, P [a]) ->
  (forall a b r, P r -> P (b :: r) -> P (a :: b :: r)) ->
  forall l, P l.
Proof.
  intros H0 H1 H2.
  assert (forall l, P l /\ (forall a, P (a :: l))) as H.
  { induction l as [|x l [IH0 IH1]]; split; auto. }
  intros l. apply H.
Qed.

Lemma list_ind3 {A} (P : list A -> Prop) :
  P [] -> (forall a, P [a]) -> (forall a b, P [a; b]) ->
  (forall a b c r, P r -> P (a :: b :: c :: r)) ->
  forall l, P l.
Proof.
  intros H0 H1 H2 H3.
  assert (forall l, P l /\ (forall a, P (a :: l)) /\ (forall a b, P (a :: b :: l))) as H.
  { induction l as [|x l (IH0 & IH1 & IH2)]; repeat split; auto. }
  intros l. apply H.
Qed.

(** ** Base64 *)

Module Base64Facts.
Import Base64.

Lemma index_of_char_of n : n < 64 -> index_of (char_of n) = Some n.
Proof.
  intros H.
  pose proof (below_cases
    (fun n => match index_of (char_of n) with Some m => m =? n | None => false end)
    64 ltac:(vm_compute; reflexivity) n H) as E.
  cbv beta in E. destruct (index_of (char_of n)); [|discriminate].
  apply N.eqb_eq in E. now subst.
Qed.

Lemma char_of_not_pad n : n < 64 -> Byte.eqb (char_of n) pad = false.
Proof.
  intros H.
  pose proof (below_cases (fun n => negb (Byte.eqb (char_of n) pad))
    64 ltac:(vm_compute; reflexivity) n H) as E.
  now apply negb_true_iff in E.
Qed.

Lemma char_of_not_whitespace n : n < 64 -> is_ascii_whitespace (char_of n) = false.
Proof.
  intros H.
  pose proof (below_cases (fun n => negb (is_ascii_whitespace (char_of n)))
    64 ltac:(vm_compute; reflexivity) n H) as E.
  now apply negb_true_iff in E.
Qed.

Lemma encode_no_whitespace l :
  List.filter (fun c => negb (is_ascii_whitespace c)) (encode l) = encode l.
Proof.
  induction l as [|a|a b|a b c r IH] using list_ind3; [reflexivity| | |];
    pose proof (to_N_lt a) as Ha;
    try pose proof (to_N_lt b) as Hb; try pose proof (to_N_lt c) as Hc.
  - cbn [encode quad1 List.filter].
    rewrite !char_of_not_whitespace by lia. reflexivity.
  - cbn [encode quad2 List.filter].
    rewrite !char_of_not_whitespace by lia. reflexivity.
  - cbn [encode]. rewrite List.filter_app, IH. f_equal.
    cbn [quad3 List.filter]. rewrite !char_of_not_whitespace by lia. reflexivity.
Qed.

Lemma encode_length l : (length (encode l) mod 4 = 0)%nat.
Proof.
  induction l as [|a|a b|a b c r IH] using list_ind3; try reflexivity.
  cbn [encode]. rewrite length_app. cbn [quad3 length].
  change (4 + length (encode r))%nat with (1 * 4 + length (encode r))%nat.
  rewrite Nat.add_comm, Nat.Div0.mod_add. exact IH.
Qed.

Lemma strip_padding_cons c r :
  Byte.eqb c pad = false -> strip_padding (c :: r) = c :: strip_padding r.
Proof.
  intros H. cbn [strip_padding]. rewrite H.
  destruct r as [|d [|e r]]; reflexivity.
Qed.

Lemma strip_padding_encode l : strip_padding (encode l) = body l.
Proof.
  induction l as [|a|a b|a b c r IH] using list_ind3; [reflexivity| | |];
    pose proof (to_N_lt a) as Ha;
    try pose proof (to_N_lt b) as Hb; try pose proof (to_N_lt c) as Hc.
  - cbn [encode body]; cbv [quad1]; cbn [firstn].
    rewrite !strip_padding_cons by (apply char_of_not_pad; lia). reflexivity.
  - cbn [encode body]; cbv [quad2]; cbn [firstn].
    rewrite !strip_padding_cons by (apply char_of_not_pad; lia). reflexivity.
  - cbn [encode body]; cbv [quad3]; cbn [app].
    rewrite !strip_padding_cons by (apply char_of_not_pad; lia). now rewrite IH.
Qed.

Lemma body_length l : (length (body l) mod 4 =? 1)%nat = false.
Proof.
  induction l as [|a|a b|a b c r IH] using list_ind3; try reflexivity.
  cbn [body]. rewrite length_app. cbn [quad3 length].
  change (4 + length (body r))%nat with (1 * 4 + length (body r))%nat.
  rewrite Nat.add_comm, Nat.Div0.mod_add. exact IH.
Qed.

Lemma decode_body l : option_map bytes_of_sextets (sextets (body l)) = Some l.
Proof.
  induction l as [|a|a b|a b c r IH] using list_ind3; [reflexivity| | |];
    pose proof (to_N_lt a) as Ha;
    try pose proof (to_N_lt b) as Hb; try pose proof (to_N_lt c) as Hc.
  - cbn [body]; cbv [quad1]; cbn [firstn sextets]. rewrite !index_of_char_of by lia.
    cbn [option_map bytes_of_sextets]. do 2 f_equal.
    rewrite <- (byte_of_N_to_N a) at 3. f_equal. lia.
  - cbn [body]; cbv [quad2]; cbn [firstn sextets]. rewrite !index_of_char_of by lia.
    cbn [option_map bytes_of_sextets].
    rewrite <- (byte_of_N_to_N a) at 4. rewrite <- (byte_of_N_to_N b) at 4.
    do 2 f_equal; [|f_equal]; apply to_N_inj; rewrite !to_N_byte_of_N; lia.
  - cbn [body]; cbv [quad3]; cbn [app sextets]. rewrite !index_of_char_of by lia.
    destruct (sextets (body r)) as [ns|]; [|discriminate].
    cbn [option_map bytes_of_sextets] in *. injection IH as IH. rewrite IH.
    rewrite <- (byte_of_N_to_N a) at 5. rewrite <- (byte_of_N_to_N b) at 5.
    rewrite <- (byte_of_N_to_N c) at 5.
    do 2 f_equal; [|f_equal; [|f_equal]]; apply to_N_inj; rewrite !to_N_byte_of_N; lia.
Qed.

Lemma base64_decode_encode l : decode (encode l) = Some l.
Proof.
  unfold decode. rewrite encode_no_whitespace, encode_length.
  cbn [Nat.eqb]. rewrite strip_padding_encode, body_length. apply decode_body.
Qed.

End Base64Facts.

Lemma atob_btoa (binary : string) : atob (btoa binary) = Some binary.
Proof.
  unfold atob, btoa. rewrite list_byte_of_string_of_list_byte.
  rewrite Base64Facts.base64_decode_encode. cbn [option_map].
  now rewrite string_of_list_byte_of_string.
Qed.

Example btoa_hello : btoa "hello" = "aGVsbG8="%string.
Proof. reflexivity. Qed.

Example atob_hello : atob "aGVs bG8=" = Some "hello"%string.
Proof. reflexivity. Qed.

Example atob_forgiving :
  atob "QR==" = Some "A"%string /\ atob "QQ" = Some "A"%string /\
  atob "QQ=" = None /\ atob "Q" = None.
Proof. repeat split; reflexivity. Qed.

(** ** The text codec *)

Example encode_hello :
  TextCodec.encode (js "hi") = [Init.Byte.x68; Init.Byte.x69].
Proof. reflexivity. Qed.

Example decode_euro : TextCodec.decode (TextCodec.encode [0x20AC; 0xD83D; 0xDE00]) = [0x20AC; 0xD83D; 0xDE00].
Proof. reflexivity. Qed.

Example decode_bom : TextCodec.decode (TextCodec.encode (0xFEFF :: js "hi")) = js "hi".
Proof. reflexivity. Qed.

Example decode_lone : TextCodec.decode (TextCodec.encode [0xD800]) = [0xFFFD].
Proof. reflexivity. Qed.

Example trim_hi : trim (js "  hi there ") = js "hi there".
Proof. reflexivity. Qed.

Module TextCodecFacts.
Import TextCodec.

Ltac decide_tests :=
  repeat match goal with
  | |- context [?a <=? ?b] =>
      first [ rewrite (proj2 (N.leb_le a b)) by lia
            | rewrite (proj2 (N.leb_gt a b)) by lia ]
  | |- context [?a <? ?b] =>
      first [ rewrite (proj2 (N.ltb_lt a b)) by lia
            | rewrite (proj2 (N.ltb_ge a b)) by lia ]
  | |- context [?a =? ?b] =>
      first [ rewrite (proj2 (N.eqb_eq a b)) by lia
            | rewrite (proj2 (N.eqb_neq a b)) by lia ]
  end.

Lemma decode_loop_cons st b r :
  decode_loop st (b :: r) = fst (feed st b) ++ decode_loop (snd (feed st b)) r.
Proof. cbn [decode_loop]. now destruct (feed st b). Qed.

Lemma next_byte_in_bounds p b :
  lower_boundary p <= b <= upper_boundary p ->
  next_byte p b =
    match bytes_left p with
    | S (S n) =>
        ([], Some {| code_point := code_point p * 64 + b mod 64; bytes_left := S n;
                     lower_boundary := 0x80; upper_boundary := 0xBF |})
    | _ => ([code_point p * 64 + b mod 64], None)
    end.
Proof.
  intros [Hl Hu]. unfold next_byte.
  apply N.leb_le in Hl, Hu. now rewrite Hl, Hu.
Qed.

Ltac continuation :=
  rewrite decode_loop_cons; cbn [feed]; rewrite to_N_byte_of_N_small by lia;
  rewrite next_byte_in_bounds
    by (cbn [lower_boundary upper_boundary];
        repeat match goal with
        | |- context [if ?a =? ?b then _ else _] => destruct (N.eqb_spec a b)
        end; lia);
  cbn [bytes_left code_point fst snd app].

Lemma decode_utf8_bytes cp rest :
  is_scalar cp ->
  decode_loop None (utf8_bytes cp ++ rest) = cp :: decode_loop None rest.
Proof.
  intros [Hlt Hns]. unfold utf8_bytes.
  destruct (N.ltb_spec cp 0x80); [|destruct (N.ltb_spec cp 0x800);
    [|destruct (N.ltb_spec cp 0x10000)]];
    cbn [app]; rewrite decode_loop_cons; cbn [feed];
    rewrite to_N_byte_of_N_small by lia; unfold first_byte.
  - decide_tests. reflexivity.
  - decide_tests. cbn [andb fst snd app].
    continuation. f_equal. lia.
  - replace (0xE0 + cp / 4096 <=? 0x7F) with false by (symmetry; apply N.leb_gt; lia).
    replace (0xC2 <=? 0xE0 + cp / 4096) with true by (symmetry; apply N.leb_le; lia).
    replace (0xE0 + cp / 4096 <=? 0xDF) with false by (symmetry; apply N.leb_gt; lia).
    replace (0xE0 <=? 0xE0 + cp / 4096) with true by (symmetry; apply N.leb_le; lia).
    replace (0xE0 + cp / 4096 <=? 0xEF) with true by (symmetry; apply N.leb_le; lia).
    cbn [andb fst snd app].
    do 2 continuation. f_equal. lia.
  - replace (0xF0 + cp / 262144 <=? 0x7F) with false by (symmetry; apply N.leb_gt; lia).
    replace (0xC2 <=? 0xF0 + cp / 262144) with true by (symmetry; apply N.leb_le; lia).
    replace (0xF0 + cp / 262144 <=? 0xDF) with false by (symmetry; apply N.leb_gt; lia).
    replace (0xE0 <=? 0xF0 + cp / 262144) with true by (symmetry; apply N.leb_le; lia).
    replace (0xF0 + cp / 262144 <=? 0xEF) with false by (symmetry; apply N.leb_gt; lia).
    replace (0xF0 <=? 0xF0 + cp / 262144) with true by (symmetry; apply N.leb_le; lia).
    replace (0xF0 + cp / 262144 <=? 0xF4) with true by (symmetry; apply N.leb_le; lia).
    cbn [andb fst snd app].
    do 3 continuation. f_equal. lia.
Qed.

Lemma decode_loop_utf8 cps :
  Forall is_scalar cps -> decode_loop None (flat_map utf8_bytes cps) = cps.
Proof.
  induction 1 as [|cp cps Hcp _ IH]; [reflexivity|].
  cbn [flat_map]. now rewrite decode_utf8_bytes, IH.
Qed.

Ltac split_tests :=
  unfold is_lead, is_trail in *;
  repeat match goal with
  | H : _ && _ = true |- _ => apply andb_true_iff in H; destruct H
  | H : negb _ = true |- _ => apply negb_true_iff in H
  | H : (_ <=? _) = true |- _ => apply N.leb_le in H
  | H : (_ <=? _) = false |- _ => apply N.leb_gt in H
  | H : (_ <? _) = true |- _ => apply N.ltb_lt in H
  | H : _ && _ = false |- _ => apply andb_false_iff in H; destruct H
  end.

Lemma scalar_values_plain u r :
  is_lead u = false -> is_trail u = false ->
  scalar_values (u :: r) = u :: scalar_values r.
Proof. intros El Et. cbn [scalar_values]. now rewrite El, Et. Qed.

Lemma scalar_values_pair u v r :
  is_lead u = true -> is_trail v = true ->
  scalar_values (u :: v :: r) =
    (0x10000 + (u - 0xD800) * 1024 + (v - 0xDC00)) :: scalar_values r.
Proof. intros El Et. cbn [scalar_values]. now rewrite El, Et. Qed.

(** The two shapes of a non-empty well-formed string. *)
Lemma well_formed_cons u r :
  well_formed (u :: r) = true ->
  (is_lead u = false /\ is_trail u = false /\ u < 0x10000 /\ well_formed r = true)
  \/ (exists v r', r = v :: r' /\ is_lead u = true /\ is_trail v = true
                   /\ well_formed r' = true).
Proof.
  cbn [well_formed]. destruct (is_lead u) eqn:El.
  - destruct r as [|v r']; [discriminate|]. intros [Ev Hr]%andb_true_iff.
    right. now exists v, r'.
  - intros [[Ht Hu]%andb_true_iff Hr]%andb_true_iff. left.
    apply negb_true_iff in Ht. apply N.ltb_lt in Hu. auto.
Qed.

Lemma scalar_values_scalar s :
  well_formed s = true -> Forall is_scalar (scalar_values s).
Proof.
  induction s as [|u|u v r IHr IHv] using list_ind2; intros Hwf;
    [constructor| |];
    (apply well_formed_cons in Hwf
       as [(El & Et & Hu & Hr)|(v' & r' & E & El & Et & Hr)];
     [rewrite scalar_values_plain by assumption
     |inversion E; subst; rewrite scalar_values_pair by assumption]);
    (constructor; [split_tests; split; lia|]); auto.
Qed.

Lemma code_units_scalar_values s :
  well_formed s = true -> flat_map code_units (scalar_values s) = s.
Proof.
  induction s as [|u|u v r IHr IHv] using list_ind2; intros Hwf;
    [reflexivity| |];
    (apply well_formed_cons in Hwf
       as [(El & Et & Hu & Hr)|(v' & r' & E & El & Et & Hr)];
     [rewrite scalar_values_plain by assumption
     |inversion E; subst; rewrite scalar_values_pair by assumption]);
    cbn [flat_map]; unfold code_units at 1.
  - decide_tests. reflexivity.
  - decide_tests. cbn [app]. now rewrite IHv.
  - rewrite IHr by assumption.
    split_tests; decide_tests; cbn [app]; (f_equal; [|f_equal]); lia.
Qed.

Lemma strip_bom_scalar_values s :
  well_formed s = true -> starts_with_bom s = false ->
  strip_bom (scalar_values s) = scalar_values s.
Proof.
  destruct s as [|u r]; [reflexivity|]. intros Hwf Hb.
  cbn [starts_with_bom] in Hb.
  apply well_formed_cons in Hwf
    as [(El & Et & Hu & Hr)|(v' & r' & E & El & Et & Hr)].
  - rewrite scalar_values_plain by assumption. cbn [strip_bom]. now rewrite Hb.
  - subst r. rewrite scalar_values_pair by assumption. cbn [strip_bom].
    split_tests; decide_tests; reflexivity.
Qed.

(** [TextDecoder] inverts [TextEncoder] on well-formed strings that do not
    begin with a byte order mark. *)
Lemma text_decode_encode s :
  well_formed s = true -> starts_with_bom s = false -> decode (encode s) = s.
Proof.
  intros Hwf Hb. unfold decode, encode.
  rewrite decode_loop_utf8 by now apply scalar_values_scalar.
  rewrite strip_bom_scalar_values by assumption.
  now apply code_units_scalar_values.
Qed.

(** A leading byte order mark is encoded and then dropped by the decoder. *)
Lemma decode_encode_bom s :
  well_formed s = true -> decode (encode (0xFEFF :: s)) = s.
Proof.
  intros Hwf. unfold decode, encode.
  rewrite scalar_values_plain by reflexivity.
  rewrite decode_loop_utf8.
  - cbn [strip_bom]. rewrite N.eqb_refl. now apply code_units_scalar_values.
  - constructor; [|now apply scalar_values_scalar]. split; [reflexivity|].
    intros [_ H]. now apply N.leb_le in H.
Qed.

Lemma well_formed_js s : well_formed (js s) = true.
Proof.
  unfold js. induction (list_byte_of_string s) as [|b l IH]; [reflexivity|].
  cbn [map well_formed]. pose proof (to_N_lt b).
  unfold is_lead, is_trail. decide_tests. cbn [andb negb]. exact IH.
Qed.

End TextCodecFacts.

(** ** The service: persistence *)

Ltac js_unfold :=
  unfold bind, try_catch, ret, throw, get, modify, of_option in *.

Section ServiceFacts.
Context {W : WebCrypto}.
Import CryptoService.

Lemma savePrivateKey_ok userId (w : World) : fst (savePrivateKey userId w) = Ok tt.
Proof.
  unfold savePrivateKey, localStorage_setItem. js_unfold.
  destruct (keyPair w); cbn; [|reflexivity].
  destruct (access_denied (localStorage w)); [reflexivity|].
  destruct (quota_exceeded (localStorage w)); reflexivity.
Qed.

Lemma savePrivateKey_failed_write userId (w : World) :
  access_denied (localStorage w) = true \/ quota_exceeded (localStorage w) = true ->
  snd (savePrivateKey userId w) = w.
Proof.
  intros H. unfold savePrivateKey, localStorage_setItem. js_unfold.
  destruct (keyPair w); cbn; [|reflexivity].
  destruct (access_denied (localStorage w)); [reflexivity|].
  destruct H as [H|H]; [discriminate|]. now rewrite H.
Qed.

Lemma loadPrivateKey_total userId (w : World) :
  exists b, fst (loadPrivateKey userId w) = Ok b.
Proof.
  unfold loadPrivateKey, localStorage_getItem, base64ToArrayBuffer. js_unfold.
  destruct (access_denied (localStorage w)); [now exists false|].
  destruct (items (localStorage w) !! storage_key userId) as [[|c s]|];
    [now exists false| |now exists false].
  destruct (atob (String c s)); cbn; [|now exists false].
  destruct (importPkcs8 _); cbn; eauto.
Qed.

Lemma loadPrivateKey_denied userId (w : World) :
  access_denied (localStorage w) = true -> loadPrivateKey userId w = (Ok false, w).
Proof.
  intros H. unfold loadPrivateKey, localStorage_getItem. js_unfold. now rewrite H.
Qed.

Lemma loadPrivateKey_absent userId (w : World) :
  access_denied (localStorage w) = false ->
  items (localStorage w) !! storage_key userId = None ->
  loadPrivateKey userId w = (Ok false, w).
Proof.
  intros Ha Hn. unfold loadPrivateKey, localStorage_getItem. js_unfold.
  now rewrite Ha, Hn.
Qed.

(** What a successful [loadPrivateKey] leaves: the stored private key and no
    public key. *)
Lemma loadPrivateKey_true userId (w : World) :
  fst (loadPrivateKey userId w) = Ok true ->
  exists base64 binary d,
    items (localStorage w) !! storage_key userId = Some base64
    /\ atob base64 = Some binary
    /\ importPkcs8 (list_byte_of_string binary) = Some d
    /\ snd (loadPrivateKey userId w)
       = set_keyPair (Some {| privateKey := d; publicKey := None |}) w.
Proof.
  unfold loadPrivateKey, localStorage_getItem, base64ToArrayBuffer. js_unfold.
  destruct (access_denied (localStorage w)); [discriminate|].
  destruct (items (localStorage w) !! storage_key userId) as [[|c s]|];
    [discriminate| |discriminate].
  destruct (atob (String c s)) as [binary|] eqn:Ea; cbn; [|discriminate].
  destruct (importPkcs8 _) as [d|] eqn:Ei; cbn; [|discriminate].
  intros _. now exists (String c s), binary, d.
Qed.

(** C8, as the code has it: [savePrivateKey] never throws, and a write that
    fails (access denied or quota exceeded) stores nothing and is reported to
    nobody; [loadPrivateKey] never throws either, and answers [false] both
    when no key is stored for the owner and when the storage cannot be read. *)
Theorem storage_failures_never_surface userId (w : World) :
  fst (savePrivateKey userId w) = Ok tt
  /\ (access_denied (localStorage w) = true \/ quota_exceeded (localStorage w) = true ->
      snd (savePrivateKey userId w) = w)
  /\ (exists b, fst (loadPrivateKey userId w) = Ok b)
  /\ (access_denied (localStorage w) = true ->
      loadPrivateKey userId w = (Ok false, w))
  /\ (access_denied (localStorage w) = false ->
      items (localStorage w) !! storage_key userId = None ->
      loadPrivateKey userId w = (Ok false, w)).
Proof.
  repeat split.
  - apply savePrivateKey_ok.
  - apply savePrivateKey_failed_write.
  - apply loadPrivateKey_total.
  - apply loadPrivateKey_denied.
  - apply loadPrivateKey_absent.
Qed.

(** C3, on the code: whenever [loadPrivateKey] answers [true], the key pair it
    leaves has its public half unset, and [exportPublicKey] then throws the
    [TypeError] of exporting [null]. *)
Theorem loadPrivateKey_drops_public_key userId (w : World) :
  fst (loadPrivateKey userId w) = Ok true ->
  (exists d, keyPair (snd (loadPrivateKey userId w))
             = Some {| privateKey := d; publicKey := None |})
  /\ fst (exportPublicKey (snd (loadPrivateKey userId w))) = Throw TypeError.
Proof.
  intros H. apply loadPrivateKey_true in H as (b64 & bin & d & _ & _ & _ & E).
  rewrite E. split; [now exists d|]. reflexivity.
Qed.

End ServiceFacts.

(** C8 as stated fails: with the quota used up [savePrivateKey] completes
    normally and stores nothing, and with Alice's key in the storage but
    access denied [loadPrivateKey] answers [false], as if no key were stored. *)
Lemma storage_failure_is_silent :
  fst (CryptoService.savePrivateKey "alice" Toy.alice_quota) = Ok tt
  /\ items (localStorage (snd (CryptoService.savePrivateKey "alice" Toy.alice_quota)))
       !! CryptoService.storage_key "alice" = None
  /\ items (localStorage Toy.alice_denied) !! CryptoService.storage_key "alice"
       = Some "MAM="%string
  /\ fst (CryptoService.loadPrivateKey "alice" Toy.alice_denied) = Ok false.
Proof. repeat split; vm_compute; reflexivity. Qed.

(** The failing input of C3: [initialize], [exportPublicKey],
    [savePrivateKey], [loadPrivateKey], [exportPublicKey]. *)
Lemma reload_loses_public_key :
  fst (CryptoService.exportPublicKey Toy.alice)
    = Ok Toy.alice_public
  /\ fst (CryptoService.loadPrivateKey "alice" Toy.alice_saved) = Ok true
  /\ (exists d, keyPair (snd (CryptoService.loadPrivateKey "alice" Toy.alice_saved))
                = Some {| privateKey := d; publicKey := None |})
  /\ fst (CryptoService.exportPublicKey
            (snd (CryptoService.loadPrivateKey "alice" Toy.alice_saved)))
     = Throw TypeError.
Proof.
  assert (fst (CryptoService.loadPrivateKey "alice" Toy.alice_saved) = Ok true) as H
    by (vm_compute; reflexivity).
  split; [vm_compute; reflexivity|]. split; [exact H|].
  exact (loadPrivateKey_drops_public_key (W := Toy.platform) "alice" Toy.alice_saved H).
Defined.

(** ** The service: clearing the keys *)

Section ClearFacts.
Context {W : WebCrypto}.
Import CryptoService.

Lemma clearKeys_world (w : World) :
  clearKeys w = (Ok tt, set_keyPair None (set_sharedKeys ∅ w)).
Proof. reflexivity. Qed.

Lemma perform_without_key_pair op (w : World) :
  keyPair w = None ->
  exists e, perform op w = (Throw e, w) /\ not_initialized e = true.
Proof.
  intros H.
  destruct op; cbn [perform]; unfold outcome, exportPublicKey, encryptForUser,
    decryptFromUser, deriveSharedKey; js_unfold; rewrite H; eauto.
Qed.

Lemma perform_all_without_key_pair ops (w : World) :
  keyPair w = None ->
  Forall (fun r => exists e, r = Throw e /\ not_initialized e = true)
    (fst (perform_all ops w))
  /\ snd (perform_all ops w) = w.
Proof.
  intros H. induction ops as [|op ops [IH1 IH2]]; [now split|].
  cbn [perform_all].
  destruct (perform_without_key_pair op w H) as (e & -> & He).
  destruct (perform_all ops w) as [rs w'']. cbn [fst snd] in *.
  split; [|assumption]. constructor; eauto.
Qed.

Lemma initialize_sets_key_pair (w : World) :
  fst (initialize w) = Ok true ->
  exists d, keyPair (snd (initialize w))
            = Some {| privateKey := d; publicKey := Some (publicOf d) |}.
Proof.
  unfold initialize, subtle_generateKey, getRandomValues. js_unfold.
  destruct (draw 32 (entropy w)) as [seed e].
  destruct (generateKey seed) as [d|]; cbn; [|discriminate].
  intros _. now exists d.
Qed.

(** C9: after [clearKeys] the key pair is gone and the cache of shared keys is
    empty; from then on [exportPublicKey], [deriveSharedKey], [encryptForUser]
    and [decryptFromUser], in any number and order, each throw one of the two
    not-initialized errors and change nothing; the provider's [clearCrypto]
    clears the same way and leaves [isInitialized] false, under which its
    [encryptMessage] and [decryptMessage] throw "Crypto not initialized"; a
    successful [initialize] installs a key pair whose public key can again be
    exported; and a world never holds more than one key pair. *)
Theorem clearKeys_invalidates (w : World) (ops : list Operation) :
  keyPair (snd (clearKeys w)) = None
  /\ sharedKeys (snd (clearKeys w)) = ∅
  /\ Forall (fun r => exists e, r = Throw e /\ not_initialized e = true)
       (fst (perform_all ops (snd (clearKeys w))))
  /\ snd (perform_all ops (snd (clearKeys w))) = snd (clearKeys w)
  /\ CryptoContext.clearCrypto w = (Ok false, snd (clearKeys w))
  /\ (forall plaintext encryptedData userId (w' : World),
        CryptoContext.encryptMessage false plaintext userId w'
          = (Throw (Error "Crypto not initialized"), w')
        /\ CryptoContext.decryptMessage false encryptedData userId w'
           = (Throw (Error "Crypto not initialized"), w'))
  /\ (fst (initialize (snd (clearKeys w))) = Ok true ->
      exists publicKeyBase64,
        fst (exportPublicKey (snd (initialize (snd (clearKeys w)))))
        = Ok publicKeyBase64)
  /\ (forall w' : World, (length (active_key_pairs w') <= 1)%nat).
Proof.
  unfold CryptoContext.clearCrypto. unfold bind at 1.
  rewrite clearKeys_world. cbn [snd].
  split; [reflexivity|]. split; [reflexivity|].
  pose proof (perform_all_without_key_pair ops
                (set_keyPair None (set_sharedKeys ∅ w)) eq_refl) as [H1 H2].
  split; [exact H1|]. split; [exact H2|]. split; [reflexivity|].
  split; [now split|]. split.
  - intros Hi. apply initialize_sets_key_pair in Hi as [d Hd].
    unfold exportPublicKey. js_unfold. rewrite Hd. cbn. eauto.
  - intros w'. unfold active_key_pairs. destruct (keyPair w'); cbn; lia.
Qed.

End ClearFacts.

(** ** The provider *)

Section ProviderFacts.
Context {W : WebCrypto}.
Import CryptoContext.

(** C5, as the code has it: once [isInitialized] holds, [decryptMessage]
    never throws, and whenever fetching the sender's key, deriving the shared
    key or decrypting fails it returns the fixed placeholder; while
    [isInitialized] is false it throws "Crypto not initialized". *)
Theorem decryptMessage_placeholder encryptedData senderId (w : World) :
  (exists s, fst (decryptMessage true encryptedData senderId w) = Ok s)
  /\ (forall e,
        fst (bind (getUserPublicKey senderId)
               (fun senderPublicKey =>
                  CryptoService.decryptFromUser encryptedData senderPublicKey senderId) w)
          = Throw e ->
        fst (decryptMessage true encryptedData senderId w) = Ok decryption_failed)
  /\ decryptMessage false encryptedData senderId w
     = (Throw (Error "Crypto not initialized"), w).
Proof.
  unfold decryptMessage. cbn [negb]. unfold try_catch.
  destruct (bind _ _ w) as [[s|e] w'] eqn:E; cbn [fst].
  - split; [eauto|]. split; [discriminate|reflexivity].
  - split; [cbn; eauto|]. split; [reflexivity|reflexivity].
Qed.

End ProviderFacts.

(** C5 as stated fails: called while [isInitialized] is false, the provider's
    [decryptMessage] throws to its caller. *)
Lemma decryptMessage_can_throw :
  fst (CryptoContext.decryptMessage false Toy.hello "bob" Toy.alice)
  = Throw (Error "Crypto not initialized").
Proof. reflexivity. Qed.

(** ** The send path *)

Section PageFacts.
Context {W : WebCrypto}.
Import ChatPage.

(** C10: when the guard of [handleSend] lets the message through, and either
    crypto is not initialized or the call of [encryptMessage] throws, the
    payload dispatched has [isEncrypted] false and carries the trimmed message
    text itself. *)
Theorem handleSend_falls_back_to_plaintext
    (isCryptoInitialized isConnected activeGroup : bool)
    (activeId : option string) (activeContact : option Contact)
    (user_id : option string) (messageText : jsstring) (w : World) :
  trim messageText <> [] ->
  truthy activeId = true -> isConnected = true -> activeGroup = false ->
  isCryptoInitialized = false
  \/ (exists recipient e,
        canEncrypt isCryptoInitialized activeContact = Some recipient
        /\ fst (CryptoContext.encryptMessage isCryptoInitialized
                  (trim messageText) recipient w) = Throw e) ->
  exists payload,
    fst (handleSend isCryptoInitialized isConnected activeGroup activeId
           activeContact user_id messageText w) = Ok (Some payload)
    /\ isEncrypted payload = false
    /\ text payload = trim messageText
    /\ conversationId payload = activeId.
Proof.
  intros Ht Ha Hc Hg H. unfold handleSend.
  destruct (trim messageText) as [|u r] eqn:Et; [congruence|].
  rewrite Ha, Hc, Hg. cbn [negb orb].
  exists (plain_payload activeId user_id (u :: r)).
  split; [|now repeat split].
  destruct H as [->|(recipient & e & Hcan & Hthrow)].
  - reflexivity.
  - rewrite Hcan. js_unfold.
    destruct (CryptoContext.encryptMessage _ _ _ w) as [[enc|e'] w'];
      [discriminate|reflexivity].
Qed.

End PageFacts.

(** ** The service: the envelope codec *)

Lemma flip_bit_length i bs : length (flip_bit i bs) = length bs.
Proof.
  revert i. induction bs as [|b r IH]; intros i; [reflexivity|].
  cbn [flip_bit]. destruct (i <? 8)%nat; cbn [length]; [reflexivity|].
  now rewrite IH.
Qed.

Lemma flip_bit_app_l i a b :
  (i < 8 * length a)%nat -> flip_bit i (a ++ b) = flip_bit i a ++ b.
Proof.
  revert i. induction a as [|x a IH]; intros i Hi; cbn [length] in Hi; [lia|].
  cbn [app flip_bit]. destruct (Nat.ltb_spec i 8); [reflexivity|].
  cbn [app]. f_equal. apply IH. lia.
Qed.

Lemma flip_bit_app_r j a b :
  flip_bit (8 * length a + j) (a ++ b) = a ++ flip_bit j b.
Proof.
  induction a as [|x a IH]; [reflexivity|].
  cbn [app length flip_bit].
  destruct (Nat.ltb_spec (8 * S (length a) + j) 8); [lia|].
  f_equal. rewrite <- IH. f_equal. lia.
Qed.

Lemma slices_recompose buf : slice_0_m16 buf ++ slice_m16 buf = buf.
Proof. apply firstn_skipn. Qed.

Lemma slice_m16_length buf :
  (16 <= length buf)%nat -> length (slice_m16 buf) = 16%nat.
Proof. intros H. unfold slice_m16. rewrite length_skipn. lia. Qed.

Lemma draw_length n e : length (fst (draw n e)) = n.
Proof. unfold draw. cbn [fst]. now rewrite length_map, length_seq. Qed.

Lemma field_bytes_base64 buffer :
  CryptoService.field_bytes (CryptoService.arrayBufferToBase64 buffer) = Some buffer.
Proof.
  unfold CryptoService.field_bytes, CryptoService.arrayBufferToBase64.
  rewrite atob_btoa. cbn [option_map].
  now rewrite list_byte_of_string_of_list_byte.
Qed.

Section CodecFacts.
Context {W : WebCrypto}.
Import CryptoService.

Lemma base64ToArrayBuffer_field field (w : World) :
  base64ToArrayBuffer field w
  = (match field_bytes field with
     | Some buffer => Ok buffer
     | None => Throw InvalidCharacterError
     end, w).
Proof.
  unfold base64ToArrayBuffer, field_bytes. js_unfold.
  destruct (atob field); reflexivity.
Qed.

Lemma encryptMessage_eq plaintext sharedKey (w : World) :
  encryptMessage plaintext sharedKey w
  = (match gcmEncrypt sharedKey (fst (draw 12 (entropy w)))
             (TextCodec.encode plaintext) with
     | Some c =>
         Ok {| ciphertext := arrayBufferToBase64 (slice_0_m16 c);
               iv := arrayBufferToBase64 (fst (draw 12 (entropy w)));
               authTag := arrayBufferToBase64 (slice_m16 c) |}
     | None => Throw OperationError
     end,
     set_entropy (snd (draw 12 (entropy w))) w).
Proof.
  unfold encryptMessage, getRandomValues. js_unfold.
  destruct (draw 12 (entropy w)) as [ivb e]. cbn [fst snd].
  destruct (gcmEncrypt sharedKey ivb _); reflexivity.
Qed.

(** [decryptMessage] hands the decoded fields to the primitive as they are. *)
Lemma decryptMessage_eq encryptedData sharedKey (w : World) c i t :
  field_bytes (ciphertext encryptedData) = Some c ->
  field_bytes (iv encryptedData) = Some i ->
  field_bytes (authTag encryptedData) = Some t ->
  decryptMessage encryptedData sharedKey w
  = (match gcmDecrypt sharedKey i (c ++ t) with
     | Some plaintextBuffer => Ok (TextCodec.decode plaintextBuffer)
     | None => Throw decrypt_failure
     end, w).
Proof.
  intros Hc Hi Ht. unfold decryptMessage, bind at 1 2 3, try_catch.
  rewrite !base64ToArrayBuffer_field, Hc, Hi, Ht. js_unfold.
  destruct (gcmDecrypt sharedKey i (c ++ t)); reflexivity.
Qed.

Lemma decryptMessage_undecodable encryptedData sharedKey (w : World) :
  field_bytes (ciphertext encryptedData) = None
  \/ field_bytes (iv encryptedData) = None
  \/ field_bytes (authTag encryptedData) = None ->
  decryptMessage encryptedData sharedKey w = (Throw decrypt_failure, w).
Proof.
  intros H. unfold decryptMessage, bind at 1 2 3, try_catch.
  rewrite !base64ToArrayBuffer_field. js_unfold.
  destruct (field_bytes (ciphertext encryptedData)); [|reflexivity].
  destruct (field_bytes (iv encryptedData)); [|reflexivity].
  destruct (field_bytes (authTag encryptedData)); [|reflexivity].
  destruct H as [H|[H|H]]; discriminate.
Qed.

(** Only the concatenation of the two fields reaches the primitive: where the
    bytes are cut between [ciphertext] and [authTag] makes no difference. *)
Lemma decryptMessage_cut encryptedData e' sharedKey (w : World) c t c' t' i :
  field_bytes (ciphertext encryptedData) = Some c ->
  field_bytes (authTag encryptedData) = Some t ->
  field_bytes (iv encryptedData) = Some i ->
  field_bytes (ciphertext e') = Some c' ->
  field_bytes (authTag e') = Some t' ->
  field_bytes (iv e') = Some i ->
  c ++ t = c' ++ t' ->
  decryptMessage e' sharedKey w = decryptMessage encryptedData sharedKey w.
Proof.
  intros Hc Ht Hi Hc' Ht' Hi' E.
  rewrite (decryptMessage_eq _ _ _ _ _ _ Hc Hi Ht).
  rewrite (decryptMessage_eq _ _ _ _ _ _ Hc' Hi' Ht'). now rewrite E.
Qed.

(** C4, as the code has it: [encryptMessage] returns an envelope whose [iv]
    carries the 12 random bytes drawn, whose [authTag] carries the last 16
    bytes of the primitive's output and whose [ciphertext] carries the bytes
    before them; [decryptMessage] checks no length: it gives the primitive the
    decoded [iv] and the bytes of [ciphertext] followed by those of [authTag],
    whatever their lengths, and reports the primitive's refusal, like a field
    that is not base64, as its single error. *)
Theorem envelope_lengths {L : AesGcmLaws W} plaintext sharedKey (w : World) :
  (exists e ivb c t,
     fst (encryptMessage plaintext sharedKey w) = Ok e
     /\ gcmEncrypt sharedKey ivb (TextCodec.encode plaintext) = Some (c ++ t)
     /\ field_bytes (iv e) = Some ivb /\ length ivb = 12%nat
     /\ field_bytes (authTag e) = Some t /\ length t = 16%nat
     /\ field_bytes (ciphertext e) = Some c)
  /\ (forall e c i t (w' : World),
        field_bytes (ciphertext e) = Some c ->
        field_bytes (iv e) = Some i ->
        field_bytes (authTag e) = Some t ->
        decryptMessage e sharedKey w'
        = (match gcmDecrypt sharedKey i (c ++ t) with
           | Some plaintextBuffer => Ok (TextCodec.decode plaintextBuffer)
           | None => Throw decrypt_failure
           end, w'))
  /\ (forall e (w' : World),
        field_bytes (ciphertext e) = None
        \/ field_bytes (iv e) = None
        \/ field_bytes (authTag e) = None ->
        decryptMessage e sharedKey w' = (Throw decrypt_failure, w')).
Proof.
  split; [|split].
  - rewrite encryptMessage_eq. cbn [fst].
    pose proof (draw_length 12 (entropy w)) as Hiv.
    destruct (gcmEncrypt_length sharedKey _ (TextCodec.encode plaintext) Hiv)
      as (buf & E & Hlen).
    rewrite E. eexists _, (fst (draw 12 (entropy w))), (slice_0_m16 buf), (slice_m16 buf).
    split; [reflexivity|]. cbn [iv authTag ciphertext].
    rewrite slices_recompose, !field_bytes_base64.
    repeat split; try assumption. apply slice_m16_length. lia.
  - intros. now apply decryptMessage_eq.
  - intros. now apply decryptMessage_undecodable.
Qed.

(** C2: in an envelope that [encryptMessage] produced under a key, flipping
    any one bit of the bytes that [ciphertext] carries, or of those that
    [authTag] carries, makes [decryptMessage] under that key throw its
    decryption error; it returns no plaintext at all. *)
Theorem tampering_is_detected {I : AesGcmIntegrity W} plaintext sharedKey
    (w w' w2 : World) e (i : nat) :
  encryptMessage plaintext sharedKey w = (Ok e, w') ->
  ((i < field_bits (ciphertext e))%nat ->
   decryptMessage (tamper_ciphertext i e) sharedKey w2 = (Throw decrypt_failure, w2))
  /\ ((i < field_bits (authTag e))%nat ->
      decryptMessage (tamper_authTag i e) sharedKey w2 = (Throw decrypt_failure, w2)).
Proof.
  rewrite encryptMessage_eq.
  destruct (draw 12 (entropy w)) as [ivb en]. cbn [fst snd].
  destruct (gcmEncrypt sharedKey _ _) as [buf|] eqn:E; [|discriminate].
  intros [= <- _].
  unfold field_bits, tamper_ciphertext, tamper_authTag, flip_field.
  cbn [ciphertext iv authTag]. rewrite !field_bytes_base64.
  pose proof (slices_recompose buf) as Hbuf.
  assert (length buf = (length (slice_0_m16 buf) + length (slice_m16 buf))%nat) as Hlen
    by (rewrite <- length_app; now rewrite Hbuf).
  split; intros Hi.
  - erewrite decryptMessage_eq; cbn [ciphertext iv authTag];
      try apply field_bytes_base64.
    rewrite <- flip_bit_app_l, Hbuf by assumption.
    now rewrite (gcm_bit_flip _ _ _ _ i E) by lia.
  - erewrite decryptMessage_eq; cbn [ciphertext iv authTag];
      try apply field_bytes_base64.
    rewrite <- flip_bit_app_r, Hbuf.
    now rewrite (gcm_bit_flip _ _ _ _ _ E) by lia.
Qed.

End CodecFacts.

(** The text of a field is not canonical: [atob] drops the unused low bits of
    the last character, so two texts can carry the same bytes. The properties
    of the envelope are stated on the bytes. *)
Example field_text_is_not_canonical :
  CryptoService.field_bytes "qccAAAAAAAAAAAAAAAAAAB=="
  = CryptoService.field_bytes (CryptoService.authTag Toy.hello).
Proof. vm_compute. reflexivity. Qed.

(** C4 as stated fails: an envelope whose [authTag] carries 17 bytes is not
    rejected; [decryptMessage] returns its plaintext. *)
Lemma long_tag_is_accepted :
  option_map (@length byte) (CryptoService.field_bytes (CryptoService.authTag Toy.hello_long_tag))
    = Some 17%nat
  /\ fst (CryptoService.decryptMessage (W := Toy.platform)
            Toy.hello_long_tag Toy.alice_bob_key Toy.blank)
     = Ok (js "hello").
Proof. split; vm_compute; reflexivity. Qed.

(** ** The executable platform satisfies the laws *)

Lemma lxor_lt_256 a b : a < 256 -> b < 256 -> N.lxor a b < 256.
Proof.
  intros Ha Hb. destruct (N.eq_dec (N.lxor a b) 0) as [E|E]; [rewrite E; lia|].
  change 256 with (2 ^ 8). apply N.log2_lt_pow2; [lia|].
  pose proof (N.log2_lxor a b) as Hl.
  assert (forall x, x < 256 -> N.log2 x < 8) as Hlog.
  { intros x Hx. destruct (N.eq_dec x 0) as [->|Hx0]; [reflexivity|].
    apply N.log2_lt_pow2; [lia|exact Hx]. }
  specialize (Hlog a Ha) as Hla. specialize (Hlog b Hb) as Hlb. lia.
Qed.

Lemma to_N_byte_xor a b :
  Byte.to_N (byte_xor a b) = N.lxor (Byte.to_N a) (Byte.to_N b).
Proof.
  unfold byte_xor. apply to_N_byte_of_N_small, lxor_lt_256; apply to_N_lt.
Qed.

Lemma byte_xor_cancel m a : byte_xor m (byte_xor m a) = a.
Proof.
  apply to_N_inj. rewrite !to_N_byte_xor, <- N.lxor_assoc, N.lxor_nilpotent.
  apply N.lxor_0_l.
Qed.

Lemma byte_xor_assoc a b c : byte_xor (byte_xor a b) c = byte_xor a (byte_xor b c).
Proof. apply to_N_inj. rewrite !to_N_byte_xor. apply N.lxor_assoc. Qed.

Lemma byte_xor_comm a b : byte_xor a b = byte_xor b a.
Proof. apply to_N_inj. rewrite !to_N_byte_xor. apply N.lxor_comm. Qed.

Lemma byte_xor_bit_neq b (j : nat) :
  (j < 8)%nat -> byte_xor b (byte_of_N (2 ^ N.of_nat j)) <> b.
Proof.
  intros Hj E. apply (f_equal Byte.to_N) in E.
  rewrite to_N_byte_xor in E.
  assert (2 ^ N.of_nat j < 256) as Hp.
  { change 256 with (2 ^ 8). apply N.pow_lt_mono_r; lia. }
  rewrite to_N_byte_of_N_small in E by exact Hp.
  apply (f_equal (N.lxor (Byte.to_N b))) in E.
  rewrite <- N.lxor_assoc, N.lxor_nilpotent, N.lxor_0_l in E.
  apply N.pow_nonzero in E; [exact E|lia].
Qed.

Lemma pow_mod_idemp x n e : n <> 0 -> (x mod n) ^ e mod n = x ^ e mod n.
Proof.
  intros Hn. induction e as [|e IH] using N.peano_ind; [reflexivity|].
  rewrite !N.pow_succ_r'.
  rewrite N.Div0.mul_mod, IH, N.Div0.mod_mod, <- N.Div0.mul_mod. reflexivity.
Qed.

Module ToyFacts.
Import Toy.

Lemma bytes_eqb_refl a : bytes_eqb a a = true.
Proof.
  induction a as [|x a IH]; [reflexivity|]. cbn [bytes_eqb].
  now rewrite (Byte.byte_dec_lb eq_refl), IH.
Qed.

Lemma bytes_eqb_eq a b : bytes_eqb a b = true -> a = b.
Proof.
  revert b. induction a as [|x a IH]; intros [|y b] H; try discriminate; [reflexivity|].
  cbn [bytes_eqb] in H. apply andb_true_iff in H as [Hx Hr].
  apply Byte.byte_dec_bl in Hx. f_equal; auto.
Qed.

Lemma public_of_value d :
  Byte.to_N (public_of d) = generator ^ Byte.to_N d mod modulus.
Proof.
  unfold public_of. apply to_N_byte_of_N_small.
  pose proof (N.mod_upper_bound (generator ^ Byte.to_N d) modulus). unfold modulus in *. lia.
Qed.

Lemma derive_agree a b : derive (public_of b) a = derive (public_of a) b.
Proof.
  unfold derive. do 2 f_equal. rewrite !public_of_value.
  rewrite !pow_mod_idemp by discriminate.
  rewrite <- !N.pow_mul_r. now rewrite N.mul_comm.
Qed.

Lemma map_mask_cancel m p : map (byte_xor m) (map (byte_xor m) p) = p.
Proof.
  induction p as [|x p IH]; [reflexivity|]. cbn [map].
  now rewrite byte_xor_cancel, IH.
Qed.

Lemma tag_length key iv c : length (tag key iv c) = 16%nat.
Proof. reflexivity. Qed.

Lemma slices_of_output c t :
  length t = 16%nat ->
  slice_0_m16 (c ++ t) = c /\ slice_m16 (c ++ t) = t.
Proof.
  intros Ht. unfold slice_0_m16, slice_m16. rewrite length_app, Ht.
  replace (length c + 16 - 16)%nat with (length c + 0)%nat by lia.
  rewrite firstn_app_2, skipn_app, Nat.add_0_r.
  rewrite skipn_all, Nat.sub_diag. cbn [firstn skipn app].
  split; [apply app_nil_r|reflexivity].
Qed.

Lemma decrypt_output key iv c t :
  length t = 16%nat ->
  decrypt key iv (c ++ t)
  = if bytes_eqb t (tag key iv c) then Some (map (byte_xor (mask key iv)) c) else None.
Proof.
  intros Ht. unfold decrypt. destruct (slices_of_output c t Ht) as [-> ->].
  rewrite length_app, Ht.
  destruct (Nat.ltb_spec (length c + 16) 16); [lia|reflexivity].
Qed.

Lemma xor_all_flip i c :
  (i < 8 * length c)%nat ->
  exists j, (j < 8)%nat
    /\ xor_all (flip_bit i c) = byte_xor (xor_all c) (byte_of_N (2 ^ N.of_nat j)).
Proof.
  revert i. induction c as [|x c IH]; intros i Hi; cbn [length] in Hi; [lia|].
  cbn [flip_bit]. destruct (Nat.ltb_spec i 8).
  - exists i. split; [assumption|]. unfold xor_all. cbn [fold_right].
    rewrite !byte_xor_assoc. f_equal. apply byte_xor_comm.
  - destruct (IH (i - 8)%nat ltac:(lia)) as (j & Hj & E). exists j.
    split; [assumption|]. unfold xor_all in *. cbn [fold_right].
    rewrite E. now rewrite byte_xor_assoc.
Qed.

Lemma flip_bit_neq i t : (i < 8 * length t)%nat -> flip_bit i t <> t.
Proof.
  revert i. induction t as [|x t IH]; intros i Hi; cbn [length] in Hi; [lia|].
  cbn [flip_bit]. destruct (Nat.ltb_spec i 8).
  - intros [= E]. now apply byte_xor_bit_neq in E.
  - intros [= E]. apply (IH (i - 8)%nat); [lia|assumption].
Qed.

Lemma ecdh_laws : EcdhLaws platform.
Proof.
  constructor; cbn.
  - reflexivity.
  - reflexivity.
  - discriminate.
  - apply derive_agree.
  - reflexivity.
  - intros bs H. unfold import_aes. rewrite H. cbn. eauto.
Qed.

Lemma aes_gcm_laws : AesGcmLaws platform.
Proof.
  constructor; cbn.
  - intros k iv p Hiv. destruct iv as [|b iv]; [discriminate|].
    eexists. split; [reflexivity|].
    now rewrite length_app, length_map, tag_length.
  - intros k iv p c. unfold encrypt. destruct iv as [|b iv]; [discriminate|].
    intros [= <-]. rewrite decrypt_output by apply tag_length.
    now rewrite bytes_eqb_refl, map_mask_cancel.
Qed.

Lemma aes_gcm_integrity : AesGcmIntegrity platform.
Proof.
  constructor; cbn. intros k iv p c i. unfold encrypt.
  destruct iv as [|b iv]; [discriminate|]. intros [= <-].
  set (c := map (byte_xor (mask k (b :: iv))) p).
  rewrite length_app, tag_length. intros Hi.
  destruct (Nat.lt_ge_cases i (8 * length c)) as [Hc|Hc].
  - rewrite flip_bit_app_l by assumption.
    rewrite decrypt_output by apply tag_length.
    destruct (bytes_eqb _ _) eqn:E; [|reflexivity].
    apply bytes_eqb_eq in E. injection E as E.
    destruct (xor_all_flip i c Hc) as (j & Hj & Ex). rewrite Ex in E.
    symmetry in E. now apply byte_xor_bit_neq in E.
  - replace i with (8 * length c + (i - 8 * length c))%nat by lia.
    rewrite flip_bit_app_r.
    rewrite decrypt_output by (rewrite flip_bit_length; apply tag_length).
    destruct (bytes_eqb _ _) eqn:E; [|reflexivity].
    apply bytes_eqb_eq in E. apply flip_bit_neq in E; [contradiction|].
    rewrite tag_length. lia.
Qed.

End ToyFacts.

(** ** The service: shared keys *)

Section SharedKeyFacts.
Context {W : WebCrypto}.
Import CryptoService.

Lemma exportPublicKey_eq (w : World) d P :
  keyPair w = Some {| privateKey := d; publicKey := Some P |} ->
  exportPublicKey w = (Ok (arrayBufferToBase64 (exportRaw P)), w).
Proof. intros H. unfold exportPublicKey. js_unfold. now rewrite H. Qed.

Lemma deriveSharedKey_hit pk userId (w : World) kp k :
  keyPair w = Some kp -> sharedKeys w !! userId = Some k ->
  deriveSharedKey pk userId w = (Ok k, w).
Proof. intros Hk Hc. unfold deriveSharedKey. js_unfold. now rewrite Hk, Hc. Qed.

Lemma deriveSharedKey_miss pk userId (w : World) kp keyData P k :
  keyPair w = Some kp -> sharedKeys w !! userId = None ->
  field_bytes pk = Some keyData -> importRaw keyData = Some P ->
  importAes (deriveBits P (privateKey kp)) = Some k ->
  deriveSharedKey pk userId w
  = (Ok k, set_sharedKeys (<[userId := k]> (sharedKeys w)) w).
Proof.
  intros Hk Hc Hf Hi Ha. unfold deriveSharedKey, importPublicKey.
  unfold bind at 1, get. rewrite Hk, Hc.
  unfold try_catch, bind at 1 2. rewrite base64ToArrayBuffer_field, Hf.
  js_unfold. rewrite Hi. js_unfold. cbn beta iota. now rewrite Ha.
Qed.

(** [deriveSharedKey] case by case. *)
Lemma deriveSharedKey_eq pk userId (w : World) :
  deriveSharedKey pk userId w
  = match keyPair w with
    | None => (Throw (Error "Crypto not initialized"), w)
    | Some kp =>
        match sharedKeys w !! userId with
        | Some cached => (Ok cached, w)
        | None =>
            match field_bytes pk with
            | None => (Throw InvalidCharacterError, w)
            | Some keyData =>
                match importRaw keyData with
                | None => (Throw DataError, w)
                | Some P =>
                    match importAes (deriveBits P (privateKey kp)) with
                    | None => (Throw DataError, w)
                    | Some k =>
                        (Ok k, set_sharedKeys (<[userId := k]> (sharedKeys w)) w)
                    end
                end
            end
        end
    end.
Proof.
  destruct (keyPair w) as [kp|] eqn:Hk.
  2:{ unfold deriveSharedKey. js_unfold. now rewrite Hk. }
  destruct (sharedKeys w !! userId) as [cached|] eqn:Hc.
  { now apply (deriveSharedKey_hit _ _ _ kp). }
  destruct (field_bytes pk) as [keyData|] eqn:Hf.
  2:{ unfold deriveSharedKey, importPublicKey. unfold bind at 1, get.
      rewrite Hk, Hc. unfold try_catch, bind at 1 2.
      rewrite base64ToArrayBuffer_field, Hf. reflexivity. }
  destruct (importRaw keyData) as [P|] eqn:Hi.
  2:{ unfold deriveSharedKey, importPublicKey. unfold bind at 1, get.
      rewrite Hk, Hc. unfold try_catch, bind at 1 2.
      rewrite base64ToArrayBuffer_field, Hf. js_unfold. now rewrite Hi. }
  destruct (importAes (deriveBits P (privateKey kp))) as [k|] eqn:Ha.
  { now apply (deriveSharedKey_miss _ _ _ kp keyData P). }
  unfold deriveSharedKey, importPublicKey. unfold bind at 1, get.
  rewrite Hk, Hc. unfold try_catch, bind at 1 2.
  rewrite base64ToArrayBuffer_field, Hf.
  js_unfold. rewrite Hi. js_unfold. cbn beta iota. now rewrite Ha.
Qed.

Lemma provider_encryptMessage_eq plaintext recipientId (w : World) :
  CryptoContext.encryptMessage true plaintext recipientId w
  = match directory w recipientId with
    | Ok recipientPublicKey =>
        match deriveSharedKey recipientPublicKey recipientId w with
        | (Ok sharedKey, w') => encryptMessage plaintext sharedKey w'
        | (Throw e, w') => (Throw e, w')
        end
    | Throw _ => (Throw (Error "User has not set up encryption yet"), w)
    end.
Proof.
  unfold CryptoContext.encryptMessage, CryptoContext.getUserPublicKey,
    CryptoContext.axios_get_public_key, encryptForUser.
  cbn [negb]. js_unfold.
  destruct (directory w recipientId) as [pk|err]; [|reflexivity].
  destruct (deriveSharedKey pk recipientId w) as [[k|e] w']; [|reflexivity].
  now destruct (encryptMessage plaintext k w') as [[env|e] w''].
Qed.

Lemma deriveSharedKey_sound {E : EcdhLaws W} userId (w : World) kp P :
  keyPair w = Some kp -> cache_sound w userId (privateKey kp) P ->
  exists k,
    importAes (deriveBits P (privateKey kp)) = Some k
    /\ fst (deriveSharedKey (arrayBufferToBase64 (exportRaw P)) userId w) = Ok k.
Proof.
  intros Hk Hs.
  destruct (importAes_256 (deriveBits P (privateKey kp)) (deriveBits_length _ _))
    as [k Hi].
  exists k. split; [assumption|].
  destruct (sharedKeys w !! userId) as [k'|] eqn:Hc.
  - erewrite deriveSharedKey_hit by eassumption. cbn [fst].
    specialize (Hs k' Hc). congruence.
  - erewrite deriveSharedKey_miss; try eassumption; [reflexivity| |].
    + apply field_bytes_base64.
    + apply importRaw_exportRaw.
Qed.

(** Under one key, [decryptMessage] inverts [encryptMessage] on well-formed
    text without a leading byte order mark. *)
Lemma decrypt_encrypt {G : AesGcmLaws W} plaintext k (w w2 : World) :
  TextCodec.well_formed plaintext = true ->
  TextCodec.starts_with_bom plaintext = false ->
  exists e,
    fst (encryptMessage plaintext k w) = Ok e
    /\ decryptMessage e k w2 = (Ok plaintext, w2).
Proof.
  intros Hwf Hb. rewrite encryptMessage_eq. cbn [fst].
  destruct (gcmEncrypt_length k _ (TextCodec.encode plaintext)
              (draw_length 12 (entropy w))) as (buf & E & _).
  rewrite E. eexists. split; [reflexivity|].
  erewrite decryptMessage_eq; cbn [ciphertext iv authTag];
    try apply field_bytes_base64.
  rewrite slices_recompose, (gcmDecrypt_gcmEncrypt _ _ _ _ E).
  now rewrite TextCodecFacts.text_decode_encode.
Qed.

(** With a leading U+FEFF the text comes back without it, on any platform. *)
Lemma decrypt_encrypt_bom {G : AesGcmLaws W} plaintext k (w w2 : World) :
  TextCodec.well_formed plaintext = true ->
  exists e,
    fst (encryptMessage (0xFEFF :: plaintext) k w) = Ok e
    /\ decryptMessage e k w2 = (Ok plaintext, w2).
Proof.
  intros Hwf. rewrite encryptMessage_eq. cbn [fst].
  destruct (gcmEncrypt_length k _ (TextCodec.encode (0xFEFF :: plaintext))
              (draw_length 12 (entropy w))) as (buf & E & _).
  rewrite E. eexists. split; [reflexivity|].
  erewrite decryptMessage_eq; cbn [ciphertext iv authTag];
    try apply field_bytes_base64.
  rewrite slices_recompose, (gcmDecrypt_gcmEncrypt _ _ _ _ E).
  now rewrite TextCodecFacts.decode_encode_bom.
Qed.

(** C1, as the code has it: for well-formed text that does not begin with
    U+FEFF, and two key pairs with both halves present, the key that
    [deriveSharedKey] gives Alice for Bob's exported public key and the key it
    gives Bob for Alice's are the same key, and what Alice encrypts under it
    Bob decrypts to the same text; on either side the cache entry under the
    other's id, if there is one, was derived from these two key pairs. *)
Theorem round_trip {E : EcdhLaws W} {G : AesGcmLaws W}
    (a b : EcPrivate) (wA wB : World) (idA idB : string) (plaintext : jsstring) :
  keyPair wA = Some {| privateKey := a; publicKey := Some (publicOf a) |} ->
  keyPair wB = Some {| privateKey := b; publicKey := Some (publicOf b) |} ->
  cache_sound wA idB a (publicOf b) ->
  cache_sound wB idA b (publicOf a) ->
  TextCodec.well_formed plaintext = true ->
  TextCodec.starts_with_bom plaintext = false ->
  exists pubA pubB k e,
    fst (exportPublicKey wA) = Ok pubA
    /\ fst (exportPublicKey wB) = Ok pubB
    /\ fst (deriveSharedKey pubB idB wA) = Ok k
    /\ fst (deriveSharedKey pubA idA wB) = Ok k
    /\ fst (encryptMessage plaintext k (snd (deriveSharedKey pubB idB wA))) = Ok e
    /\ fst (decryptMessage e k (snd (deriveSharedKey pubA idA wB))) = Ok plaintext.
Proof.
  intros HA HB HcA HcB Hwf Hbom.
  rewrite (exportPublicKey_eq wA _ _ HA), (exportPublicKey_eq wB _ _ HB).
  destruct (deriveSharedKey_sound idB wA _ (publicOf b) HA HcA) as (k & Hk & HdA).
  destruct (deriveSharedKey_sound idA wB _ (publicOf a) HB HcB) as (k' & Hk' & HdB).
  cbn [privateKey] in Hk, Hk'. rewrite deriveBits_agree in Hk'.
  assert (k' = k) as -> by congruence.
  destruct (decrypt_encrypt plaintext k
              (snd (deriveSharedKey (arrayBufferToBase64 (exportRaw (publicOf b))) idB wA))
              (snd (deriveSharedKey (arrayBufferToBase64 (exportRaw (publicOf a))) idA wB))
              Hwf Hbom) as (e & He & Hd).
  exists (arrayBufferToBase64 (exportRaw (publicOf a))),
         (arrayBufferToBase64 (exportRaw (publicOf b))), k, e.
  rewrite Hd. cbn [fst]. repeat split; try reflexivity; assumption.
Qed.

Lemma base64_nonempty buffer :
  buffer <> [] -> arrayBufferToBase64 buffer <> ""%string.
Proof.
  intros Hne E. pose proof (field_bytes_base64 buffer) as Hf.
  rewrite E in Hf. now injection Hf as <-.
Qed.

(** Logging out and reloading the stored private key: the same private key,
    no public key, an empty cache. *)
Lemma clear_and_reload {E : EcdhLaws W} ownerId (w : World) d :
  access_denied (localStorage w) = false ->
  items (localStorage w) !! storage_key ownerId
    = Some (arrayBufferToBase64 (exportPkcs8 d)) ->
  loadPrivateKey ownerId (snd (clearKeys w))
  = (Ok true,
     set_keyPair (Some {| privateKey := d; publicKey := None |})
       (set_keyPair None (set_sharedKeys ∅ w))).
Proof.
  intros Ha Hi. rewrite clearKeys_world. cbn [snd].
  unfold loadPrivateKey, localStorage_getItem, bind at 1, try_catch.
  cbn [localStorage set_keyPair set_sharedKeys]. rewrite Ha, Hi.
  pose proof (base64_nonempty _ (exportPkcs8_nonempty d)) as Hne.
  destruct (arrayBufferToBase64 (exportPkcs8 d)) as [|c s] eqn:Eb; [congruence|].
  rewrite <- Eb. unfold bind at 1.
  rewrite base64ToArrayBuffer_field, field_bytes_base64.
  js_unfold. now rewrite importPkcs8_exportPkcs8.
Qed.

(** C7, as the code has it: two calls of [deriveSharedKey] for the same
    private key, peer public key and user id return the same key whenever the
    cache entry they find under that id, if any, was derived from that pair;
    the call made after [clearKeys] and a reload of the stored private key is
    such a call. Text encrypted under the key is decrypted under it. *)
Theorem derivation_is_deterministic {E : EcdhLaws W} {G : AesGcmLaws W}
    (w1 w2 : World) kp1 kp2 (P : EcPublic) (userId : string) (plaintext : jsstring) :
  keyPair w1 = Some kp1 -> keyPair w2 = Some kp2 ->
  privateKey kp1 = privateKey kp2 ->
  cache_sound w1 userId (privateKey kp1) P ->
  cache_sound w2 userId (privateKey kp2) P ->
  TextCodec.well_formed plaintext = true ->
  TextCodec.starts_with_bom plaintext = false ->
  exists k,
    fst (deriveSharedKey (arrayBufferToBase64 (exportRaw P)) userId w1) = Ok k
    /\ fst (deriveSharedKey (arrayBufferToBase64 (exportRaw P)) userId w2) = Ok k
    /\ (forall w3 w4 : World, exists e,
          fst (encryptMessage plaintext k w3) = Ok e
          /\ fst (decryptMessage e k w4) = Ok plaintext)
    /\ (forall ownerId,
          access_denied (localStorage w1) = false ->
          items (localStorage w1) !! storage_key ownerId
            = Some (arrayBufferToBase64 (exportPkcs8 (privateKey kp1))) ->
          fst (deriveSharedKey (arrayBufferToBase64 (exportRaw P)) userId
                 (snd (loadPrivateKey ownerId (snd (clearKeys w1))))) = Ok k).
Proof.
  intros H1 H2 Hd Hs1 Hs2 Hwf Hbom.
  destruct (deriveSharedKey_sound userId w1 kp1 P H1 Hs1) as (k & Hk & Hd1).
  destruct (deriveSharedKey_sound userId w2 kp2 P H2 Hs2) as (k' & Hk' & Hd2).
  rewrite <- Hd in Hk'. assert (k' = k) as -> by congruence.
  exists k. split; [assumption|]. split; [assumption|]. split.
  - intros w3 w4. destruct (decrypt_encrypt plaintext k w3 w4 Hwf Hbom) as (e & He & Hdec).
    exists e. now rewrite Hdec.
  - intros ownerId Ha Hi. rewrite (clear_and_reload ownerId w1 _ Ha Hi). cbn [snd].
    edestruct (deriveSharedKey_sound userId
                 (set_keyPair (Some {| privateKey := privateKey kp1; publicKey := None |})
                    (set_keyPair None (set_sharedKeys ∅ w1)))
                 _ P eq_refl) as (k'' & Hk'' & Hd3).
    { intros k0. cbn [sharedKeys set_keyPair set_sharedKeys].
      rewrite lookup_empty. discriminate. }
    cbn [privateKey] in Hk''. congruence.
Qed.

End SharedKeyFacts.

(** C1 as stated fails: a leading U+FEFF does not survive the round trip, an
    unpaired surrogate comes back as U+FFFD, and when [deriveSharedKey] answers
    Alice from a cache entry that was made for another public key, Bob cannot
    decrypt at all. *)
Lemma round_trip_can_fail :
  Toy.send_and_receive (0xFEFF :: js "hi") = Ok (js "hi")
  /\ Toy.send_and_receive (0xD83D :: js "h") = Ok (0xFFFD :: js "h")
  /\ Toy.send_with_cached_key (js "hello") = Throw CryptoService.decrypt_failure.
Proof. repeat split; vm_compute; reflexivity. Qed.

Example send_and_receive_hello : Toy.send_and_receive (js "hello") = Ok (js "hello").
Proof. vm_compute. reflexivity. Qed.

(** C7 as stated fails: both calls are for Alice's private key and Carol's
    public key, made under the id "bob"; the first finds the key cached for
    Bob's earlier public key, the second derives afresh; the keys differ and
    what is encrypted under the first does not decrypt under the second. *)
Lemma stale_cache_breaks_determinism :
  option_map privateKey (keyPair Toy.stale)
    = option_map privateKey (keyPair Toy.reloaded)
  /\ (exists k1 k2,
        fst Toy.first_call = Ok k1 /\ fst Toy.second_call = Ok k2 /\ k1 <> k2)
  /\ Toy.crossed (js "hello") = Throw CryptoService.decrypt_failure.
Proof.
  split; [vm_compute; reflexivity|]. split; [|vm_compute; reflexivity].
  eexists _, _. split; [vm_compute; reflexivity|].
  split; [vm_compute; reflexivity|]. discriminate.
Qed.

(** ** Concurrent calls *)

Section ConcurrentFacts.
Context {W : WebCrypto}.
Variable plaintext : jsstring.
Variable recipientId : string.
Import Concurrent.

Abbreviation step := (Concurrent.step plaintext recipientId).
Abbreviation resume := (Concurrent.resume plaintext recipientId).
Abbreviation run := (Concurrent.run plaintext recipientId).

Lemma sum_insert (f : Task -> nat) (l : list Task) i t t' :
  l !! i = Some t ->
  (sum_list_with f (<[i := t']> l) + f t = sum_list_with f l + f t')%nat.
Proof.
  revert i. induction l as [|x l IH]; intros [|i] H; try discriminate.
  - cbn in H. injection H as ->. cbn. lia.
  - specialize (IH i H). simpl. lia.
Qed.

(** A step issues a directory request exactly when it leaves [Called]. *)
Lemma step_fetched t (w : World) t' w' f d :
  step t w = (t', w', f, d) -> (fetched t + f = fetched t')%nat.
Proof.
  destruct t; cbn [Concurrent.step]; unfold start_encrypt;
    repeat match goal with
    | |- context [match ?x with _ => _ end] => destruct x
    end; intros [= <- <- <- <-]; reflexivity.
Qed.

(** A step issues at most one derivation, and only a task still undecided
    does. *)
Lemma step_undecided t (w : World) t' w' f d :
  step t w = (t', w', f, d) -> (d + undecided t' <= undecided t)%nat.
Proof.
  destruct t; cbn [Concurrent.step]; unfold start_encrypt;
    repeat match goal with
    | |- context [match ?x with _ => _ end] => destruct x
    end; intros [= <- <- <- <-]; cbn; lia.
Qed.

Lemma resume_length c i : length (tasks (resume c i)) = length (tasks c).
Proof.
  unfold Concurrent.resume. destruct (tasks c !! i) as [t|]; [|reflexivity].
  destruct (step t (world c)) as [[[t' w'] f] d]. cbn [tasks].
  apply length_insert.
Qed.

Lemma resume_fetches c i :
  fetches c = sum_list_with fetched (tasks c) ->
  fetches (resume c i) = sum_list_with fetched (tasks (resume c i)).
Proof.
  intros H. unfold Concurrent.resume. destruct (tasks c !! i) as [t|] eqn:Et; [|assumption].
  destruct (step t (world c)) as [[[t' w'] f] d] eqn:Es. cbn [tasks fetches].
  pose proof (step_fetched _ _ _ _ _ _ Es).
  pose proof (sum_insert fetched _ _ _ t' Et). lia.
Qed.

Lemma resume_derivations c i K :
  (derivations c + sum_list_with undecided (tasks c) <= K)%nat ->
  (derivations (resume c i) + sum_list_with undecided (tasks (resume c i)) <= K)%nat.
Proof.
  intros H. unfold Concurrent.resume. destruct (tasks c !! i) as [t|] eqn:Et; [|assumption].
  destruct (step t (world c)) as [[[t' w'] f] d] eqn:Es. cbn [tasks derivations].
  pose proof (step_undecided _ _ _ _ _ _ Es).
  pose proof (sum_insert undecided _ _ _ t' Et). lia.
Qed.

Lemma resume_cold c i :
  cold recipientId c -> cold recipientId (resume c i).
Proof.
  intros [H|[Hc Hf]]; unfold Concurrent.resume;
    destruct (tasks c !! i) as [t|] eqn:Et; try (now left); try (now right);
    destruct (step t (world c)) as [[[t' w'] f] d] eqn:Es.
  - left. cbn [derivations]. lia.
  - assert (holds_key t = false) as Ht.
    { rewrite Forall_forall in Hf. apply Hf. eapply list_elem_of_lookup_2. eassumption. }
    destruct t; try discriminate; cbn [Concurrent.step] in Es.
    + injection Es as <- <- <- <-. right. cbn [world tasks]. split; [assumption|].
      apply Forall_insert; auto.
    + rewrite Hc in Es.
      destruct (directory (world c) recipientId); [destruct (keyPair (world c));
        [destruct (atob value)|]|];
        injection Es as <- <- <- <-; right; cbn [world tasks];
        (split; [assumption|apply Forall_insert; auto]).
    + destruct (importRaw keyData); [destruct (keyPair (world c))|];
        injection Es as <- <- <- <-;
        first [ left; cbn; lia
              | right; cbn [world tasks];
                (split; [assumption|apply Forall_insert; auto]) ].
    + injection Es as <- <- <- <-. right. cbn [world tasks]. split; [assumption|].
      apply Forall_insert; auto.
Qed.

Lemma run_counts schedule c K :
  fetches c = sum_list_with fetched (tasks c) ->
  (derivations c + sum_list_with undecided (tasks c) <= K)%nat ->
  length (tasks (run schedule c)) = length (tasks c)
  /\ fetches (run schedule c) = sum_list_with fetched (tasks (run schedule c))
  /\ (derivations (run schedule c)
      + sum_list_with undecided (tasks (run schedule c)) <= K)%nat.
Proof.
  revert c. induction schedule as [|i schedule IH]; intros c Hf Hd; [auto|].
  cbn [Concurrent.run fold_left].
  destruct (IH (resume c i)) as (Hl & Hf' & Hd').
  - now apply resume_fetches.
  - now apply resume_derivations.
  - unfold Concurrent.run in *. rewrite Hl, resume_length. auto.
Qed.

Lemma run_cold schedule c :
  cold recipientId c -> cold recipientId (run schedule c).
Proof.
  revert c. induction schedule as [|i schedule IH]; intros c Hc; [assumption|].
  cbn [Concurrent.run fold_left]. apply IH, resume_cold, Hc.
Qed.

Lemma sum_replicate (f : Task -> nat) K t :
  sum_list_with f (replicate K t) = (K * f t)%nat.
Proof. induction K as [|K IH]; cbn; [reflexivity|]. rewrite IH. lia. Qed.

Lemma all_returned_fetched l :
  forallb is_returned l = true -> sum_list_with fetched l = length l.
Proof.
  induction l as [|t l IH]; [reflexivity|]. cbn [forallb].
  intros [Ht Hl]%andb_true_iff. cbn. rewrite (IH Hl).
  destruct t; try discriminate. reflexivity.
Qed.

Lemma step_remaining t (w : World) t' w' f d :
  step t w = (t', w', f, d) -> (remaining t' <= pred (remaining t))%nat.
Proof.
  destruct t; cbn [Concurrent.step]; unfold start_encrypt;
    repeat match goal with
    | |- context [match ?x with _ => _ end] => destruct x
    end; intros [= <- <- <- <-]; cbn; lia.
Qed.

Lemma resume_middle c l1 t l2 :
  tasks c = l1 ++ t :: l2 ->
  exists t', tasks (resume c (length l1)) = l1 ++ t' :: l2
             /\ (remaining t' <= pred (remaining t))%nat.
Proof.
  intros H. unfold Concurrent.resume. rewrite H.
  rewrite list_lookup_middle by reflexivity.
  destruct (step t (world c)) as [[[t' w'] f] d] eqn:Es. cbn [tasks].
  exists t'. split; [|now apply step_remaining in Es].
  rewrite <- (Nat.add_0_r (length l1)), insert_app_r. reflexivity.
Qed.

(** One round brings every task at least one step nearer to its return. *)
Lemma round_progress n l2 : forall l1 c,
  tasks c = l1 ++ l2 ->
  Forall (fun t => (remaining t <= n)%nat) l1 ->
  Forall (fun t => (remaining t <= S n)%nat) l2 ->
  Forall (fun t => (remaining t <= n)%nat)
    (tasks (run (seq (length l1) (length l2)) c)).
Proof.
  induction l2 as [|t l2 IH]; intros l1 c Ht H1 H2.
  - cbn. rewrite Ht, app_nil_r. assumption.
  - cbn [length seq Concurrent.run fold_left].
    destruct (resume_middle c l1 t l2 Ht) as (t' & Ht' & Hle).
    apply Forall_cons in H2 as [Hrt H2].
    specialize (IH (l1 ++ [t']) (resume c (length l1))).
    rewrite length_app, Nat.add_1_r in IH. apply IH.
    + now rewrite <- app_assoc.
    + apply Forall_app. split; [assumption|]. constructor; [lia|constructor].
    + assumption.
Qed.

Lemma run_length schedule c : length (tasks (run schedule c)) = length (tasks c).
Proof.
  revert c. induction schedule as [|i schedule IH]; intros c; [reflexivity|].
  cbn [Concurrent.run fold_left]. unfold Concurrent.run in IH.
  now rewrite IH, resume_length.
Qed.

Lemma rounds_progress n : forall c m,
  Forall (fun t => (remaining t <= m + n)%nat) (tasks c) ->
  Forall (fun t => (remaining t <= m)%nat)
    (tasks (run (rounds n (length (tasks c))) c)).
Proof.
  induction n as [|n IH]; intros c m H.
  - cbn. now rewrite Nat.add_0_r in H.
  - unfold rounds, Concurrent.run. cbn [replicate concat]. rewrite fold_left_app.
    pose proof (round_progress (m + n) (tasks c) [] c eq_refl (List.Forall_nil _)) as Hr.
    cbn [length] in Hr. rewrite Nat.add_succ_r in H. specialize (Hr H).
    specialize (IH (run (seq 0 (length (tasks c))) c) m Hr).
    rewrite run_length in IH. exact IH.
Qed.

(** Resumed in turn six times over, all calls return. *)
Lemma every_call_returns (K : nat) (w : World) :
  all_returned (run (rounds 6 K) (fire K w)) = true.
Proof.
  pose proof (rounds_progress 6 (fire K w) 0) as H.
  cbn [fire tasks] in H. rewrite length_replicate in H.
  unfold all_returned. apply forallb_forall. intros t Hin.
  assert (Forall (fun t => (remaining t <= 0 + 6)%nat) (replicate K (@Called W))) as H6.
  { apply Forall_replicate. cbn. lia. }
  specialize (H H6). rewrite Forall_forall in H.
  apply list_elem_of_In in Hin. specialize (H t Hin).
  destruct t; cbn in H; try lia. reflexivity.
Qed.

(** C6, as the code has it: when [K] calls made together for one recipient
    have all returned, whatever the order in which they were resumed, each
    has made its own directory request, so there were exactly [K]; the ECDH
    derivations number at most [K], one for each call that found the cache
    empty when it looked; and at least one if the cache had no entry for the
    recipient at the start and some call returned an envelope. *)
Theorem calls_do_not_coalesce (K : nat) (schedule : list nat) (w : World) :
  all_returned (run schedule (fire K w)) = true ->
  fetches (run schedule (fire K w)) = K
  /\ (derivations (run schedule (fire K w)) <= K)%nat
  /\ (sharedKeys w !! recipientId = None ->
      Exists (fun t => succeeded t = true) (tasks (run schedule (fire K w))) ->
      (1 <= derivations (run schedule (fire K w)))%nat).
Proof.
  intros Hall.
  destruct (run_counts schedule (fire K w) K) as (Hl & Hf & Hd).
  { cbn [fire fetches tasks]. now rewrite sum_replicate. }
  { cbn [fire derivations tasks]. rewrite sum_replicate. cbn. lia. }
  cbn [fire tasks] in Hl. rewrite length_replicate in Hl.
  split; [|split].
  - rewrite Hf, all_returned_fetched by exact Hall. exact Hl.
  - lia.
  - intros Hn Hex.
    destruct (run_cold schedule (fire K w)) as [H|[_ H]]; [|assumption|].
    + right. cbn [fire world tasks]. split; [assumption|].
      apply Forall_replicate. reflexivity.
    + exfalso. apply Exists_exists in Hex as (t & Hin & Hs).
      rewrite Forall_forall in H. specialize (H t Hin).
      destruct t as [| | | | | |[e|e]]; discriminate.
Qed.

Lemma resume_alone t (w : World) f d t' w' f' d' :
  step t w = (t', w', f', d') ->
  resume {| world := w; tasks := [t]; fetches := f; derivations := d |} 0
  = {| world := w'; tasks := [t']; fetches := f + f'; derivations := d + d' |}.
Proof.
  intros H. unfold Concurrent.resume. cbn [tasks].
  change ([t] !! 0%nat) with (Some t). cbn [world fetches derivations].
  now rewrite H.
Qed.

(** A call resumed six times with nothing in between is the provider's
    [encryptMessage] run to completion. *)
Lemma alone_is_sequential (w : World) :
  tasks (run [0; 0; 0; 0; 0; 0]%nat (fire 1 w))
    = [Returned (fst (CryptoContext.encryptMessage true plaintext recipientId w))]
  /\ world (run [0; 0; 0; 0; 0; 0]%nat (fire 1 w))
     = snd (CryptoContext.encryptMessage true plaintext recipientId w).
Proof.
  unfold Concurrent.run, fire. cbn [fold_left replicate].
  erewrite resume_alone by reflexivity.
  rewrite provider_encryptMessage_eq.
  destruct (directory w recipientId) as [pk|err] eqn:Hdir.
  2:{ erewrite resume_alone by (cbn [Concurrent.step]; rewrite Hdir; reflexivity).
      repeat erewrite resume_alone by reflexivity. now split. }
  rewrite deriveSharedKey_eq. unfold CryptoService.field_bytes.
  destruct (keyPair w) as [kp|] eqn:Hkp.
  2:{ erewrite resume_alone by (cbn [Concurrent.step]; rewrite Hdir, Hkp; reflexivity).
      repeat erewrite resume_alone by reflexivity. now split. }
  destruct (sharedKeys w !! recipientId) as [cached|] eqn:Hc.
  { erewrite resume_alone
      by (cbn [Concurrent.step]; rewrite Hdir, Hkp, Hc; unfold start_encrypt;
          rewrite (surjective_pairing (draw 12 (entropy w))); reflexivity).
    rewrite encryptMessage_eq.
    destruct (gcmEncrypt cached _ _) as [buf|] eqn:Henc;
      (erewrite resume_alone by (cbn [Concurrent.step]; rewrite Henc; reflexivity));
      repeat erewrite resume_alone by reflexivity; now split. }
  destruct (atob pk) as [binary|] eqn:Hatob; cbn [option_map].
  2:{ erewrite resume_alone
        by (cbn [Concurrent.step]; rewrite Hdir, Hkp, Hc, Hatob; reflexivity).
      repeat erewrite resume_alone by reflexivity. now split. }
  erewrite resume_alone
    by (cbn [Concurrent.step]; rewrite Hdir, Hkp, Hc, Hatob; reflexivity).
  destruct (importRaw (list_byte_of_string binary)) as [P|] eqn:Himp.
  2:{ erewrite resume_alone by (cbn [Concurrent.step]; rewrite Himp; reflexivity).
      repeat erewrite resume_alone by reflexivity. now split. }
  erewrite resume_alone by (cbn [Concurrent.step]; rewrite Himp, Hkp; reflexivity).
  erewrite resume_alone by reflexivity.
  destruct (importAes (deriveBits P (privateKey kp))) as [k|] eqn:Haes.
  2:{ erewrite resume_alone by (cbn [Concurrent.step]; rewrite Haes; reflexivity).
      repeat erewrite resume_alone by reflexivity. now split. }
  erewrite resume_alone
    by (cbn [Concurrent.step]; rewrite Haes; unfold start_encrypt;
        rewrite (surjective_pairing (draw 12 _)); reflexivity).
  rewrite encryptMessage_eq. cbn [entropy set_sharedKeys].
  destruct (gcmEncrypt k _ _) as [buf|] eqn:Henc;
    (erewrite resume_alone by (cbn [Concurrent.step]; rewrite Henc; reflexivity));
    now split.
Qed.

End ConcurrentFacts.

(** C6 as stated fails: two calls for Bob resumed in turn make two directory
    requests and two derivations; run one after the other they still make
    two requests, and one derivation. *)
Lemma two_calls_fetch_twice :
  Concurrent.all_returned (Concurrent.run (js "hello") "bob" Toy.round_robin
                  (Concurrent.fire 2 Toy.alice_online)) = true
  /\ Concurrent.fetches (Concurrent.run (js "hello") "bob" Toy.round_robin
                (Concurrent.fire 2 Toy.alice_online)) = 2%nat
  /\ Concurrent.derivations (Concurrent.run (js "hello") "bob" Toy.round_robin
                    (Concurrent.fire 2 Toy.alice_online)) = 2%nat
  /\ Concurrent.fetches (Concurrent.run (js "hello") "bob" Toy.one_after_the_other
                (Concurrent.fire 2 Toy.alice_online)) = 2%nat
  /\ Concurrent.derivations (Concurrent.run (js "hello") "bob" Toy.one_after_the_other
                    (Concurrent.fire 2 Toy.alice_online)) = 1%nat.
Proof. repeat split; vm_compute; reflexivity. Qed.

(** ** The theorems at work on the executable platform *)

Lemma round_trip_hello :
  exists pubA pubB k e,
    fst (CryptoService.exportPublicKey Toy.alice) = Ok pubA
    /\ fst (CryptoService.exportPublicKey Toy.bob) = Ok pubB
    /\ fst (CryptoService.deriveSharedKey pubB "bob" Toy.alice) = Ok k
    /\ fst (CryptoService.deriveSharedKey pubA "alice" Toy.bob) = Ok k
    /\ fst (CryptoService.encryptMessage (js "hello") k
              (snd (CryptoService.deriveSharedKey pubB "bob" Toy.alice))) = Ok e
    /\ fst (CryptoService.decryptMessage e k
              (snd (CryptoService.deriveSharedKey pubA "alice" Toy.bob)))
       = Ok (js "hello").
Proof.
  apply (round_trip (W := Toy.platform) (E := ToyFacts.ecdh_laws)
           (G := ToyFacts.aes_gcm_laws)
           Init.Byte.x03 Init.Byte.x09 Toy.alice Toy.bob "alice" "bob" (js "hello"));
    try (vm_compute; reflexivity);
    intros k Hk; vm_compute in Hk; discriminate.
Defined.

Lemma tampered_hello :
  CryptoService.decryptMessage (W := Toy.platform)
    (CryptoService.tamper_ciphertext 3 Toy.hello) Toy.alice_bob_key Toy.bob
  = (Throw CryptoService.decrypt_failure, Toy.bob)
  /\ CryptoService.decryptMessage (W := Toy.platform)
       (CryptoService.tamper_authTag 9 Toy.hello) Toy.alice_bob_key Toy.bob
     = (Throw CryptoService.decrypt_failure, Toy.bob).
Proof.
  destruct (tampering_is_detected (W := Toy.platform) (I := ToyFacts.aes_gcm_integrity)
              (js "hello") Toy.alice_bob_key Toy.alice
              (snd (CryptoService.encryptMessage (W := Toy.platform)
                      (js "hello") Toy.alice_bob_key Toy.alice))
              Toy.bob Toy.hello 3 ltac:(vm_compute; reflexivity)) as [Hc _].
  destruct (tampering_is_detected (W := Toy.platform) (I := ToyFacts.aes_gcm_integrity)
              (js "hello") Toy.alice_bob_key Toy.alice
              (snd (CryptoService.encryptMessage (W := Toy.platform)
                      (js "hello") Toy.alice_bob_key Toy.alice))
              Toy.bob Toy.hello 9 ltac:(vm_compute; reflexivity)) as [_ Ht].
  split; [apply Hc|apply Ht]; apply Nat.ltb_lt; vm_compute; reflexivity.
Defined.

Lemma envelope_of_hello :
  (exists e ivb c t,
     fst (CryptoService.encryptMessage (W := Toy.platform)
            (js "hello") Toy.alice_bob_key Toy.alice) = Ok e
     /\ Toy.encrypt Toy.alice_bob_key ivb (TextCodec.encode (js "hello")) = Some (c ++ t)
     /\ CryptoService.field_bytes (CryptoService.iv e) = Some ivb
     /\ length ivb = 12%nat
     /\ CryptoService.field_bytes (CryptoService.authTag e) = Some t
     /\ length t = 16%nat
     /\ CryptoService.field_bytes (CryptoService.ciphertext e) = Some c)
  /\ (forall e c i t (w' : @World Toy.platform),
        CryptoService.field_bytes (CryptoService.ciphertext e) = Some c ->
        CryptoService.field_bytes (CryptoService.iv e) = Some i ->
        CryptoService.field_bytes (CryptoService.authTag e) = Some t ->
        CryptoService.decryptMessage (W := Toy.platform) e Toy.alice_bob_key w'
        = (match Toy.decrypt Toy.alice_bob_key i (c ++ t) with
           | Some plaintextBuffer => Ok (TextCodec.decode plaintextBuffer)
           | None => Throw CryptoService.decrypt_failure
           end, w'))
  /\ (forall e (w' : @World Toy.platform),
        CryptoService.field_bytes (CryptoService.ciphertext e) = None
        \/ CryptoService.field_bytes (CryptoService.iv e) = None
        \/ CryptoService.field_bytes (CryptoService.authTag e) = None ->
        CryptoService.decryptMessage (W := Toy.platform) e Toy.alice_bob_key w'
        = (Throw CryptoService.decrypt_failure, w')).
Proof.
  exact (envelope_lengths (W := Toy.platform) (L := ToyFacts.aes_gcm_laws)
           (js "hello") Toy.alice_bob_key Toy.alice).
Defined.

Lemma two_calls_for_bob :
  Concurrent.fetches (Concurrent.run (js "hello") "bob" Toy.round_robin
             (Concurrent.fire 2 Toy.alice_online)) = 2%nat
  /\ (Concurrent.derivations (Concurrent.run (js "hello") "bob" Toy.round_robin
                     (Concurrent.fire 2 Toy.alice_online)) <= 2)%nat
  /\ (sharedKeys Toy.alice_online !! "bob"%string = None ->
      Exists (fun t => Concurrent.succeeded t = true)
        (Concurrent.tasks (Concurrent.run (js "hello") "bob" Toy.round_robin
                  (Concurrent.fire 2 Toy.alice_online))) ->
      (1 <= Concurrent.derivations (Concurrent.run (js "hello") "bob" Toy.round_robin
                           (Concurrent.fire 2 Toy.alice_online)))%nat).
Proof.
  apply (calls_do_not_coalesce (W := Toy.platform) (js "hello") "bob" 2
           Toy.round_robin Toy.alice_online).
  vm_compute. reflexivity.
Defined.

Lemma rederivation_for_bob :
  exists k,
    fst (CryptoService.deriveSharedKey Toy.bob_public "bob" Toy.alice_saved) = Ok k
    /\ fst (CryptoService.deriveSharedKey Toy.bob_public "bob" Toy.stale) = Ok k
    /\ (forall w3 w4 : @World Toy.platform, exists e,
          fst (CryptoService.encryptMessage (js "hello") k w3) = Ok e
          /\ fst (CryptoService.decryptMessage e k w4) = Ok (js "hello"))
    /\ (forall ownerId,
          access_denied (localStorage Toy.alice_saved) = false ->
          items (localStorage Toy.alice_saved) !! CryptoService.storage_key ownerId
            = Some (CryptoService.arrayBufferToBase64 (Toy.export_pkcs8 Init.Byte.x03)) ->
          fst (CryptoService.deriveSharedKey Toy.bob_public "bob"
                 (snd (CryptoService.loadPrivateKey ownerId
                         (snd (CryptoService.clearKeys Toy.alice_saved))))) = Ok k).
Proof.
  apply (derivation_is_deterministic (W := Toy.platform) (E := ToyFacts.ecdh_laws)
           (G := ToyFacts.aes_gcm_laws) Toy.alice_saved Toy.stale
           Toy.alice_pair Toy.alice_pair
           (Toy.public_of Init.Byte.x09) "bob" (js "hello"));
    try (vm_compute; reflexivity).
  - intros k Hk. vm_compute in Hk. discriminate.
  - intros k Hk. vm_compute in Hk. injection Hk as <-. vm_compute. reflexivity.
Defined.

Lemma unsent_key_sends_plaintext :
  exists payload,
    fst (ChatPage.handleSend (W := Toy.platform) true true false (Some "c1"%string)
           (Some {| ChatPage.id := "c1"; ChatPage.userId := Some "bob"%string |})
           (Some "alice"%string) (js "  hi ") Toy.alice) = Ok (Some payload)
    /\ ChatPage.isEncrypted payload = false
    /\ ChatPage.text payload = trim (js "  hi ")
    /\ ChatPage.conversationId payload = Some "c1"%string.
Proof.
  apply (handleSend_falls_back_to_plaintext (W := Toy.platform)); try reflexivity.
  - vm_compute. discriminate.
  - right. exists "bob"%string, (Error "User has not set up encryption yet").
    split; vm_compute; reflexivity.
Defined.

(** * Further properties of the code *)

(** ** The base64 utilities *)

Lemma encode_length_exact l :
  length (Base64.encode l) = (4 * ((length l + 2) / 3))%nat.
Proof.
  induction l as [| a | a b | a b c r IH] using list_ind3; try reflexivity.
  cbn [Base64.encode]. rewrite length_app, IH. cbn [length Base64.quad3].
  replace (S (S (S (length r))) + 2)%nat with (1 * 3 + (length r + 2))%nat by lia.
  rewrite Nat.div_add_l by lia. lia.
Qed.

Lemma length_string_of_list_byte l :
  String.length (string_of_list_byte l) = length l.
Proof.
  induction l as [|b r IH]; [reflexivity|].
  change (S (String.length (string_of_list_byte r)) = S (length r)).
  now rewrite IH.
Qed.

Lemma length_list_byte_of_string s :
  length (list_byte_of_string s) = String.length s.
Proof.
  induction s as [|c r IH]; [reflexivity|].
  change (S (length (list_byte_of_string r)) = S (String.length r)).
  now rewrite IH.
Qed.

Lemma strip_padding_keeps c s :
  In c s -> Byte.eqb c Base64.pad = false -> In c (Base64.strip_padding s).
Proof.
  intros Hin Hc. induction s as [|x r IH]; [contradiction|].
  destruct Hin as [->|Hin].
  - cbn [Base64.strip_padding]. destruct r as [|d [|e r']].
    + rewrite Hc. now left.
    + rewrite Hc. cbn [andb]. now left.
    + now left.
  - specialize (IH Hin). cbn [Base64.strip_padding].
    destruct r as [|d [|e r']]; [contradiction| |now right].
    destruct (Byte.eqb x Base64.pad && Byte.eqb d Base64.pad) eqn:E; [|now right].
    apply andb_true_iff in E as [_ E]. destruct Hin as [->|[]]. congruence.
Qed.

Lemma sextets_outside c s :
  In c s -> Base64.index_of c = None -> Base64.sextets s = None.
Proof.
  intros Hin Hc. induction s as [|x r IH]; [contradiction|].
  cbn [Base64.sextets]. destruct Hin as [->|Hin].
  - now rewrite Hc.
  - rewrite (IH Hin). now destruct (Base64.index_of x).
Qed.

Lemma atob_outside c s :
  In c (list_byte_of_string s) ->
  Base64.index_of c = None -> Byte.eqb c Base64.pad = false ->
  Base64.is_ascii_whitespace c = false ->
  atob s = None.
Proof.
  intros Hin Hi Hp Hw. unfold atob, Base64.decode.
  set (t := List.filter _ _).
  assert (In c t) as Ht by (apply List.filter_In; split; [assumption|now rewrite Hw]).
  destruct (length t mod 4 =? 0)%nat.
  - destruct (_ =? 1)%nat; [reflexivity|].
    now rewrite (sextets_outside c _ (strip_padding_keeps _ _ Ht Hp) Hi).
  - destruct (_ =? 1)%nat; [reflexivity|].
    now rewrite (sextets_outside c _ Ht Hi).
Qed.

Section UtilityFacts.
Context {W : WebCrypto}.
Import CryptoService.

(** X1. [base64ToArrayBuffer] inverts [arrayBufferToBase64]: any buffer comes
    back byte for byte, and decoding changes nothing in the world. *)
Theorem base64ToArrayBuffer_arrayBufferToBase64 (buffer : bytes) (w : World) :
  base64ToArrayBuffer (arrayBufferToBase64 buffer) w = (Ok buffer, w).
Proof.
  rewrite base64ToArrayBuffer_field.
  now rewrite field_bytes_base64.
Qed.

(** X2. A string with a character that is neither of the base64 alphabet, nor
    [=], nor ASCII white space makes [base64ToArrayBuffer] throw
    [InvalidCharacterError]. *)
Theorem base64ToArrayBuffer_rejects (base64 : string) (c : byte) (w : World) :
  In c (list_byte_of_string base64) ->
  Base64.index_of c = None -> c <> Base64.pad ->
  Base64.is_ascii_whitespace c = false ->
  base64ToArrayBuffer base64 w = (Throw InvalidCharacterError, w).
Proof.
  intros Hin Hi Hp Hw. rewrite base64ToArrayBuffer_field. unfold field_bytes.
  rewrite (atob_outside c base64 Hin Hi); [reflexivity| |assumption].
  destruct (Byte.eqb c Base64.pad) eqn:E; [|reflexivity].
  apply Byte.byte_dec_bl in E. contradiction.
Qed.

End UtilityFacts.

(** X3. [arrayBufferToBase64] gives four characters for every three bytes, the
    last group padded: 16 characters for a 12-byte IV, 24 for a 16-byte tag. *)
Theorem arrayBufferToBase64_length (buffer : bytes) :
  String.length (CryptoService.arrayBufferToBase64 buffer)
  = (4 * ((length buffer + 2) / 3))%nat.
Proof.
  unfold CryptoService.arrayBufferToBase64, btoa.
  now rewrite length_string_of_list_byte, encode_length_exact,
    list_byte_of_string_of_list_byte.
Qed.

(** ** The service: key generation and persistence *)

Lemma storage_key_inj u u' :
  CryptoService.storage_key u = CryptoService.storage_key u' -> u = u'.
Proof.
  unfold CryptoService.storage_key. intros H. cbn in H. now simplify_eq.
Qed.

Section KeyFacts.
Context {W : WebCrypto}.
Import CryptoService.

Lemma initialize_eq (w : World) :
  initialize w
  = match generateKey (fst (draw 32 (entropy w))) with
    | Some d =>
        (Ok true,
         set_keyPair (Some {| privateKey := d; publicKey := Some (publicOf d) |})
           (set_entropy (snd (draw 32 (entropy w))) w))
    | None =>
        (Throw (Error "Cryptography initialization failed"),
         set_entropy (snd (draw 32 (entropy w))) w)
    end.
Proof.
  unfold initialize, subtle_generateKey, getRandomValues. js_unfold.
  destruct (draw 32 (entropy w)) as [seed e]. cbn [fst snd].
  destruct (generateKey seed); reflexivity.
Qed.

Lemma savePrivateKey_eq userId (w : World) kp :
  keyPair w = Some kp ->
  access_denied (localStorage w) = false ->
  quota_exceeded (localStorage w) = false ->
  savePrivateKey userId w
  = (Ok tt,
     set_localStorage
       {| items := <[storage_key userId :=
                      arrayBufferToBase64 (exportPkcs8 (privateKey kp))]>
                     (items (localStorage w));
          access_denied := false; quota_exceeded := false |} w).
Proof.
  intros Hk Ha Hq. unfold savePrivateKey, localStorage_setItem. js_unfold.
  rewrite Hk. js_unfold. cbv beta iota zeta. now rewrite Ha, Hq.
Qed.

Lemma savePrivateKey_items userId key (w : World) :
  key <> storage_key userId ->
  items (localStorage (snd (savePrivateKey userId w))) !! key
  = items (localStorage w) !! key
  /\ access_denied (localStorage (snd (savePrivateKey userId w)))
     = access_denied (localStorage w)
  /\ keyPair (snd (savePrivateKey userId w)) = keyPair w.
Proof.
  intros Hne. unfold savePrivateKey, localStorage_setItem. js_unfold.
  destruct (keyPair w) as [kp|] eqn:Hk; js_unfold; cbv beta iota zeta;
    [|cbn [snd]; rewrite ?Hk; auto].
  destruct (access_denied (localStorage w)) eqn:Ha;
    [cbn [snd]; rewrite ?Hk, ?Ha; auto|].
  destruct (quota_exceeded (localStorage w)) eqn:Hq;
    [cbn [snd]; rewrite ?Hk, ?Ha; auto|].
  cbn [snd localStorage set_localStorage items access_denied keyPair].
  rewrite lookup_insert_ne by congruence. rewrite ?Hk, ?Ha. auto.
Qed.

Lemma loadPrivateKey_eq userId (w : World) :
  loadPrivateKey userId w
  = if access_denied (localStorage w) then (Ok false, w)
    else
      match items (localStorage w) !! storage_key userId with
      | None => (Ok false, w)
      | Some base64 =>
          if String.eqb base64 "" then (Ok false, w)
          else
            match field_bytes base64 with
            | None => (Ok false, w)
            | Some keyData =>
                match importPkcs8 keyData with
                | None => (Ok false, w)
                | Some d =>
                    (Ok true,
                     set_keyPair (Some {| privateKey := d; publicKey := None |}) w)
                end
            end
      end.
Proof.
  unfold loadPrivateKey, localStorage_getItem, bind at 1, try_catch.
  destruct (access_denied (localStorage w)); [reflexivity|].
  destruct (items (localStorage w) !! storage_key userId) as [[|c s]|];
    [reflexivity| |reflexivity].
  cbn [String.eqb]. unfold bind at 1. rewrite base64ToArrayBuffer_field.
  destruct (field_bytes (String c s)); [|reflexivity].
  js_unfold. destruct (importPkcs8 _); reflexivity.
Qed.

(** X4. [initialize] either installs a fresh pair with both halves and returns
    [true], after which [exportPublicKey] succeeds, or throws "Cryptography
    initialization failed" and leaves the key pair it found. *)
Theorem initialize_outcome (w : World) :
  (exists d,
     fst (initialize w) = Ok true
     /\ keyPair (snd (initialize w))
        = Some {| privateKey := d; publicKey := Some (publicOf d) |}
     /\ fst (exportPublicKey (snd (initialize w)))
        = Ok (arrayBufferToBase64 (exportRaw (publicOf d))))
  \/ (fst (initialize w) = Throw (Error "Cryptography initialization failed")
      /\ keyPair (snd (initialize w)) = keyPair w).
Proof.
  rewrite initialize_eq.
  destruct (generateKey _) as [d|].
  - left. exists d. split; [reflexivity|]. split; [reflexivity|].
    cbn [snd]. now erewrite exportPublicKey_eq by reflexivity.
  - now right.
Qed.

(** X5. [initialize] does not touch the cache of shared keys: a key cached for a
    peer under the previous key pair is still what [deriveSharedKey] returns
    for that peer after a new pair has been generated, whatever public key is
    passed. The stored private key is not touched either. *)
Theorem initialize_keeps_cache (w : World) :
  sharedKeys (snd (initialize w)) = sharedKeys w
  /\ localStorage (snd (initialize w)) = localStorage w
  /\ (forall userId k otherUserPublicKeyBase64,
        sharedKeys w !! userId = Some k ->
        fst (initialize w) = Ok true ->
        deriveSharedKey otherUserPublicKeyBase64 userId (snd (initialize w))
        = (Ok k, snd (initialize w))).
Proof.
  rewrite initialize_eq.
  destruct (generateKey _) as [d|]; cbn [fst snd]; repeat split; try discriminate.
  intros userId k pk Hc _. rewrite deriveSharedKey_eq.
  cbn [keyPair sharedKeys set_keyPair set_entropy]. now rewrite Hc.
Qed.

(** X6. The private key survives a logout: saved under the owner's id, cleared
    from memory and loaded again, it is the same private key; the public half
    is not restored and the cache is empty. *)
Theorem savePrivateKey_loadPrivateKey {E : EcdhLaws W} userId (w : World) kp :
  keyPair w = Some kp ->
  access_denied (localStorage w) = false ->
  quota_exceeded (localStorage w) = false ->
  fst (loadPrivateKey userId (snd (clearKeys (snd (savePrivateKey userId w)))))
  = Ok true
  /\ keyPair (snd (loadPrivateKey userId (snd (clearKeys (snd (savePrivateKey userId w))))))
     = Some {| privateKey := privateKey kp; publicKey := None |}
  /\ sharedKeys (snd (loadPrivateKey userId (snd (clearKeys (snd (savePrivateKey userId w))))))
     = ∅.
Proof.
  intros Hk Ha Hq. rewrite (savePrivateKey_eq userId w kp Hk Ha Hq). cbn [snd].
  rewrite (clear_and_reload userId _ (privateKey kp)).
  - now repeat split.
  - reflexivity.
  - cbn [localStorage set_localStorage items]. apply lookup_insert_eq.
Qed.

(** X7. Stored keys are kept per owner: saving the key for one user id leaves
    what is stored for any other id, and [loadPrivateKey] for that other id
    answers as it did before. *)
Theorem savePrivateKey_other_owner userId otherId (w : World) :
  userId <> otherId ->
  items (localStorage (snd (savePrivateKey userId w))) !! storage_key otherId
  = items (localStorage w) !! storage_key otherId
  /\ fst (loadPrivateKey otherId (snd (savePrivateKey userId w)))
     = fst (loadPrivateKey otherId w).
Proof.
  intros Hne.
  assert (storage_key otherId <> storage_key userId) as Hk
    by (intros E; apply storage_key_inj in E; congruence).
  destruct (savePrivateKey_items userId _ w Hk) as (Hi & Ha & _).
  split; [exact Hi|]. rewrite !loadPrivateKey_eq, Hi, Ha.
  destruct (access_denied (localStorage w)); [reflexivity|].
  destruct (items (localStorage w) !! storage_key otherId) as [b|]; [|reflexivity].
  destruct (String.eqb b ""); [reflexivity|].
  destruct (field_bytes b); [|reflexivity].
  destruct (importPkcs8 _); reflexivity.
Qed.

(** ** The service: the shared-key cache *)

Lemma deriveSharedKey_caches pk userId (w : World) k :
  fst (deriveSharedKey pk userId w) = Ok k ->
  (exists kp, keyPair (snd (deriveSharedKey pk userId w)) = Some kp)
  /\ sharedKeys (snd (deriveSharedKey pk userId w)) !! userId = Some k
  /\ directory (snd (deriveSharedKey pk userId w)) = directory w
  /\ entropy (snd (deriveSharedKey pk userId w)) = entropy w.
Proof.
  rewrite deriveSharedKey_eq.
  destruct (keyPair w) as [kp|] eqn:Hk; [|discriminate].
  destruct (sharedKeys w !! userId) as [c|] eqn:Hc.
  { cbn [fst snd]. intros [= ->]. rewrite Hk. eauto. }
  destruct (field_bytes pk); [|discriminate].
  destruct (importRaw _); [|discriminate].
  destruct (importAes _); [|discriminate].
  cbn [fst snd keyPair sharedKeys set_sharedKeys directory entropy].
  intros [= ->]. rewrite Hk, lookup_insert_eq. eauto.
Qed.

(** X8. Once [deriveSharedKey] has returned a key for a user id, every later call
    for that id returns the same key and changes nothing, whatever public key
    it is given: a cache hit neither decodes nor imports its argument. *)
Theorem deriveSharedKey_memoizes pk userId (w : World) k :
  fst (deriveSharedKey pk userId w) = Ok k ->
  forall pk',
    deriveSharedKey pk' userId (snd (deriveSharedKey pk userId w))
    = (Ok k, snd (deriveSharedKey pk userId w)).
Proof.
  intros H pk'. destruct (deriveSharedKey_caches _ _ _ _ H) as ([kp Hk] & Hc & _).
  now apply (deriveSharedKey_hit _ _ _ kp).
Qed.

(** X9. A failed [deriveSharedKey] leaves the service as it was, the cache
    included, and fails in one of three ways: no key pair, a public key that
    is not base64, or key material the platform refuses. *)
Theorem deriveSharedKey_failure pk userId (w : World) e :
  fst (deriveSharedKey pk userId w) = Throw e ->
  snd (deriveSharedKey pk userId w) = w
  /\ (e = Error "Crypto not initialized" /\ keyPair w = None
      \/ e = InvalidCharacterError /\ field_bytes pk = None
      \/ e = DataError).
Proof.
  rewrite deriveSharedKey_eq.
  destruct (keyPair w) as [kp|]; [|intros [= <-]; auto].
  destruct (sharedKeys w !! userId); [discriminate|].
  destruct (field_bytes pk); [|intros [= <-]; auto].
  destruct (importRaw _); [|intros [= <-]; auto].
  destruct (importAes _); [discriminate|intros [= <-]; auto].
Qed.

(** X10. What one service exports with [exportPublicKey], any service imports
    with [importPublicKey] as the same public key. *)
Theorem exportPublicKey_importPublicKey {E : EcdhLaws W} (w : World) d P :
  keyPair w = Some {| privateKey := d; publicKey := Some P |} ->
  exists publicKeyBase64,
    exportPublicKey w = (Ok publicKeyBase64, w)
    /\ forall w' : World, importPublicKey publicKeyBase64 w' = (Ok P, w').
Proof.
  intros Hk. exists (arrayBufferToBase64 (exportRaw P)).
  split; [now apply (exportPublicKey_eq w d)|].
  intros w'. unfold importPublicKey, try_catch, bind at 1.
  rewrite base64ToArrayBuffer_field, field_bytes_base64.
  js_unfold. now rewrite importRaw_exportRaw.
Qed.

Lemma encryptForUser_eq plaintext pk userId (w : World) :
  encryptForUser plaintext pk userId w
  = match deriveSharedKey pk userId w with
    | (Ok k, w') => encryptMessage plaintext k w'
    | (Throw e, w') => (Throw e, w')
    end.
Proof. reflexivity. Qed.

Lemma decryptFromUser_eq encryptedData pk userId (w : World) :
  decryptFromUser encryptedData pk userId w
  = match deriveSharedKey pk userId w with
    | (Ok k, w') => decryptMessage encryptedData k w'
    | (Throw e, w') => (Throw e, w')
    end.
Proof. reflexivity. Qed.

(** X11. What [encryptForUser] produced for a user id, [decryptFromUser] of the
    same service reads back under that id: the sender can decrypt the
    messages they sent. The text is well formed and has no leading U+FEFF. *)
Theorem decryptFromUser_encryptForUser {G : AesGcmLaws W}
    plaintext pk pk' userId (w : World) e :
  TextCodec.well_formed plaintext = true ->
  TextCodec.starts_with_bom plaintext = false ->
  fst (encryptForUser plaintext pk userId w) = Ok e ->
  fst (decryptFromUser e pk' userId (snd (encryptForUser plaintext pk userId w)))
  = Ok plaintext.
Proof.
  intros Hwf Hb. rewrite encryptForUser_eq.
  pose proof (deriveSharedKey_caches pk userId w) as Hc.
  destruct (deriveSharedKey pk userId w) as [[k|err] w1]; [|discriminate].
  destruct (Hc k eq_refl) as ([kp Hk] & Hs & _). cbn [snd] in Hk, Hs.
  destruct (decrypt_encrypt plaintext k w1
              (set_entropy (snd (draw 12 (entropy w1))) w1) Hwf Hb) as (e0 & He & Hd).
  rewrite encryptMessage_eq in He |- *. cbn [fst snd] in *.
  intros He'. assert (e0 = e) as -> by congruence.
  rewrite decryptFromUser_eq.
  erewrite deriveSharedKey_hit by (cbn; eassumption).
  now rewrite Hd.
Qed.

End KeyFacts.

(** ** [trim] *)

Lemma whitespace_not_surrogate u :
  is_js_whitespace u = true ->
  TextCodec.is_lead u = false /\ TextCodec.is_trail u = false /\ u < 0x10000.
Proof.
  unfold is_js_whitespace, TextCodec.is_lead, TextCodec.is_trail.
  rewrite !orb_true_iff, !andb_true_iff, !andb_false_iff, !N.leb_le, !N.eqb_eq,
    !N.leb_gt.
  lia.
Qed.

Lemma trim_start_split s :
  exists ws, s = ws ++ trim_start s /\ Forall (fun u => is_js_whitespace u = true) ws.
Proof.
  induction s as [|u r (ws & E & F)]; [now exists []|].
  cbn [trim_start]. destruct (is_js_whitespace u) eqn:Hu.
  - exists (u :: ws). split; [cbn; congruence|now constructor].
  - now exists [].
Qed.

Lemma trim_start_head s :
  match trim_start s with
  | [] => True
  | u :: _ => is_js_whitespace u = false
  end.
Proof.
  induction s as [|u r IH]; [exact I|].
  cbn [trim_start]. now destruct (is_js_whitespace u) eqn:Hu.
Qed.

(** [trim s] is what is left of [s] between its leading and its trailing
    white space. *)
Lemma trim_split s :
  exists before after,
    s = before ++ trim s ++ after
    /\ Forall (fun u => is_js_whitespace u = true) before
    /\ Forall (fun u => is_js_whitespace u = true) after.
Proof.
  destruct (trim_start_split s) as (before & E1 & F1).
  destruct (trim_start_split (rev (trim_start s))) as (ws & E2 & F2).
  exists before, (rev ws). split; [|split; [assumption|]].
  - unfold trim. rewrite <- rev_app_distr, <- E2, rev_involutive. exact E1.
  - now apply Forall_rev.
Qed.

Lemma trim_head s :
  match trim s with
  | [] => True
  | u :: _ => is_js_whitespace u = false
  end.
Proof.
  destruct (trim_start_split (rev (trim_start s))) as (ws & E2 & _).
  pose proof (trim_start_head s) as Hh.
  assert (trim_start s = trim s ++ rev ws) as E.
  { unfold trim. now rewrite <- rev_app_distr, <- E2, rev_involutive. }
  destruct (trim s) as [|u r]; [exact I|]. now rewrite E in Hh.
Qed.

Lemma trim_no_bom s : TextCodec.starts_with_bom (trim s) = false.
Proof.
  pose proof (trim_head s) as H. destruct (trim s) as [|u r]; [reflexivity|].
  cbn [TextCodec.starts_with_bom]. destruct (N.eqb_spec u 0xFEFF) as [->|]; [|reflexivity].
  discriminate H.
Qed.

Lemma well_formed_skip_whitespace ws s :
  Forall (fun u => is_js_whitespace u = true) ws ->
  TextCodec.well_formed (ws ++ s) = true -> TextCodec.well_formed s = true.
Proof.
  induction 1 as [|u ws Hu _ IH]; [easy|].
  destruct (whitespace_not_surrogate u Hu) as (Hl & Ht & _).
  cbn [app TextCodec.well_formed]. rewrite Hl.
  rewrite !andb_true_iff. intros [_ H]. auto.
Qed.

Lemma well_formed_drop_whitespace ws :
  Forall (fun u => is_js_whitespace u = true) ws ->
  forall n s, (length s <= n)%nat ->
    TextCodec.well_formed (s ++ ws) = true -> TextCodec.well_formed s = true.
Proof.
  intros F n. induction n as [|n IH]; intros s Hn.
  { destruct s; [reflexivity|cbn in Hn; lia]. }
  destruct s as [|u r]; [reflexivity|].
  cbn [app TextCodec.well_formed]. destruct (TextCodec.is_lead u).
  - destruct r as [|v r'].
    + cbn [app]. destruct F as [|v ws Hv _]; [discriminate|].
      destruct (whitespace_not_surrogate v Hv) as (_ & Ht & _). now rewrite Ht.
    + cbn [app]. rewrite !andb_true_iff. intros [Hv H]. split; [assumption|].
      apply IH; [cbn in Hn; lia|assumption].
  - rewrite !andb_true_iff. intros [H1 H]. split; [assumption|].
    apply IH; [cbn in Hn; lia|assumption].
Qed.

Lemma well_formed_trim s :
  TextCodec.well_formed s = true -> TextCodec.well_formed (trim s) = true.
Proof.
  destruct (trim_split s) as (before & after & E & F1 & F2).
  intros H. rewrite E in H. apply well_formed_skip_whitespace in H; [|assumption].
  now apply (well_formed_drop_whitespace after F2 (length (trim s))).
Qed.

(** ** The provider *)

Section FacadeFacts.
Context {W : WebCrypto}.
Import CryptoService.

Lemma provider_decryptMessage_eq encryptedData senderId (w : World) :
  CryptoContext.decryptMessage true encryptedData senderId w
  = match directory w senderId with
    | Ok senderPublicKey =>
        match deriveSharedKey senderPublicKey senderId w with
        | (Ok sharedKey, w') =>
            match decryptMessage encryptedData sharedKey w' with
            | (Ok s, w'') => (Ok s, w'')
            | (Throw _, w'') => (Ok CryptoContext.decryption_failed, w'')
            end
        | (Throw _, w') => (Ok CryptoContext.decryption_failed, w')
        end
    | Throw _ => (Ok CryptoContext.decryption_failed, w)
    end.
Proof.
  unfold CryptoContext.decryptMessage, CryptoContext.getUserPublicKey,
    CryptoContext.axios_get_public_key, decryptFromUser.
  cbn [negb]. js_unfold.
  destruct (directory w senderId) as [pk|err]; [|reflexivity].
  destruct (deriveSharedKey pk senderId w) as [[k|e] w']; [|reflexivity].
  now destruct (decryptMessage encryptedData k w') as [[s|e] w''].
Qed.

Lemma encryptMessage_frame plaintext k (w : World) :
  keyPair (snd (encryptMessage plaintext k w)) = keyPair w
  /\ sharedKeys (snd (encryptMessage plaintext k w)) = sharedKeys w
  /\ directory (snd (encryptMessage plaintext k w)) = directory w
  /\ localStorage (snd (encryptMessage plaintext k w)) = localStorage w.
Proof. rewrite encryptMessage_eq. now repeat split. Qed.

(** X12. Whatever makes the request for a user's public key fail (the user has no
    key, the user does not exist, the server or the network is down), the
    provider reports the one error "User has not set up encryption yet":
    [encryptMessage] throws it and [decryptMessage] returns its placeholder,
    and neither touches the service. *)
Theorem directory_failure_is_one_error userId err plaintext encryptedData (w : World) :
  directory w userId = Throw err ->
  CryptoContext.getUserPublicKey userId w
  = (Throw (Error "User has not set up encryption yet"), w)
  /\ CryptoContext.encryptMessage true plaintext userId w
     = (Throw (Error "User has not set up encryption yet"), w)
  /\ CryptoContext.decryptMessage true encryptedData userId w
     = (Ok CryptoContext.decryption_failed, w).
Proof.
  intros H. rewrite provider_encryptMessage_eq, provider_decryptMessage_eq, H.
  split; [|now split].
  unfold CryptoContext.getUserPublicKey, CryptoContext.axios_get_public_key.
  js_unfold. now rewrite H.
Qed.

Lemma provider_reads_back {G : AesGcmLaws W} plaintext recipientId (w : World) e :
  TextCodec.well_formed plaintext = true ->
  TextCodec.starts_with_bom plaintext = false ->
  fst (CryptoContext.encryptMessage true plaintext recipientId w) = Ok e ->
  exists w' : World,
    CryptoContext.decryptMessage true e recipientId
      (snd (CryptoContext.encryptMessage true plaintext recipientId w))
    = (Ok plaintext, w').
Proof.
  intros Hwf Hb. rewrite provider_encryptMessage_eq, provider_decryptMessage_eq.
  destruct (directory w recipientId) as [pk|err] eqn:Hd; [|discriminate].
  pose proof (deriveSharedKey_caches pk recipientId w) as Hc.
  destruct (deriveSharedKey pk recipientId w) as [[k|err] w1]; [|discriminate].
  destruct (Hc k eq_refl) as ([kp Hk] & Hs & Hdir & _). cbn [snd] in Hk, Hs, Hdir.
  destruct (encryptMessage_frame plaintext k w1) as (Fk & Fs & Fd & _).
  destruct (decrypt_encrypt plaintext k w1
              (snd (encryptMessage plaintext k w1)) Hwf Hb) as (e0 & He & Hdec).
  intros He'. assert (e0 = e) as -> by congruence.
  rewrite Fd, Hdir, Hd.
  erewrite deriveSharedKey_hit by (rewrite ?Fk, ?Fs; eassumption).
  rewrite Hdec. eauto.
Qed.

(** X13. What the provider's [encryptMessage] produced for a recipient, its
    [decryptMessage] reads back under the recipient's id, in the same
    session: the sender can read the messages they sent. The text is well
    formed and has no leading U+FEFF. *)
Theorem provider_decryptMessage_encryptMessage {G : AesGcmLaws W}
    plaintext recipientId (w : World) e :
  TextCodec.well_formed plaintext = true ->
  TextCodec.starts_with_bom plaintext = false ->
  fst (CryptoContext.encryptMessage true plaintext recipientId w) = Ok e ->
  fst (CryptoContext.decryptMessage true e recipientId
         (snd (CryptoContext.encryptMessage true plaintext recipientId w)))
  = Ok plaintext.
Proof.
  intros Hwf Hb He.
  destruct (provider_reads_back plaintext recipientId w e Hwf Hb He) as [w' ->].
  reflexivity.
Qed.

End FacadeFacts.

(** ** The send path, continued *)

Section SendFacts.
Context {W : WebCrypto}.
Import ChatPage.

(** X14. [handleSend] dispatches nothing, and calls nothing, when the text is
    blank, no conversation is active, the socket is not connected or a group
    is active; otherwise it never throws and dispatches one payload for the
    active conversation, signed with the user's id. *)
Theorem handleSend_guard
    (isCryptoInitialized isConnected activeGroup : bool)
    (activeId : option string) (activeContact : option Contact)
    (user_id : option string) (messageText : jsstring) (w : World) :
  (trim messageText = [] \/ truthy activeId = false
   \/ isConnected = false \/ activeGroup = true ->
   handleSend isCryptoInitialized isConnected activeGroup activeId
     activeContact user_id messageText w = (Ok None, w))
  /\ (trim messageText <> [] -> truthy activeId = true ->
      isConnected = true -> activeGroup = false ->
      exists payload,
        fst (handleSend isCryptoInitialized isConnected activeGroup activeId
               activeContact user_id messageText w) = Ok (Some payload)
        /\ conversationId payload = activeId
        /\ senderId payload = user_id
        /\ (isEncrypted payload = false /\ text payload = trim messageText
            \/ isEncrypted payload = true /\ text payload = js "[Encrypted]")).
Proof.
  unfold handleSend. split.
  - intros H. destruct (trim messageText) as [|u r]; [reflexivity|].
    destruct H as [H | [ -> | [ -> | -> ] ] ]; [discriminate|reflexivity| |].
    + now rewrite orb_true_r.
    + now rewrite orb_true_r.
  - intros Ht -> -> ->. destruct (trim messageText) as [|u r]; [congruence|].
    cbn [negb orb]. js_unfold.
    destruct (canEncrypt isCryptoInitialized activeContact) as [recipient|].
    + destruct (CryptoContext.encryptMessage _ _ _ w) as [[enc|e'] w'].
      * eexists. split; [reflexivity|]. cbn. auto.
      * eexists. split; [reflexivity|]. cbn. auto.
    + eexists. split; [reflexivity|]. cbn. auto.
Qed.

(** X15. With crypto initialized, a contact with a user id and that user's
    exported public key in the directory, [handleSend] sends the message
    encrypted: the payload carries the envelope and the text "[Encrypted]",
    and the provider's [decryptMessage] reads the envelope back as the
    trimmed message text. *)
Theorem handleSend_encrypts {E : EcdhLaws W} {G : AesGcmLaws W}
    (activeId : option string) (contact : Contact) (recipient : string)
    (user_id : option string) (messageText : jsstring) (w : World) kp P :
  trim messageText <> [] -> truthy activeId = true ->
  userId contact = Some recipient -> recipient <> ""%string ->
  keyPair w = Some kp ->
  directory w recipient
  = Ok (CryptoService.arrayBufferToBase64 (exportRaw P)) ->
  TextCodec.well_formed messageText = true ->
  exists encrypted w',
    handleSend true true false activeId (Some contact) user_id messageText w
    = (Ok (Some (encrypted_payload activeId user_id encrypted)), w')
    /\ fst (CryptoContext.decryptMessage true encrypted recipient w')
       = Ok (trim messageText).
Proof.
  intros Ht Ha Hu Hr Hk Hd Hwf.
  pose proof (well_formed_trim _ Hwf) as Hwf'.
  pose proof (trim_no_bom messageText) as Hb.
  assert (exists k, fst (CryptoService.deriveSharedKey
                           (CryptoService.arrayBufferToBase64 (exportRaw P))
                           recipient w) = Ok k) as [k Hder].
  { rewrite deriveSharedKey_eq, Hk.
    destruct (sharedKeys w !! recipient) as [c|]; [now exists c|].
    rewrite field_bytes_base64, importRaw_exportRaw.
    destruct (importAes_256 (deriveBits P (privateKey kp)) (deriveBits_length _ _))
      as [k ->]. now exists k. }
  assert (exists e, fst (CryptoContext.encryptMessage true (trim messageText)
                           recipient w) = Ok e) as [e He].
  { rewrite provider_encryptMessage_eq, Hd.
    destruct (CryptoService.deriveSharedKey _ recipient w) as [[k0|err] w1];
      [|discriminate].
    destruct (decrypt_encrypt (trim messageText) k0 w1 w1 Hwf' Hb) as (e & He & _).
    now exists e. }
  destruct (provider_reads_back _ _ _ _ Hwf' Hb He) as [w2 Hdec].
  exists e, (snd (CryptoContext.encryptMessage true (trim messageText) recipient w)).
  split; [|now rewrite Hdec].
  unfold handleSend, canEncrypt.
  destruct (trim messageText) as [|u r] eqn:Et; [congruence|].
  rewrite Ha, Hu. cbn [negb orb].
  assert (truthy (Some recipient) = true) as ->
    by (destruct recipient; [congruence|reflexivity]).
  js_unfold.
  destruct (CryptoContext.encryptMessage true (u :: r) recipient w) as [[e0|err] w1];
    [|discriminate].
  cbn [fst snd] in *. congruence.
Qed.

End SendFacts.

(** ** The provider: initialization *)

Section InitializationFacts.
Context {W : WebCrypto}.
Import CryptoService.

Variable axios_put_public_key : string -> M unit.
Variable platform_message : JsError -> string.

Abbreviation State := CryptoProvider.State.
Abbreviation andThen := CryptoProvider.andThen.
Abbreviation call := CryptoProvider.call.
Abbreviation set := CryptoProvider.set.
Abbreviation setPublicKey := CryptoProvider.setPublicKey.
Abbreviation setIsLoading := CryptoProvider.setIsLoading.
Abbreviation setIsInitialized := CryptoProvider.setIsInitialized.
Abbreviation setError := CryptoProvider.setError.
Abbreviation is_404 := CryptoProvider.is_404.
Abbreviation generate_and_upload :=
  (CryptoProvider.generate_and_upload axios_put_public_key).
Abbreviation initializeCrypto :=
  (CryptoProvider.initializeCrypto axios_put_public_key platform_message).
Abbreviation message_or_default :=
  (CryptoProvider.message_or_default platform_message).

Lemma savePrivateKey_frame userId (w : World) :
  keyPair (snd (savePrivateKey userId w)) = keyPair w
  /\ sharedKeys (snd (savePrivateKey userId w)) = sharedKeys w
  /\ entropy (snd (savePrivateKey userId w)) = entropy w
  /\ directory (snd (savePrivateKey userId w)) = directory w.
Proof.
  unfold savePrivateKey, localStorage_setItem. js_unfold.
  destruct (keyPair w) as [kp|] eqn:Hk; js_unfold; cbv beta iota zeta;
    [|cbn [snd]; rewrite ?Hk; auto].
  destruct (access_denied (localStorage w));
    [cbn [snd]; rewrite ?Hk; auto|].
  destruct (quota_exceeded (localStorage w)); cbn [snd]; rewrite ?Hk; auto.
Qed.

Lemma savePrivateKey_pair userId (w : World) :
  savePrivateKey userId w = (Ok tt, snd (savePrivateKey userId w)).
Proof.
  pose proof (savePrivateKey_ok userId w).
  destruct (savePrivateKey userId w) as [r w']. cbn in *. congruence.
Qed.

(** The world after key generation, and the key that is uploaded. *)
Lemma generate_and_upload_eq id st (w : World) :
  generate_and_upload id st w
  = match generateKey (fst (draw 32 (entropy w))) with
    | None =>
        (Throw (Error "Cryptography initialization failed"), st,
         set_entropy (snd (draw 32 (entropy w))) w)
    | Some d =>
        let pubKey := arrayBufferToBase64 (exportRaw (publicOf d)) in
        match axios_put_public_key pubKey
                (set_keyPair (Some {| privateKey := d; publicKey := Some (publicOf d) |})
                   (set_entropy (snd (draw 32 (entropy w))) w)) with
        | (Ok _, w2) =>
            (Ok tt, setPublicKey (Some pubKey) st, snd (savePrivateKey id w2))
        | (Throw e, w2) => (Throw e, setPublicKey (Some pubKey) st, w2)
        end
    end.
Proof.
  unfold CryptoProvider.generate_and_upload. unfold CryptoProvider.andThen at 1, CryptoProvider.call at 1.
  rewrite initialize_eq.
  destruct (generateKey _) as [d|]; [|reflexivity].
  unfold CryptoProvider.andThen at 1, CryptoProvider.call at 1.
  erewrite exportPublicKey_eq by reflexivity.
  unfold CryptoProvider.andThen at 1, CryptoProvider.set at 1.
  unfold CryptoProvider.andThen, CryptoProvider.call. cbv zeta.
  destruct (axios_put_public_key _ _) as [[[]|e] w2]; [|reflexivity].
  now rewrite savePrivateKey_pair.
Qed.

(** [initializeCrypto] past its two guards. *)
Lemma initializeCrypto_eq id forceReinit st (w : World) :
  id <> ""%string ->
  CryptoProvider.isInitialized st && negb forceReinit = false ->
  initializeCrypto (Some id) forceReinit st w
  = let st0 := setError None (setIsLoading true st) in
    let finish (x : Result unit * State * World) :=
      match x with
      | (Ok _, st1, w1) => (Ok true, setIsLoading false (setIsInitialized true st1), w1)
      | (Throw err, st1, w1) =>
          (Ok false,
           setIsLoading false (setError (Some (message_or_default err)) st1), w1)
      end in
    match loadPrivateKey id w with
    | (Ok false, w0) => finish (generate_and_upload id st0 w0)
    | (Ok true, w0) =>
        match directory w0 id with
        | Ok response => finish (Ok tt, setPublicKey (Some response) st0, w0)
        | Throw err =>
            if is_404 err then finish (generate_and_upload id st0 w0)
            else finish (Throw err, st0, w0)
        end
    | (Throw err, w0) => finish (Throw err, st0, w0)
    end.
Proof.
  intros Hid Hg. unfold CryptoProvider.initializeCrypto.
  unfold CryptoProvider.andThen at 1, CryptoProvider.state at 1.
  cbv beta iota. rewrite Hg.
  destruct id as [|c id']; [congruence|].
  unfold CryptoProvider.andThen at 1 2, CryptoProvider.set at 1 2,
    CryptoProvider.try_catch_finally.
  unfold CryptoProvider.andThen at 1, CryptoProvider.call at 1.
  destruct (loadPrivateKey (String c id') w) as [[[|]|err] w0]; cbv zeta.
  - cbn [negb]. unfold CryptoProvider.andThen at 1, CryptoProvider.catch,
      CryptoProvider.andThen at 1, CryptoProvider.call at 1,
      CryptoContext.axios_get_public_key.
    destruct (directory w0 (String c id')) as [response|err].
    + reflexivity.
    + destruct (is_404 err).
      * destruct (CryptoProvider.generate_and_upload _ _ _ _) as [[[[]|e] st1] w1];
          reflexivity.
      * reflexivity.
  - cbn [negb]. unfold CryptoProvider.andThen at 1.
    destruct (CryptoProvider.generate_and_upload _ _ _ _) as [[[[]|e] st1] w1];
      reflexivity.
  - reflexivity.
Qed.

Lemma initializeCrypto_skip user_id forceReinit st (w : World) :
  CryptoProvider.isInitialized st && negb forceReinit = true ->
  initializeCrypto user_id forceReinit st w = (Ok true, st, w).
Proof.
  intros Hg. unfold CryptoProvider.initializeCrypto, CryptoProvider.andThen at 1,
    CryptoProvider.state at 1. cbv beta iota. now rewrite Hg.
Qed.

Lemma initializeCrypto_no_user user_id forceReinit st (w : World) :
  CryptoProvider.isInitialized st && negb forceReinit = false ->
  ChatPage.truthy user_id = false ->
  initializeCrypto user_id forceReinit st w = (Ok false, st, w).
Proof.
  intros Hg Hu. unfold CryptoProvider.initializeCrypto, CryptoProvider.andThen at 1,
    CryptoProvider.state at 1. cbv beta iota. rewrite Hg.
  now destruct user_id as [[|c id']|].
Qed.

Lemma generate_and_upload_attempted id st (w : World) :
  CryptoProvider.initializationAttempted
    (CryptoProvider.state_after (generate_and_upload id st w))
  = CryptoProvider.initializationAttempted st
  /\ CryptoProvider.isInitialized
       (CryptoProvider.state_after (generate_and_upload id st w))
     = CryptoProvider.isInitialized st
  /\ CryptoProvider.error
       (CryptoProvider.state_after (generate_and_upload id st w))
     = CryptoProvider.error st.
Proof.
  rewrite generate_and_upload_eq.
  destruct (generateKey _) as [d|]; [|now repeat split].
  cbv zeta. now destruct (axios_put_public_key _ _) as [[[]|e] w2].
Qed.

(** X16. [initializeCrypto] never throws. Without a logged-in user it answers
    [false], and when the provider is already initialized and no
    re-initialization is forced it answers [true], in both cases without
    doing anything. When it runs, it ends with [isLoading] false; on [true]
    it has set [isInitialized] and cleared [error]; on [false] it has set
    [error] and left [isInitialized] as it was. *)
Theorem initializeCrypto_outcome user_id forceReinit st (w : World) :
  (exists b,
     CryptoProvider.returned (initializeCrypto user_id forceReinit st w) = Ok b)
  /\ (CryptoProvider.isInitialized st && negb forceReinit = true ->
      initializeCrypto user_id forceReinit st w = (Ok true, st, w))
  /\ (CryptoProvider.isInitialized st && negb forceReinit = false ->
      ChatPage.truthy user_id = false ->
      initializeCrypto user_id forceReinit st w = (Ok false, st, w))
  /\ (CryptoProvider.isInitialized st && negb forceReinit = false ->
      ChatPage.truthy user_id = true ->
      let r := initializeCrypto user_id forceReinit st w in
      CryptoProvider.isLoading (CryptoProvider.state_after r) = false
      /\ (CryptoProvider.returned r = Ok true
          /\ CryptoProvider.isInitialized (CryptoProvider.state_after r) = true
          /\ CryptoProvider.error (CryptoProvider.state_after r) = None
          \/ CryptoProvider.returned r = Ok false
             /\ CryptoProvider.isInitialized (CryptoProvider.state_after r)
                = CryptoProvider.isInitialized st
             /\ exists m,
                  CryptoProvider.error (CryptoProvider.state_after r) = Some m)).
Proof.
  destruct (CryptoProvider.isInitialized st && negb forceReinit) eqn:Hg.
  { rewrite (initializeCrypto_skip _ _ _ _ Hg).
    split; [now exists true|]. repeat split; intros; discriminate. }
  destruct user_id as [[|c id']|].
  1,3: rewrite initializeCrypto_no_user by (assumption || reflexivity);
       (split; [now exists false|]); repeat split; intros; discriminate.
  rewrite (initializeCrypto_eq (String c id') forceReinit st w ltac:(discriminate) Hg).
  cbv zeta.
  assert (forall st0 (w0 : World),
            CryptoProvider.isInitialized st0 = CryptoProvider.isInitialized st ->
            CryptoProvider.error st0 = None ->
            let r :=
              match generate_and_upload (String c id') st0 w0 with
              | (Ok _, st1, w1) =>
                  (Ok true, setIsLoading false (setIsInitialized true st1), w1)
              | (Throw err, st1, w1) =>
                  (Ok false,
                   setIsLoading false (setError (Some (message_or_default err)) st1),
                   w1)
              end in
            (exists b, CryptoProvider.returned r = Ok b)
            /\ CryptoProvider.isLoading (CryptoProvider.state_after r) = false
            /\ (CryptoProvider.returned r = Ok true
                /\ CryptoProvider.isInitialized (CryptoProvider.state_after r) = true
                /\ CryptoProvider.error (CryptoProvider.state_after r) = None
                \/ CryptoProvider.returned r = Ok false
                   /\ CryptoProvider.isInitialized (CryptoProvider.state_after r)
                      = CryptoProvider.isInitialized st
                   /\ exists m,
                        CryptoProvider.error (CryptoProvider.state_after r) = Some m))
    as Hgen.
  { intros st0 w0 Hi He.
    destruct (generate_and_upload_attempted (String c id') st0 w0) as (_ & Hi' & He').
    destruct (generate_and_upload (String c id') st0 w0) as [[[[]|e] st1] w1];
      cbn in *.
    - split; [eauto|]. split; [reflexivity|]. left. repeat split. congruence.
    - split; [eauto|]. split; [reflexivity|]. right. split; [reflexivity|].
      split; [congruence|eauto]. }
  destruct (loadPrivateKey (String c id') w) as [[[|]|err] w0].
  - destruct (directory w0 (String c id')) as [response|err].
    + split; [now exists true|]. split; [intros; discriminate|]. split; [intros; discriminate|].
      intros _ _. cbn. split; [reflexivity|]. left. auto.
    + destruct (CryptoProvider.is_404 err).
      * destruct (Hgen (setError None (setIsLoading true st)) w0 eq_refl eq_refl)
          as (H1 & H2 & H3).
        split; [exact H1|]. split; [intros; discriminate|]. split; [intros; discriminate|].
        intros _ _. split; assumption.
      * split; [now exists false|]. split; [intros; discriminate|]. split; [intros; discriminate|].
        intros _ _. cbn. split; [reflexivity|]. right. eauto.
  - destruct (Hgen (setError None (setIsLoading true st)) w0 eq_refl eq_refl)
      as (H1 & H2 & H3).
    split; [exact H1|]. split; [intros; discriminate|]. split; [intros; discriminate|].
    intros _ _. split; assumption.
  - split; [now exists false|]. split; [intros; discriminate|]. split; [intros; discriminate|].
    intros _ _. cbn. split; [reflexivity|]. right. eauto.
Qed.

End InitializationFacts.

(** ** The provider and the server

    The upload of the public key is a request to the server: it does not
    touch the key pair or the storage of the browser. *)

Section SessionFacts.
Context {W : WebCrypto}.
Import CryptoService.

Variable axios_put_public_key : string -> M unit.
Variable platform_message : JsError -> string.

Hypothesis put_keeps_keys :
  forall pubKey (w : World),
    keyPair (snd (axios_put_public_key pubKey w)) = keyPair w
    /\ localStorage (snd (axios_put_public_key pubKey w)) = localStorage w.

Abbreviation State := CryptoProvider.State.
Abbreviation generate_and_upload :=
  (CryptoProvider.generate_and_upload axios_put_public_key).
Abbreviation initializeCrypto :=
  (CryptoProvider.initializeCrypto axios_put_public_key platform_message).
Abbreviation autoInitialize :=
  (CryptoProvider.autoInitialize axios_put_public_key platform_message).
Abbreviation returned := CryptoProvider.returned.
Abbreviation state_after := CryptoProvider.state_after.
Abbreviation world_after := CryptoProvider.world_after.




Lemma initializeCrypto_attempted user_id forceReinit st (w : World) :
  CryptoProvider.initializationAttempted
    (state_after (initializeCrypto user_id forceReinit st w))
  = CryptoProvider.initializationAttempted st.
Proof.
  destruct (CryptoProvider.isInitialized st && negb forceReinit) eqn:Hg.
  { now rewrite initializeCrypto_skip. }
  destruct (ChatPage.truthy user_id) eqn:Hu; [|now rewrite initializeCrypto_no_user].
  destruct user_id as [[|c id']|]; try discriminate.
  rewrite (initializeCrypto_eq _ _ (String c id') forceReinit st w ltac:(discriminate) Hg).
  cbv zeta.
  assert (forall st0 (w0 : World),
            CryptoProvider.initializationAttempted st0
            = CryptoProvider.initializationAttempted st ->
            CryptoProvider.initializationAttempted
              (state_after
                 match generate_and_upload (String c id') st0 w0 with
                 | (Ok _, st1, w1) =>
                     (Ok true,
                      CryptoProvider.setIsLoading false
                        (CryptoProvider.setIsInitialized true st1), w1)
                 | (Throw err, st1, w1) =>
                     (Ok false,
                      CryptoProvider.setIsLoading false
                        (CryptoProvider.setError
                           (Some (CryptoProvider.message_or_default platform_message err))
                           st1), w1)
                 end)
            = CryptoProvider.initializationAttempted st) as Hgen.
  { intros st0 w0 Hi.
    destruct (generate_and_upload_attempted axios_put_public_key (String c id') st0 w0)
      as (Ha & _).
    destruct (generate_and_upload (String c id') st0 w0) as [[[[]|e] st1] w1];
      cbn in *; congruence. }
  destruct (loadPrivateKey (String c id') w) as [[[|]|err] w0].
  - destruct (directory w0 (String c id')) as [response|err]; [reflexivity|].
    destruct (CryptoProvider.is_404 err); [now apply Hgen|reflexivity].
  - now apply Hgen.
  - reflexivity.
Qed.

Lemma autoInitialize_eq user_id st (w : World) :
  autoInitialize user_id st w
  = if ChatPage.truthy user_id then
      if negb (CryptoProvider.isInitialized st) && negb (CryptoProvider.isLoading st)
         && negb (CryptoProvider.initializationAttempted st)
      then
        match initializeCrypto user_id false
                (CryptoProvider.setInitializationAttempted true st) w with
        | (Ok _, st1, w1) => (Ok tt, st1, w1)
        | (Throw e, st1, w1) => (Throw e, st1, w1)
        end
      else (Ok tt, st, w)
    else (Ok tt, CryptoProvider.setInitializationAttempted false st, w).
Proof.
  unfold CryptoProvider.autoInitialize.
  unfold CryptoProvider.andThen at 1, CryptoProvider.state at 1. cbv beta iota.
  destruct (ChatPage.truthy user_id); cbn [andb negb]; [|reflexivity].
  destruct (negb (CryptoProvider.isInitialized st) && negb (CryptoProvider.isLoading st)
            && negb (CryptoProvider.initializationAttempted st)); [|reflexivity].
  unfold CryptoProvider.andThen at 1 2, CryptoProvider.set at 1.
  unfold CryptoProvider.andThen at 1.
  now destruct (CryptoProvider.initializeCrypto _ _ user_id false _ w)
    as [[[b|e] st1] w1].
Qed.


(** X18. The initializing effect runs [initializeCrypto] at most once per
    session: run again for the same logged-in user, whether or not the
    initialization succeeded, it does nothing. *)
Theorem autoInitialize_once user_id st (w : World) :
  ChatPage.truthy user_id = true ->
  autoInitialize user_id
    (state_after (autoInitialize user_id st w))
    (world_after (autoInitialize user_id st w))
  = (Ok tt, state_after (autoInitialize user_id st w),
     world_after (autoInitialize user_id st w)).
Proof.
  intros Hu.
  assert (forall st' (w' : World),
            negb (CryptoProvider.isInitialized st') && negb (CryptoProvider.isLoading st')
            && negb (CryptoProvider.initializationAttempted st') = false ->
            autoInitialize user_id st' w' = (Ok tt, st', w')) as Hidle.
  { intros st' w' Hg. now rewrite autoInitialize_eq, Hu, Hg. }
  destruct (negb (CryptoProvider.isInitialized st) && negb (CryptoProvider.isLoading st)
            && negb (CryptoProvider.initializationAttempted st)) eqn:Hg.
  2:{ rewrite (Hidle st w Hg). now apply Hidle. }
  assert (CryptoProvider.initializationAttempted
            (state_after (autoInitialize user_id st w)) = true) as Ha.
  { rewrite autoInitialize_eq, Hu, Hg.
    pose proof (initializeCrypto_attempted user_id false
                  (CryptoProvider.setInitializationAttempted true st) w) as Hk.
    now destruct (CryptoProvider.initializeCrypto _ _ user_id false _ w)
      as [[[b|e] st1] w1]. }
  apply Hidle. rewrite Ha. now rewrite !andb_false_r.
Qed.

Lemma loadPrivateKey_false id (w : World) :
  fst (loadPrivateKey id w) = Ok false -> loadPrivateKey id w = (Ok false, w).
Proof.
  rewrite loadPrivateKey_eq.
  destruct (access_denied (localStorage w)); [reflexivity|].
  destruct (items (localStorage w) !! storage_key id) as [b|]; [|reflexivity].
  destruct (String.eqb b ""); [reflexivity|].
  destruct (field_bytes b); [|reflexivity].
  destruct (importPkcs8 _); [discriminate|reflexivity].
Qed.

Lemma loadPrivateKey_stored {E : EcdhLaws W} id (w : World) d :
  access_denied (localStorage w) = false ->
  items (localStorage w) !! storage_key id
    = Some (arrayBufferToBase64 (exportPkcs8 d)) ->
  loadPrivateKey id w
  = (Ok true, set_keyPair (Some {| privateKey := d; publicKey := None |}) w).
Proof.
  intros Ha Hi. rewrite loadPrivateKey_eq, Ha, Hi.
  pose proof (base64_nonempty _ (exportPkcs8_nonempty d)) as Hne.
  destruct (String.eqb_spec (arrayBufferToBase64 (exportPkcs8 d)) "") as [E0|_];
    [congruence|].
  now rewrite field_bytes_base64, importPkcs8_exportPkcs8.
Qed.

(** The world a successful generation leaves: the fresh pair in the service,
    its public half uploaded, its private half stored when the storage takes
    it. *)
Lemma generate_and_upload_ok id st (w : World) d :
  generateKey (fst (draw 32 (entropy w))) = Some d ->
  (forall w1 : World,
     fst (axios_put_public_key (arrayBufferToBase64 (exportRaw (publicOf d))) w1)
     = Ok tt) ->
  exists w2 : World,
    generate_and_upload id st w
    = (Ok tt,
       CryptoProvider.setPublicKey
         (Some (arrayBufferToBase64 (exportRaw (publicOf d)))) st,
       snd (savePrivateKey id w2))
    /\ w2 = snd (axios_put_public_key (arrayBufferToBase64 (exportRaw (publicOf d)))
                   (set_keyPair
                      (Some {| privateKey := d; publicKey := Some (publicOf d) |})
                      (set_entropy (snd (draw 32 (entropy w))) w)))
    /\ keyPair w2 = Some {| privateKey := d; publicKey := Some (publicOf d) |}
    /\ localStorage w2 = localStorage w.
Proof.
  intros Hg Hput. rewrite generate_and_upload_eq, Hg. cbv zeta.
  specialize (Hput (set_keyPair
                      (Some {| privateKey := d; publicKey := Some (publicOf d) |})
                      (set_entropy (snd (draw 32 (entropy w))) w))).
  destruct (put_keeps_keys (arrayBufferToBase64 (exportRaw (publicOf d)))
              (set_keyPair (Some {| privateKey := d; publicKey := Some (publicOf d) |})
                 (set_entropy (snd (draw 32 (entropy w))) w))) as [Hk Hs].
  destruct (axios_put_public_key _ _) as [[[]|e] w2]; [|discriminate].
  exists w2. cbn [snd] in *. now repeat split.
Qed.

Lemma savePrivateKey_stores id (w : World) kp :
  keyPair w = Some kp ->
  access_denied (localStorage w) = false ->
  quota_exceeded (localStorage w) = false ->
  items (localStorage (snd (savePrivateKey id w))) !! storage_key id
  = Some (arrayBufferToBase64 (exportPkcs8 (privateKey kp)))
  /\ access_denied (localStorage (snd (savePrivateKey id w))) = false.
Proof.
  intros Hk Ha Hq. rewrite (savePrivateKey_eq id w kp Hk Ha Hq).
  cbn [snd localStorage set_localStorage items access_denied].
  split; [apply lookup_insert_eq|reflexivity].
Qed.

(** X19. First login. Nothing is stored for the user (or the storage cannot be
    read), key generation succeeds and the server accepts the upload and
    then serves the key: [initializeCrypto] answers [true], the service
    holds a complete key pair, the provider's [publicKey] and the directory
    entry of the user are the export of its public half, and a writable
    storage holds the export of its private half under the user's id. *)
Theorem first_login id st (w : World) d :
  id <> ""%string ->
  CryptoProvider.isInitialized st = false ->
  fst (loadPrivateKey id w) = Ok false ->
  generateKey (fst (draw 32 (entropy w))) = Some d ->
  (forall w1 : World,
     fst (axios_put_public_key (arrayBufferToBase64 (exportRaw (publicOf d))) w1)
     = Ok tt) ->
  (forall pubKey (w1 : World),
     fst (axios_put_public_key pubKey w1) = Ok tt ->
     directory (snd (axios_put_public_key pubKey w1)) id = Ok pubKey) ->
  let r := initializeCrypto (Some id) false st w in
  let pubKey := arrayBufferToBase64 (exportRaw (publicOf d)) in
  returned r = Ok true
  /\ CryptoProvider.isInitialized (state_after r) = true
  /\ CryptoProvider.publicKey (state_after r) = Some pubKey
  /\ keyPair (world_after r)
     = Some {| privateKey := d; publicKey := Some (publicOf d) |}
  /\ directory (world_after r) id = Ok pubKey
  /\ (access_denied (localStorage w) = false ->
      quota_exceeded (localStorage w) = false ->
      items (localStorage (world_after r)) !! storage_key id
      = Some (arrayBufferToBase64 (exportPkcs8 d))).
Proof.
  intros Hid Hi Hl Hg Hput Hpub. cbv zeta.
  rewrite (initializeCrypto_eq _ _ id false st w Hid) by now rewrite Hi.
  cbv zeta. rewrite (loadPrivateKey_false id w Hl).
  destruct (generate_and_upload_ok id
              (CryptoProvider.setError None (CryptoProvider.setIsLoading true st))
              w d Hg Hput) as (w2 & -> & Hw2 & Hk & Hs).
  unfold CryptoProvider.returned, CryptoProvider.state_after,
    CryptoProvider.world_after. cbn [fst snd].
  destruct (savePrivateKey_frame id w2) as (Fk & _ & _ & Fd).
  split; [reflexivity|]. split; [reflexivity|]. split; [reflexivity|].
  split; [congruence|]. split.
  - rewrite Fd, Hw2. apply Hpub, Hput.
  - intros Ha Hq.
    apply (savePrivateKey_stores id w2 _ Hk); congruence.
Qed.

Lemma clearCrypto_eq st (w : World) :
  CryptoProvider.clearCrypto st w
  = (Ok tt,
     CryptoProvider.setInitializationAttempted false
       (CryptoProvider.setError None
          (CryptoProvider.setPublicKey None
             (CryptoProvider.setIsInitialized false st))),
     set_keyPair None (set_sharedKeys ∅ w)).
Proof. reflexivity. Qed.

(** Login with a stored key and a key on the server: the stored private key
    is loaded, nothing is generated and nothing is uploaded. *)
Lemma initializeCrypto_reload {E : EcdhLaws W} id st (w : World) d response :
  id <> ""%string ->
  CryptoProvider.isInitialized st = false ->
  access_denied (localStorage w) = false ->
  items (localStorage w) !! storage_key id
    = Some (arrayBufferToBase64 (exportPkcs8 d)) ->
  directory w id = Ok response ->
  initializeCrypto (Some id) false st w
  = (Ok true,
     CryptoProvider.setIsLoading false
       (CryptoProvider.setIsInitialized true
          (CryptoProvider.setPublicKey (Some response)
             (CryptoProvider.setError None (CryptoProvider.setIsLoading true st)))),
     set_keyPair (Some {| privateKey := d; publicKey := None |}) w).
Proof.
  intros Hid Hi Ha Hitem Hd.
  rewrite (initializeCrypto_eq _ _ id false st w Hid) by now rewrite Hi.
  cbv zeta. rewrite (loadPrivateKey_stored id w d Ha Hitem).
  cbn [directory set_keyPair]. now rewrite Hd.
Qed.

(** X20. The identity survives a logout. After a first login as above with a
    writable storage, [clearCrypto] and a second [initializeCrypto] for the
    same user answer [true] with the same private key in the service and the
    same public key in the provider; no key is generated and the directory
    is not changed. *)
Theorem login_logout_login {E : EcdhLaws W} id st (w : World) d :
  id <> ""%string ->
  CryptoProvider.isInitialized st = false ->
  fst (loadPrivateKey id w) = Ok false ->
  generateKey (fst (draw 32 (entropy w))) = Some d ->
  access_denied (localStorage w) = false ->
  quota_exceeded (localStorage w) = false ->
  (forall w1 : World,
     fst (axios_put_public_key (arrayBufferToBase64 (exportRaw (publicOf d))) w1)
     = Ok tt) ->
  (forall pubKey (w1 : World),
     fst (axios_put_public_key pubKey w1) = Ok tt ->
     directory (snd (axios_put_public_key pubKey w1)) id = Ok pubKey) ->
  let r1 := initializeCrypto (Some id) false st w in
  let r2 := CryptoProvider.clearCrypto (state_after r1) (world_after r1) in
  let r3 := initializeCrypto (Some id) false (state_after r2) (world_after r2) in
  returned r3 = Ok true
  /\ CryptoProvider.isInitialized (state_after r3) = true
  /\ CryptoProvider.publicKey (state_after r3)
     = CryptoProvider.publicKey (state_after r1)
  /\ keyPair (world_after r3) = Some {| privateKey := d; publicKey := None |}
  /\ entropy (world_after r3) = entropy (world_after r1)
  /\ directory (world_after r3) = directory (world_after r1).
Proof.
  intros Hid Hi Hl Hg Ha Hq Hput Hpub.
  destruct (generate_and_upload_ok id
              (CryptoProvider.setError None (CryptoProvider.setIsLoading true st))
              w d Hg Hput) as (w2 & Egen & Hw2 & Hk & Hs).
  destruct (savePrivateKey_frame id w2) as (Fk & _ & Fe & Fd).
  destruct (savePrivateKey_stores id w2 _ Hk) as [Hitem Hacc]; [congruence..|].
  remember (snd (savePrivateKey id w2)) as w3 eqn:Ew3 in *.
  assert (directory w3 id = Ok (arrayBufferToBase64 (exportRaw (publicOf d)))) as Hd.
  { rewrite Fd, Hw2. apply Hpub, Hput. }
  assert (initializeCrypto (Some id) false st w
          = (Ok true,
             CryptoProvider.setIsLoading false
               (CryptoProvider.setIsInitialized true
                  (CryptoProvider.setPublicKey
                     (Some (arrayBufferToBase64 (exportRaw (publicOf d))))
                     (CryptoProvider.setError None
                        (CryptoProvider.setIsLoading true st)))), w3)) as E1.
  { rewrite (initializeCrypto_eq _ _ id false st w Hid) by now rewrite Hi.
    cbv zeta. now rewrite (loadPrivateKey_false id w Hl), Egen. }
  cbv zeta. rewrite E1.
  unfold CryptoProvider.returned, CryptoProvider.state_after,
    CryptoProvider.world_after.
  cbn [fst snd]. rewrite !clearCrypto_eq. cbn [fst snd].
  rewrite !(initializeCrypto_reload id _ _ d
              (arrayBufferToBase64 (exportRaw (publicOf d)))) by
    (assumption || reflexivity).
  cbn [fst snd]. now repeat split.
Qed.

(** X21. When the stored private key loads but the server has no public key for
    the user (404), a new pair is generated and uploaded, and a writable
    storage then holds the new private key in place of the old one. *)
Theorem initializeCrypto_regenerates {E : EcdhLaws W} id st (w : World) d0 d :
  id <> ""%string ->
  CryptoProvider.isInitialized st = false ->
  access_denied (localStorage w) = false ->
  quota_exceeded (localStorage w) = false ->
  items (localStorage w) !! storage_key id
    = Some (arrayBufferToBase64 (exportPkcs8 d0)) ->
  directory w id = Throw (AxiosError (Some 404)) ->
  generateKey (fst (draw 32 (entropy w))) = Some d ->
  (forall w1 : World,
     fst (axios_put_public_key (arrayBufferToBase64 (exportRaw (publicOf d))) w1)
     = Ok tt) ->
  let r := initializeCrypto (Some id) false st w in
  returned r = Ok true
  /\ keyPair (world_after r)
     = Some {| privateKey := d; publicKey := Some (publicOf d) |}
  /\ CryptoProvider.publicKey (state_after r)
     = Some (arrayBufferToBase64 (exportRaw (publicOf d)))
  /\ items (localStorage (world_after r)) !! storage_key id
     = Some (arrayBufferToBase64 (exportPkcs8 d)).
Proof.
  intros Hid Hi Ha Hq Hitem Hdir Hg Hput. cbv zeta.
  rewrite (initializeCrypto_eq _ _ id false st w Hid) by now rewrite Hi.
  cbv zeta. rewrite (loadPrivateKey_stored id w d0 Ha Hitem).
  cbn [directory set_keyPair]. rewrite Hdir. cbn [CryptoProvider.is_404 N.eqb Pos.eqb].
  destruct (generate_and_upload_ok id
              (CryptoProvider.setError None (CryptoProvider.setIsLoading true st))
              (set_keyPair (Some {| privateKey := d0; publicKey := None |}) w) d Hg Hput)
    as (w2 & -> & Hw2 & Hk & Hs).
  unfold CryptoProvider.returned, CryptoProvider.state_after,
    CryptoProvider.world_after. cbn [fst snd].
  destruct (savePrivateKey_frame id w2) as (Fk & _).
  split; [reflexivity|]. split; [congruence|]. split; [reflexivity|].
  apply (savePrivateKey_stores id w2 _ Hk); rewrite Hs; assumption.
Qed.

End SessionFacts.

(** ** The chat page: decrypting and showing messages *)

Section MessageFacts.
Context {W : WebCrypto}.
Import ChatMessages.

Lemma decrypt_one_ok isCryptoInitialized dm contact msg (w : World) :
  exists entry,
    fst (decrypt_one isCryptoInitialized dm contact msg w) = Ok entry.
Proof.
  unfold decrypt_one.
  destruct (truthy_text (dm !! id msg) || negb (isEncrypted msg)); [cbn; eauto|].
  unfold try_catch.
  destruct (otherUserId contact msg) as [other|]; [|cbn; eauto].
  destruct (CryptoContext.decryptMessage _ _ other w) as [[s|e] w']; cbn; eauto.
Qed.

Lemma decrypt_one_settled isCryptoInitialized dm contact msg (w : World) :
  truthy_text (dm !! id msg) || negb (isEncrypted msg) = true ->
  decrypt_one isCryptoInitialized dm contact msg w
  = (Ok (or_text (dm !! id msg) (text msg)), w).
Proof. intros H. unfold decrypt_one. now rewrite H. Qed.

Lemma decrypt_all_cons isCryptoInitialized dm contact msg rest acc (w : World) :
  decrypt_all isCryptoInitialized dm contact (msg :: rest) acc w
  = match decrypt_one isCryptoInitialized dm contact msg w with
    | (Ok entry, w') =>
        decrypt_all isCryptoInitialized dm contact rest (<[id msg := entry]> acc) w'
    | (Throw e, w') => (Throw e, w')
    end.
Proof. reflexivity. Qed.

(** The loop never throws; it writes an entry for every message, keeps the
    entries written before, and writes a non-empty cached text back as it
    is. *)
Lemma decrypt_all_spec isCryptoInitialized dm contact messages :
  forall acc (w : World),
    exists result,
      fst (decrypt_all isCryptoInitialized dm contact messages acc w) = Ok result
      /\ (forall msg, In msg messages -> is_Some (result !! id msg))
      /\ (forall k, is_Some (acc !! k) -> is_Some (result !! k))
      /\ (forall k v, dm !! k = Some v -> v <> [] ->
          (acc !! k = None \/ acc !! k = Some v) ->
          result !! k = None \/ result !! k = Some v).
Proof.
  induction messages as [|msg rest IH]; intros acc w.
  { exists acc. cbn. repeat split; [intros msg []|auto|auto]. }
  rewrite decrypt_all_cons.
  pose proof (decrypt_one_settled isCryptoInitialized dm contact msg w) as Hs.
  destruct (decrypt_one_ok isCryptoInitialized dm contact msg w) as [entry He].
  destruct (decrypt_one isCryptoInitialized dm contact msg w) as [[entry'|e] w'];
    cbn [fst] in He; [|discriminate].
  injection He as ->.
  destruct (IH (<[id msg := entry]> acc) w') as (result & Hr & Hall & Hkeep & Hc).
  exists result. split; [exact Hr|]. split; [|split].
  - intros m [<-|Hin]; [|now apply Hall].
    apply Hkeep. rewrite lookup_insert_eq. eauto.
  - intros k Hk. apply Hkeep.
    destruct (decide (id msg = k)) as [<-|Hne];
      [rewrite lookup_insert_eq; eauto|now rewrite lookup_insert_ne].
  - intros k v Hd Hv Hacc. apply (Hc k v Hd Hv).
    destruct (decide (id msg = k)) as [<-|Hne]; [|now rewrite lookup_insert_ne].
    rewrite lookup_insert_eq. right.
    assert (truthy_text (dm !! id msg) || negb (isEncrypted msg) = true) as Ht.
    { rewrite Hd. destruct v; [congruence|reflexivity]. }
    specialize (Hs Ht). injection Hs as -> _. rewrite Hd.
    destruct v; [congruence|reflexivity].
Qed.

(** X22. [decryptMessagesAsync] never throws. It keeps every entry of
    [decryptedMessages] whose text is not empty, drops no key, and, when it
    runs (there are messages, crypto is initialized, a user and an active
    contact are present), leaves an entry for every message. *)
Theorem decryptMessagesAsync_covers messages isCryptoInitialized user_present
    activeContact dm (w : World) :
  exists result,
    fst (decryptMessagesAsync messages isCryptoInitialized user_present
           activeContact dm w) = Ok result
    /\ (forall k v, dm !! k = Some v -> v <> [] -> result !! k = Some v)
    /\ (forall k, is_Some (dm !! k) -> is_Some (result !! k))
    /\ (isCryptoInitialized = true -> user_present = true ->
        is_Some activeContact ->
        forall msg, In msg messages -> is_Some (result !! id msg)).
Proof.
  unfold decryptMessagesAsync.
  destruct messages as [|m0 rest].
  { exists dm. cbn. repeat split; auto. intros _ _ _ msg []. }
  destruct activeContact as [contact|].
  2:{ exists dm. cbn. repeat split; auto. intros _ _ [c Hc]. discriminate. }
  destruct (isCryptoInitialized && user_present) eqn:Hg.
  2:{ exists dm. cbn. repeat split; auto. intros -> ->. discriminate. }
  destruct (decrypt_all_spec isCryptoInitialized dm contact (m0 :: rest) ∅ w)
    as (result & Hr & Hall & _ & Hc).
  unfold bind.
  destruct (decrypt_all isCryptoInitialized dm contact (m0 :: rest) ∅ w)
    as [[r|e] w']; cbn [fst] in Hr; [|discriminate].
  injection Hr as ->. exists (result ∪ dm). split; [reflexivity|].
  split; [|split].
  - intros k v Hd Hv. apply lookup_union_Some_raw.
    destruct (Hc k v Hd Hv (or_introl (lookup_empty k))) as [Hn|Hs]; auto.
  - intros k [v Hv].
    destruct (result !! k) as [v'|] eqn:Hres.
    + exists v'. apply lookup_union_Some_raw. auto.
    + exists v. apply lookup_union_Some_raw. auto.
  - intros _ _ _ msg Hin. destruct (Hall msg Hin) as [v Hv].
    exists v. apply lookup_union_Some_raw. auto.
Qed.

Lemma decrypt_all_other isCryptoInitialized dm contact messages :
  forall acc (w : World) result k,
    fst (decrypt_all isCryptoInitialized dm contact messages acc w) = Ok result ->
    ~ In k (map id messages) -> result !! k = acc !! k.
Proof.
  induction messages as [|msg rest IH]; intros acc w result k Hr Hk.
  { cbn in Hr. now injection Hr as ->. }
  rewrite decrypt_all_cons in Hr.
  destruct (decrypt_one isCryptoInitialized dm contact msg w) as [[entry|e] w'];
    [|discriminate].
  rewrite (IH _ _ _ k Hr) by (intros Hin; apply Hk; now right).
  apply lookup_insert_ne. intros E. apply Hk. now left.
Qed.

Lemma decrypt_all_settled isCryptoInitialized dm contact messages :
  NoDup (map id messages) ->
  forall acc (w : World) result msg,
    fst (decrypt_all isCryptoInitialized dm contact messages acc w) = Ok result ->
    In msg messages ->
    truthy_text (dm !! id msg) || negb (isEncrypted msg) = true ->
    result !! id msg = Some (or_text (dm !! id msg) (text msg)).
Proof.
  induction messages as [|x rest IH]; intros Hnd acc w result msg Hr Hin Hs;
    [destruct Hin|].
  apply NoDup_cons in Hnd as [Hx Hnd]. rewrite decrypt_all_cons in Hr.
  destruct Hin as [->|Hin].
  - rewrite (decrypt_one_settled _ _ _ _ _ Hs) in Hr.
    rewrite (decrypt_all_other _ _ _ _ _ _ _ _ Hr) by (now rewrite <- list_elem_of_In).
    apply lookup_insert_eq.
  - destruct (decrypt_one isCryptoInitialized dm contact x w) as [[entry|e] w'];
      [|discriminate].
    now apply (IH Hnd _ _ _ _ Hr).
Qed.

Lemma decrypt_all_idle isCryptoInitialized dm contact messages :
  Forall (fun msg => truthy_text (dm !! id msg) || negb (isEncrypted msg) = true)
    messages ->
  forall acc (w : World),
    snd (decrypt_all isCryptoInitialized dm contact messages acc w) = w.
Proof.
  induction 1 as [|msg rest Hm _ IH]; intros acc w; [reflexivity|].
  now rewrite decrypt_all_cons, (decrypt_one_settled _ _ _ _ _ Hm).
Qed.

(** X23. Messages that are not encrypted, and messages whose decryption is
    already known, cost nothing: with distinct message ids, the entry of such
    a message is its known decryption or else its text, and when every
    message is of this kind no key is fetched or derived and nothing is
    decrypted. *)
Theorem decryptMessagesAsync_settled messages user_present contact dm (w : World) :
  NoDup (map id messages) ->
  exists result,
    fst (decryptMessagesAsync messages true user_present (Some contact) dm w)
    = Ok result
    /\ (user_present = true ->
        forall msg, In msg messages ->
          truthy_text (dm !! id msg) || negb (isEncrypted msg) = true ->
          result !! id msg = Some (or_text (dm !! id msg) (text msg)))
    /\ (Forall (fun msg => truthy_text (dm !! id msg)
                           || negb (isEncrypted msg) = true) messages ->
        snd (decryptMessagesAsync messages true user_present (Some contact) dm w)
        = w).
Proof.
  intros Hnd. unfold decryptMessagesAsync.
  destruct messages as [|m0 rest].
  { exists dm. cbn. repeat split; auto. intros _ msg []. }
  destruct user_present; cbn [andb].
  2:{ exists dm. cbn. repeat split; auto. discriminate. }
  pose proof (decrypt_all_settled true dm contact (m0 :: rest) Hnd ∅ w) as Hs.
  pose proof (fun Hf => decrypt_all_idle true dm contact (m0 :: rest) Hf ∅ w) as Hi.
  destruct (decrypt_all_spec true dm contact (m0 :: rest) ∅ w) as (result & Hr & _).
  unfold bind.
  destruct (decrypt_all true dm contact (m0 :: rest) ∅ w) as [[r|e] w'];
    cbn [fst] in Hr; [|discriminate].
  injection Hr as ->. exists (result ∪ dm). split; [reflexivity|]. split.
  - intros _ msg Hin Hm. apply lookup_union_Some_raw. left.
    now apply (Hs result msg eq_refl).
  - intros Hf. exact (Hi Hf).
Qed.

End MessageFacts.

Section DisplayFacts.
Context {W : WebCrypto}.
Import ChatMessages.

(** X24. A message the user sent encrypted is shown to them as what they typed.
    The message comes back from the server with sender ['me'], the
    recipient as receiver and the envelope that [encryptMessage] produced;
    in the same session [decryptMessagesAsync] finds its text and
    [displayMessages] shows it. *)
Theorem sent_message_is_shown {G : AesGcmLaws W}
    plaintext recipient (w : World) e msg contact dm :
  TextCodec.well_formed plaintext = true ->
  TextCodec.starts_with_bom plaintext = false ->
  plaintext <> [] -> recipient <> ""%string ->
  fst (CryptoContext.encryptMessage true plaintext recipient w) = Ok e ->
  isEncrypted msg = true -> senderId msg = "me"%string ->
  receiverId msg = Some recipient -> envelope msg = e ->
  dm !! id msg = None ->
  exists result,
    fst (decryptMessagesAsync [msg] true true (Some contact) dm
           (snd (CryptoContext.encryptMessage true plaintext recipient w)))
    = Ok result
    /\ result !! id msg = Some plaintext
    /\ map text (displayMessages [msg] result) = [plaintext].
Proof.
  intros Hwf Hb Hne Hr He Hi Hs Hrc Henv Hdm.
  destruct (provider_reads_back plaintext recipient w e Hwf Hb He) as [w' Hdec].
  assert (otherUserId contact msg = Some recipient) as Ho.
  { unfold otherUserId. rewrite Hs, Hrc. cbn [String.eqb Ascii.eqb Bool.eqb andb].
    destruct recipient; [congruence|reflexivity]. }
  unfold decryptMessagesAsync, bind at 1. cbn [andb].
  rewrite decrypt_all_cons. unfold decrypt_one.
  rewrite Hdm, Hi, Ho, Henv. cbn [truthy_text negb orb].
  unfold try_catch. rewrite Hdec. cbn [decrypt_all].
  exists (<[id msg := plaintext]> ∅ ∪ dm). split; [reflexivity|].
  assert ((<[id msg := plaintext]> (∅ : Decrypted) ∪ dm) !! id msg = Some plaintext)
    as Hl.
  { apply lookup_union_Some_raw. left. apply lookup_insert_eq. }
  split; [exact Hl|].
  cbn [displayMessages map text]. rewrite Hi, Hl.
  destruct plaintext; [congruence|reflexivity].
Qed.

(** X25. [handleNewMessage] never throws. A message for another conversation
    changes nothing; a message of the user themself is not added; and once a
    message with an id has been handled, handling it again changes
    nothing. *)
Theorem handleNewMessage_once activeId user_id isCryptoInitialized msg page
    (w : World) :
  exists page' (w' : World),
    handleNewMessage activeId user_id isCryptoInitialized msg page w = (Ok page', w')
    /\ (Some (conversationId msg) <> activeId -> page' = page /\ w' = w)
    /\ (Some (senderId msg) = user_id -> added page' = added page /\ w' = w)
    /\ (nonempty (id msg) = true ->
        handleNewMessage activeId user_id isCryptoInitialized msg page' w'
        = (Ok page', w')).
Proof.
  unfold handleNewMessage.
  destruct (bool_decide (Some (conversationId msg) = activeId)) eqn:Hc; cbn [negb].
  2:{ exists page, w. repeat split; auto. }
  apply bool_decide_eq_true in Hc.
  destruct (nonempty (id msg) && bool_decide (id msg ∈ processedMessageIds page))
    eqn:Hp.
  { exists page, w. rewrite Hp. repeat split; auto. }
  cbv zeta.
  assert (forall seen : gset string,
            (nonempty (id msg) = true -> id msg ∈ seen) ->
            nonempty (id msg) = true ->
            nonempty (id msg) && bool_decide (id msg ∈ seen) = true) as Hseen.
  { intros seen H Hn. rewrite Hn. cbn [andb].
    apply bool_decide_eq_true. auto. }
  assert (nonempty (id msg) = true ->
          id msg ∈ (if nonempty (id msg)
                    then {[id msg]} ∪ processedMessageIds page
                    else processedMessageIds page)) as Hin.
  { intros ->. set_solver. }
  destruct (bool_decide (Some (senderId msg) = user_id)) eqn:Hu; cbn [negb].
  { eexists _, w. split; [reflexivity|]. split; [congruence|].
    split; [auto|]. intros Hn. cbn [processedMessageIds]. now rewrite (Hseen _ Hin Hn). }
  apply bool_decide_eq_false in Hu.
  destruct (isEncrypted msg && isCryptoInitialized).
  - unfold bind, try_catch.
    destruct (CryptoContext.decryptMessage isCryptoInitialized (envelope msg)
                (senderId msg) w) as [[s|e] w'].
    + eexists _, w'. split; [reflexivity|]. split; [congruence|].
      split; [congruence|]. intros Hn. cbn [processedMessageIds]. now rewrite (Hseen _ Hin Hn).
    + eexists _, w'. split; [reflexivity|]. split; [congruence|].
      split; [congruence|]. intros Hn. cbn [processedMessageIds]. now rewrite (Hseen _ Hin Hn).
  - eexists _, w. split; [reflexivity|]. split; [congruence|].
    split; [congruence|]. intros Hn. cbn [processedMessageIds]. now rewrite (Hseen _ Hin Hn).
Qed.

Variable sendMessage : ChatPage.MessagePayload -> M (option Message).

(** X26. After an encrypted send that the server confirmed with an id, the page
    knows the text of the new message without decrypting anything: an
    encrypted message with that id is displayed as the trimmed text that was
    typed, and the echo of the message on the socket is ignored. *)
Theorem handleSend_records_plaintext
    (isCryptoInitialized isConnected activeGroup : bool)
    (activeId : option string) (activeContact : option ChatPage.Contact)
    (user_id : option string) (messageText : jsstring) page (w w2 : World)
    payload response :
  fst (ChatPage.handleSend isCryptoInitialized isConnected activeGroup activeId
         activeContact user_id messageText w) = Ok (Some payload) ->
  ChatPage.isEncrypted payload = true ->
  sendMessage payload
    (snd (ChatPage.handleSend isCryptoInitialized isConnected activeGroup activeId
            activeContact user_id messageText w))
  = (Ok (Some response), w2) ->
  nonempty (id response) = true ->
  exists page',
    handleSend sendMessage isCryptoInitialized isConnected activeGroup activeId
      activeContact user_id messageText page w = (Ok page', w2)
    /\ decryptedMessages page' !! id response = Some (trim messageText)
    /\ (forall msg, id msg = id response -> isEncrypted msg = true ->
        map text (displayMessages [msg] (decryptedMessages page'))
        = [trim messageText])
    /\ (forall msg (w3 : World), id msg = id response ->
        handleNewMessage activeId user_id isCryptoInitialized msg page' w3
        = (Ok page', w3)).
Proof.
  intros Hsend Henc Hresp Hid.
  assert (trim messageText <> []) as Hne.
  { intros E. unfold ChatPage.handleSend in Hsend. rewrite E in Hsend. discriminate. }
  unfold handleSend, bind at 1.
  destruct (ChatPage.handleSend _ _ _ _ _ _ _ w) as [[d|err] w1]; [|discriminate].
  cbn [fst snd] in *. injection Hsend as ->.
  unfold try_catch, bind. rewrite Hresp, Hid, Henc.
  eexists. split; [reflexivity|]. cbn [decryptedMessages processedMessageIds].
  split; [apply lookup_insert_eq|]. split.
  - intros msg Hm He. cbn [displayMessages map text]. rewrite He, Hm, lookup_insert_eq.
    destruct (trim messageText); [congruence|reflexivity].
  - intros msg w3 Hm. unfold handleNewMessage.
    destruct (bool_decide (Some (conversationId msg) = activeId)); cbn [negb];
      [|reflexivity].
    cbn [processedMessageIds]. rewrite Hm, Hid. cbn [andb].
    rewrite bool_decide_eq_true_2 by set_solver. reflexivity.
Qed.

End DisplayFacts.

(** ** The backend *)

Section ServerFacts.

Variable buffer_from_base64 : string -> bytes.
Variable cast_object_id : string -> option string.

(** Node.js decodes padded base64 as it was encoded, and Mongoose casts 24
    hexadecimal digits to the [ObjectId] they spell. *)
Hypothesis buffer_from_base64_encoded :
  forall buffer,
    buffer_from_base64 (CryptoService.arrayBufferToBase64 buffer) = buffer.
Hypothesis cast_object_id_hex :
  forall s, Server.is_object_id s = true ->
    cast_object_id s = Some (Server.lowercase s).

Abbreviation isValidPublicKey := (Server.isValidPublicKey buffer_from_base64).
Abbreviation updatePublicKey :=
  (Server.updatePublicKey buffer_from_base64 cast_object_id).
Abbreviation getPublicKey := (Server.getPublicKey cast_object_id).
Abbreviation keys_valid := (Server.keys_valid buffer_from_base64).

Lemma isValidPublicKey_base64 buffer :
  isValidPublicKey (Server.Str (CryptoService.arrayBufferToBase64 buffer))
  = (length buffer =? 65)%nat || (length buffer =? 33)%nat.
Proof.
  unfold Server.isValidPublicKey.
  destruct (CryptoService.arrayBufferToBase64 buffer) as [|c r] eqn:E.
  - destruct buffer as [|b bs]; [reflexivity|].
    exfalso. now apply (base64_nonempty (b :: bs)).
  - now rewrite <- E, buffer_from_base64_encoded.
Qed.

Lemma isValidPublicKey_truthy v :
  isValidPublicKey v = true -> exists c r, v = Server.Str (String c r).
Proof. destruct v as [|[|c r]|b]; try discriminate. eauto. Qed.

(** X27. [isValidPublicKey] looks at the length only: of the strings that
    [arrayBufferToBase64] produces it accepts exactly the encodings of 65 and
    of 33 bytes, whatever the bytes are; it rejects a missing value, the
    empty string and a value that is not a string. *)
Theorem isValidPublicKey_lengths buffer :
  (isValidPublicKey (Server.Str (CryptoService.arrayBufferToBase64 buffer)) = true
   <-> length buffer = 65%nat \/ length buffer = 33%nat)
  /\ isValidPublicKey Server.Undefined = false
  /\ isValidPublicKey (Server.Str "") = false
  /\ (forall b, isValidPublicKey (Server.Other b) = false).
Proof.
  split; [|now repeat split].
  rewrite isValidPublicKey_base64, orb_true_iff, !Nat.eqb_eq. tauto.
Qed.

(** X28. The public key a client exports passes the validation of the server. *)
Theorem exported_key_is_accepted {W : WebCrypto} {L : RawKeyLength W}
    (w : World) d P :
  keyPair w = Some {| privateKey := d; publicKey := Some P |} ->
  exists publicKeyBase64,
    CryptoService.exportPublicKey w = (Ok publicKeyBase64, w)
    /\ isValidPublicKey (Server.Str publicKeyBase64) = true.
Proof.
  intros Hk. exists (CryptoService.arrayBufferToBase64 (exportRaw P)).
  split; [now apply (exportPublicKey_eq w d)|].
  now rewrite isValidPublicKey_base64, exportRaw_length.
Qed.

Lemma updatePublicKey_ok userId key db user :
  Server.available db = true ->
  Server.is_object_id userId = true ->
  Server.users db !! Server.lowercase userId = Some user ->
  isValidPublicKey (Server.Str key) = true ->
  updatePublicKey userId (Server.Str key) db
  = ({| Server.status := 200;
        Server.body :=
          Server.UpdatedBody "Public key updated successfully" (Some key) |},
     {| Server.users :=
          <[Server.lowercase userId :=
              {| Server.publicKey := Some key;
                 Server.fullName := Server.fullName user |}]> (Server.users db);
        Server.available := true |}).
Proof.
  intros Ha Hid Hu Hv. unfold Server.updatePublicKey.
  destruct (isValidPublicKey_truthy _ Hv) as (c & r & E). injection E as ->.
  cbn [Server.truthy negb]. rewrite Hv. cbn [negb].
  now rewrite Ha, (cast_object_id_hex _ Hid), Hu.
Qed.

(** X29. A key stored with [updatePublicKey] is the key [getPublicKey] serves for
    that user, however the id is written in the URL, and the answers for the
    other users do not change. *)
Theorem updatePublicKey_getPublicKey userId key db user :
  Server.available db = true ->
  Server.is_object_id userId = true ->
  Server.users db !! Server.lowercase userId = Some user ->
  isValidPublicKey (Server.Str key) = true ->
  Server.status (fst (updatePublicKey userId (Server.Str key) db)) = 200
  /\ (forall id,
        Server.is_object_id id = true ->
        Server.lowercase id = Server.lowercase userId ->
        getPublicKey id (snd (updatePublicKey userId (Server.Str key) db))
        = {| Server.status := 200;
             Server.body :=
               Server.PublicKeyBody key (Server.lowercase userId)
                 (Server.fullName user) |})
  /\ (forall id,
        Server.lowercase id <> Server.lowercase userId ->
        getPublicKey id (snd (updatePublicKey userId (Server.Str key) db))
        = getPublicKey id db).
Proof.
  intros Ha Hid Hu Hv. rewrite (updatePublicKey_ok _ _ _ _ Ha Hid Hu Hv).
  cbn [fst snd Server.status]. split; [reflexivity|]. split.
  - intros id Hi Hl. unfold Server.getPublicKey. rewrite Hi. cbn [negb].
    cbn [Server.available Server.users].
    rewrite (cast_object_id_hex _ Hi), Hl, lookup_insert_eq.
    cbn [Server.publicKey Server.fullName].
    destruct (isValidPublicKey_truthy _ Hv) as (c & r & E). now injection E as ->.
  - intros id Hl. unfold Server.getPublicKey.
    destruct (Server.is_object_id id) eqn:Hi; [|reflexivity]. cbn [negb].
    cbn [Server.available Server.users]. rewrite Ha, (cast_object_id_hex _ Hi).
    rewrite lookup_insert_ne by congruence. reflexivity.
Qed.

(** X30. The server stores and serves valid keys only: [updatePublicKey] changes
    the collection only when it answers 200, it keeps every stored key valid,
    and a key that [getPublicKey] serves from such a collection passes
    [isValidPublicKey]. *)
Theorem server_keeps_keys_valid userId value db :
  (Server.status (fst (updatePublicKey userId value db)) <> 200 ->
   snd (updatePublicKey userId value db) = db)
  /\ (keys_valid db -> keys_valid (snd (updatePublicKey userId value db)))
  /\ (keys_valid db ->
      forall id key oid name,
        getPublicKey id db
        = {| Server.status := 200; Server.body := Server.PublicKeyBody key oid name |} ->
        isValidPublicKey (Server.Str key) = true).
Proof.
  split; [|split].
  - unfold Server.updatePublicKey.
    destruct (negb (Server.truthy value)); [reflexivity|].
    destruct (negb (isValidPublicKey value)); [reflexivity|].
    destruct value as [|key|b]; try reflexivity.
    destruct (Server.available db); [|reflexivity].
    destruct (cast_object_id userId) as [oid|]; [|reflexivity].
    destruct (Server.users db !! oid); [|reflexivity].
    cbn. congruence.
  - intros Hv. unfold Server.updatePublicKey.
    destruct (negb (Server.truthy value)); [exact Hv|].
    destruct (isValidPublicKey value) eqn:Hk; cbn [negb]; [|exact Hv].
    destruct value as [|key|b]; try exact Hv.
    destruct (Server.available db); [|exact Hv].
    destruct (cast_object_id userId) as [oid|]; [|exact Hv].
    destruct (Server.users db !! oid) as [user|] eqn:Hu; [|exact Hv].
    cbn [snd]. intros oid' user' key'. cbn [Server.users].
    destruct (decide (oid = oid')) as [<-|Hne].
    + rewrite lookup_insert_eq. intros [= <-]. cbn [Server.publicKey].
      now intros [= <-].
    + rewrite lookup_insert_ne by assumption. apply Hv.
  - intros Hv id key oid name. unfold Server.getPublicKey.
    destruct (negb (Server.is_object_id id)); [discriminate|].
    destruct (Server.available db); [|discriminate].
    destruct (cast_object_id id) as [oid'|]; [|discriminate].
    destruct (Server.users db !! oid') as [user|] eqn:Hu; [|discriminate].
    destruct (Server.publicKey user) as [[|c r]|] eqn:Hp; try discriminate.
    intros [= <- _ _]. exact (Hv oid' user _ Hu Hp).
Qed.

End ServerFacts.

(** ** The properties above on the small platform *)

Lemma toy_raw_key_length : RawKeyLength Toy.platform.
Proof. split. intros P. reflexivity. Qed.

Lemma scenario_buffer_from_base64 buffer :
  Scenario.buffer_from_base64 (CryptoService.arrayBufferToBase64 buffer) = buffer.
Proof. unfold Scenario.buffer_from_base64. now rewrite field_bytes_base64. Qed.

Lemma scenario_cast_object_id s :
  Server.is_object_id s = true ->
  Scenario.cast_object_id s = Some (Server.lowercase s).
Proof. intros H. unfold Scenario.cast_object_id. now rewrite H. Qed.

Lemma scenario_upload_keeps_keys session pubKey (w : @World Toy.platform) :
  keyPair (snd (Scenario.upload session pubKey w)) = keyPair w
  /\ localStorage (snd (Scenario.upload session pubKey w)) = localStorage w.
Proof. now split. Qed.

Lemma scenario_upload_publishes session pubKey (w : @World Toy.platform) :
  fst (Scenario.upload session pubKey w) = Ok tt ->
  directory (snd (Scenario.upload session pubKey w)) session = Ok pubKey.
Proof. intros _. cbn [snd Scenario.upload directory]. now rewrite String.eqb_refl. Qed.

Lemma star_is_rejected :
  CryptoService.base64ToArrayBuffer (W := Toy.platform) "aGk*" Toy.alice
  = (Throw InvalidCharacterError, Toy.alice).
Proof.
  apply (base64ToArrayBuffer_rejects (W := Toy.platform) "aGk*" Init.Byte.x2a).
  - vm_compute. do 3 right. now left.
  - reflexivity.
  - discriminate.
  - reflexivity.
Defined.

Lemma alice_logs_out_and_reloads :
  fst (CryptoService.loadPrivateKey "alice"
         (snd (CryptoService.clearKeys
                 (snd (CryptoService.savePrivateKey "alice" Toy.alice))))) = Ok true
  /\ keyPair (snd (CryptoService.loadPrivateKey "alice"
                     (snd (CryptoService.clearKeys
                             (snd (CryptoService.savePrivateKey "alice" Toy.alice))))))
     = Some {| privateKey := privateKey Toy.alice_pair; publicKey := None |}
  /\ sharedKeys (snd (CryptoService.loadPrivateKey "alice"
                        (snd (CryptoService.clearKeys
                                (snd (CryptoService.savePrivateKey "alice" Toy.alice))))))
     = ∅.
Proof.
  apply (savePrivateKey_loadPrivateKey (W := Toy.platform) (E := ToyFacts.ecdh_laws)
           "alice" Toy.alice Toy.alice_pair); vm_compute; reflexivity.
Defined.

Lemma alice_and_bob_store_apart :
  items (localStorage (snd (CryptoService.savePrivateKey "alice" Toy.alice)))
    !! CryptoService.storage_key "bob"
  = items (localStorage Toy.alice) !! CryptoService.storage_key "bob"
  /\ fst (CryptoService.loadPrivateKey "bob"
            (snd (CryptoService.savePrivateKey "alice" Toy.alice)))
     = fst (CryptoService.loadPrivateKey "bob" Toy.alice).
Proof.
  apply (savePrivateKey_other_owner (W := Toy.platform) "alice" "bob" Toy.alice).
  discriminate.
Defined.

Lemma bob_key_is_memoized :
  CryptoService.deriveSharedKey Toy.carol_public "bob"
    (snd (CryptoService.deriveSharedKey Toy.bob_public "bob" Toy.alice))
  = (Ok Toy.alice_bob_key,
     snd (CryptoService.deriveSharedKey Toy.bob_public "bob" Toy.alice)).
Proof.
  apply (fun H => deriveSharedKey_memoizes (W := Toy.platform) Toy.bob_public "bob"
                    Toy.alice Toy.alice_bob_key H Toy.carol_public).
  vm_compute. reflexivity.
Defined.

Lemma malformed_key_changes_nothing :
  snd (CryptoService.deriveSharedKey "***" "bob" Toy.alice) = Toy.alice
  /\ (InvalidCharacterError = Error "Crypto not initialized" /\ keyPair Toy.alice = None
      \/ InvalidCharacterError = InvalidCharacterError
         /\ CryptoService.field_bytes "***" = None
      \/ InvalidCharacterError = DataError).
Proof.
  apply (deriveSharedKey_failure (W := Toy.platform) "***" "bob" Toy.alice).
  vm_compute. reflexivity.
Defined.

Lemma alice_key_travels :
  exists publicKeyBase64,
    CryptoService.exportPublicKey Toy.alice = (Ok publicKeyBase64, Toy.alice)
    /\ forall w' : @World Toy.platform,
         CryptoService.importPublicKey publicKeyBase64 w'
         = (Ok (Toy.public_of Init.Byte.x03), w').
Proof.
  apply (exportPublicKey_importPublicKey (W := Toy.platform) (E := ToyFacts.ecdh_laws)
           Toy.alice Init.Byte.x03 (Toy.public_of Init.Byte.x03)).
  vm_compute. reflexivity.
Defined.

Lemma alice_reads_her_hello :
  fst (CryptoService.decryptFromUser Toy.hello Toy.carol_public "bob"
         (snd (CryptoService.encryptForUser (js "hello") Toy.bob_public "bob" Toy.alice)))
  = Ok (js "hello").
Proof.
  apply (decryptFromUser_encryptForUser (W := Toy.platform) (G := ToyFacts.aes_gcm_laws)
           (js "hello") Toy.bob_public Toy.carol_public "bob" Toy.alice Toy.hello);
    vm_compute; reflexivity.
Defined.

Lemma alice_reads_her_hello_online :
  fst (CryptoContext.decryptMessage true Toy.hello "bob"
         (snd (CryptoContext.encryptMessage true (js "hello") "bob" Toy.alice_online)))
  = Ok (js "hello").
Proof.
  apply (provider_decryptMessage_encryptMessage (W := Toy.platform)
           (G := ToyFacts.aes_gcm_laws) (js "hello") "bob" Toy.alice_online Toy.hello);
    vm_compute; reflexivity.
Defined.

Lemma hi_is_sent_encrypted :
  exists encrypted (w' : @World Toy.platform),
    ChatPage.handleSend true true false (Some "c1"%string) (Some Scenario.bob_contact)
      (Some "alice"%string) (js "  hi ") Toy.alice_online
    = (Ok (Some (ChatPage.encrypted_payload (Some "c1"%string) (Some "alice"%string)
                   encrypted)), w')
    /\ fst (CryptoContext.decryptMessage true encrypted "bob" w')
       = Ok (trim (js "  hi ")).
Proof.
  apply (handleSend_encrypts (W := Toy.platform) (E := ToyFacts.ecdh_laws)
           (G := ToyFacts.aes_gcm_laws) (Some "c1"%string) Scenario.bob_contact "bob"
           (Some "alice"%string) (js "  hi ") Toy.alice_online Toy.alice_pair
           (Toy.public_of Init.Byte.x09));
    try (vm_compute; reflexivity); vm_compute; discriminate.
Defined.


Lemma alice_initializes_once :
  CryptoProvider.autoInitialize (Scenario.upload "alice") Scenario.platform_message
    (Some "alice"%string)
    (CryptoProvider.state_after
       (CryptoProvider.autoInitialize (Scenario.upload "alice")
          Scenario.platform_message (Some "alice"%string)
          CryptoProvider.mounted Toy.blank))
    (CryptoProvider.world_after
       (CryptoProvider.autoInitialize (Scenario.upload "alice")
          Scenario.platform_message (Some "alice"%string)
          CryptoProvider.mounted Toy.blank))
  = (Ok tt,
     CryptoProvider.state_after
       (CryptoProvider.autoInitialize (Scenario.upload "alice")
          Scenario.platform_message (Some "alice"%string)
          CryptoProvider.mounted Toy.blank),
     CryptoProvider.world_after
       (CryptoProvider.autoInitialize (Scenario.upload "alice")
          Scenario.platform_message (Some "alice"%string)
          CryptoProvider.mounted Toy.blank)).
Proof.
  apply (autoInitialize_once (W := Toy.platform) (Scenario.upload "alice")
           Scenario.platform_message (Some "alice"%string)
           CryptoProvider.mounted Toy.blank).
  reflexivity.
Defined.

Lemma alice_first_login :
  let r := CryptoProvider.initializeCrypto (Scenario.upload "alice")
             Scenario.platform_message (Some "alice"%string) false
             CryptoProvider.mounted Toy.blank in
  let pubKey :=
    CryptoService.arrayBufferToBase64
      (exportRaw (publicOf (Init.Byte.x03 : @EcPrivate Toy.platform))) in
  CryptoProvider.returned r = Ok true
  /\ CryptoProvider.isInitialized (CryptoProvider.state_after r) = true
  /\ CryptoProvider.publicKey (CryptoProvider.state_after r) = Some pubKey
  /\ keyPair (CryptoProvider.world_after r)
     = Some {| privateKey := Init.Byte.x03 : @EcPrivate Toy.platform;
               publicKey := Some (publicOf (Init.Byte.x03 : @EcPrivate Toy.platform)) |}
  /\ directory (CryptoProvider.world_after r) "alice" = Ok pubKey
  /\ (access_denied (localStorage Toy.blank) = false ->
      quota_exceeded (localStorage Toy.blank) = false ->
      items (localStorage (CryptoProvider.world_after r))
        !! CryptoService.storage_key "alice"
      = Some (CryptoService.arrayBufferToBase64
                (exportPkcs8 (Init.Byte.x03 : @EcPrivate Toy.platform)))).
Proof.
  apply (first_login (W := Toy.platform) (Scenario.upload "alice")
           Scenario.platform_message (scenario_upload_keeps_keys "alice")
           "alice" CryptoProvider.mounted Toy.blank Init.Byte.x03).
  - discriminate.
  - reflexivity.
  - vm_compute. reflexivity.
  - vm_compute. reflexivity.
  - intros w1. reflexivity.
  - intros pubKey w1. apply scenario_upload_publishes.
Defined.

Lemma alice_logs_in_again :
  let r1 := CryptoProvider.initializeCrypto (Scenario.upload "alice")
              Scenario.platform_message (Some "alice"%string) false
              CryptoProvider.mounted Toy.blank in
  let r2 := CryptoProvider.clearCrypto (CryptoProvider.state_after r1)
              (CryptoProvider.world_after r1) in
  let r3 := CryptoProvider.initializeCrypto (Scenario.upload "alice")
              Scenario.platform_message (Some "alice"%string) false
              (CryptoProvider.state_after r2) (CryptoProvider.world_after r2) in
  CryptoProvider.returned r3 = Ok true
  /\ CryptoProvider.isInitialized (CryptoProvider.state_after r3) = true
  /\ CryptoProvider.publicKey (CryptoProvider.state_after r3)
     = CryptoProvider.publicKey (CryptoProvider.state_after r1)
  /\ keyPair (CryptoProvider.world_after r3)
     = Some {| privateKey := Init.Byte.x03 : @EcPrivate Toy.platform;
               publicKey := None |}
  /\ entropy (CryptoProvider.world_after r3) = entropy (CryptoProvider.world_after r1)
  /\ directory (CryptoProvider.world_after r3)
     = directory (CryptoProvider.world_after r1).
Proof.
  apply (login_logout_login (W := Toy.platform) (Scenario.upload "alice")
           Scenario.platform_message (scenario_upload_keeps_keys "alice")
           (E := ToyFacts.ecdh_laws)
           "alice" CryptoProvider.mounted Toy.blank Init.Byte.x03).
  - discriminate.
  - reflexivity.
  - vm_compute. reflexivity.
  - vm_compute. reflexivity.
  - reflexivity.
  - reflexivity.
  - intros w1. reflexivity.
  - intros pubKey w1. apply scenario_upload_publishes.
Defined.

Lemma alice_key_is_replaced :
  let r := CryptoProvider.initializeCrypto (Scenario.upload "alice")
             Scenario.platform_message (Some "alice"%string) false
             CryptoProvider.mounted Toy.alice_saved in
  CryptoProvider.returned r = Ok true
  /\ keyPair (CryptoProvider.world_after r)
     = Some {| privateKey := Init.Byte.x23 : @EcPrivate Toy.platform;
               publicKey := Some (publicOf (Init.Byte.x23 : @EcPrivate Toy.platform)) |}
  /\ CryptoProvider.publicKey (CryptoProvider.state_after r)
     = Some (CryptoService.arrayBufferToBase64
               (exportRaw (publicOf (Init.Byte.x23 : @EcPrivate Toy.platform))))
  /\ items (localStorage (CryptoProvider.world_after r))
       !! CryptoService.storage_key "alice"
     = Some (CryptoService.arrayBufferToBase64
               (exportPkcs8 (Init.Byte.x23 : @EcPrivate Toy.platform))).
Proof.
  apply (initializeCrypto_regenerates (W := Toy.platform) (Scenario.upload "alice")
           Scenario.platform_message (scenario_upload_keeps_keys "alice")
           (E := ToyFacts.ecdh_laws)
           "alice" CryptoProvider.mounted Toy.alice_saved Init.Byte.x03 Init.Byte.x23).
  - discriminate.
  - reflexivity.
  - reflexivity.
  - reflexivity.
  - vm_compute. reflexivity.
  - reflexivity.
  - vm_compute. reflexivity.
  - intros w1. reflexivity.
Defined.

Lemma plain_hello_costs_nothing :
  exists result,
    fst (ChatMessages.decryptMessagesAsync [Scenario.plain_hello] true true
           (Some Scenario.bob_contact) ∅ Toy.alice_online) = Ok result
    /\ (true = true ->
        forall msg, In msg [Scenario.plain_hello] ->
          ChatMessages.truthy_text
            ((∅ : ChatMessages.Decrypted) !! ChatMessages.id msg)
          || negb (ChatMessages.isEncrypted msg) = true ->
          result !! ChatMessages.id msg
          = Some (ChatMessages.or_text
                    ((∅ : ChatMessages.Decrypted) !! ChatMessages.id msg)
                    (ChatMessages.text msg)))
    /\ (Forall (fun msg =>
                  ChatMessages.truthy_text
                    ((∅ : ChatMessages.Decrypted) !! ChatMessages.id msg)
                  || negb (ChatMessages.isEncrypted msg) = true)
          [Scenario.plain_hello] ->
        snd (ChatMessages.decryptMessagesAsync [Scenario.plain_hello] true true
               (Some Scenario.bob_contact) ∅ Toy.alice_online) = Toy.alice_online).
Proof.
  apply (decryptMessagesAsync_settled (W := Toy.platform) [Scenario.plain_hello] true
           Scenario.bob_contact ∅ Toy.alice_online).
  cbn [map]. apply NoDup_singleton.
Defined.

Lemma alice_sees_her_hello :
  exists result,
    fst (ChatMessages.decryptMessagesAsync [Scenario.sent_hello] true true
           (Some Scenario.bob_contact) ∅
           (snd (CryptoContext.encryptMessage true (js "hello") "bob" Toy.alice_online)))
    = Ok result
    /\ result !! ChatMessages.id Scenario.sent_hello = Some (js "hello")
    /\ map ChatMessages.text (ChatMessages.displayMessages [Scenario.sent_hello] result)
       = [js "hello"].
Proof.
  apply (sent_message_is_shown (W := Toy.platform) (G := ToyFacts.aes_gcm_laws)
           (js "hello") "bob" Toy.alice_online Toy.hello Scenario.sent_hello
           Scenario.bob_contact ∅); try (vm_compute; reflexivity);
    vm_compute; discriminate.
Defined.

Lemma hi_is_recorded :
  exists page',
    ChatMessages.handleSend Scenario.confirm true true false (Some "c1"%string)
      (Some Scenario.bob_contact) (Some "alice"%string) (js "  hi ")
      Scenario.empty_page Toy.alice_online
    = (Ok page',
       snd (ChatPage.handleSend true true false (Some "c1"%string)
              (Some Scenario.bob_contact) (Some "alice"%string) (js "  hi ")
              Toy.alice_online))
    /\ ChatMessages.decryptedMessages page' !! "m2"%string = Some (trim (js "  hi "))
    /\ (forall msg, ChatMessages.id msg = "m2"%string ->
        ChatMessages.isEncrypted msg = true ->
        map ChatMessages.text
          (ChatMessages.displayMessages [msg] (ChatMessages.decryptedMessages page'))
        = [trim (js "  hi ")])
    /\ (forall msg (w3 : @World Toy.platform), ChatMessages.id msg = "m2"%string ->
        ChatMessages.handleNewMessage (Some "c1"%string) (Some "alice"%string) true
          msg page' w3
        = (Ok page', w3)).
Proof.
  apply (handleSend_records_plaintext (W := Toy.platform) Scenario.confirm
           true true false (Some "c1"%string) (Some Scenario.bob_contact)
           (Some "alice"%string) (js "  hi ") Scenario.empty_page Toy.alice_online
           (snd (ChatPage.handleSend true true false (Some "c1"%string)
                   (Some Scenario.bob_contact) (Some "alice"%string) (js "  hi ")
                   Toy.alice_online))
           Scenario.hi_payload
           {| ChatMessages.id := "m2"; ChatMessages.conversationId := "c1";
              ChatMessages.senderId := "me";
              ChatMessages.receiverId := Some "bob"%string;
              ChatMessages.text := ChatPage.text Scenario.hi_payload;
              ChatMessages.isEncrypted := ChatPage.isEncrypted Scenario.hi_payload;
              ChatMessages.encryptedData :=
                default ""%string (ChatPage.encryptedData Scenario.hi_payload);
              ChatMessages.iv := default ""%string (ChatPage.iv Scenario.hi_payload);
              ChatMessages.authTag :=
                default ""%string (ChatPage.authTag Scenario.hi_payload) |}).
  - vm_compute. reflexivity.
  - reflexivity.
  - reflexivity.
  - reflexivity.
Defined.

Lemma alice_public_key_has_the_length :
  (Server.isValidPublicKey Scenario.buffer_from_base64
     (Server.Str (CryptoService.arrayBufferToBase64 (Toy.export_raw Init.Byte.x07)))
   = true
   <-> length (Toy.export_raw Init.Byte.x07) = 65%nat
       \/ length (Toy.export_raw Init.Byte.x07) = 33%nat)
  /\ Server.isValidPublicKey Scenario.buffer_from_base64 Server.Undefined = false
  /\ Server.isValidPublicKey Scenario.buffer_from_base64 (Server.Str "") = false
  /\ (forall b,
        Server.isValidPublicKey Scenario.buffer_from_base64 (Server.Other b) = false).
Proof.
  apply (isValidPublicKey_lengths Scenario.buffer_from_base64
           scenario_buffer_from_base64 (Toy.export_raw Init.Byte.x07)).
Defined.

Lemma alice_public_key_is_accepted :
  exists publicKeyBase64,
    CryptoService.exportPublicKey Toy.alice = (Ok publicKeyBase64, Toy.alice)
    /\ Server.isValidPublicKey Scenario.buffer_from_base64
         (Server.Str publicKeyBase64) = true.
Proof.
  apply (exported_key_is_accepted Scenario.buffer_from_base64
           scenario_buffer_from_base64 (W := Toy.platform) (L := toy_raw_key_length)
           Toy.alice Init.Byte.x03 (Toy.public_of Init.Byte.x03)).
  vm_compute. reflexivity.
Defined.

Lemma alice_publishes_her_key :
  Server.status
    (fst (Server.updatePublicKey Scenario.buffer_from_base64 Scenario.cast_object_id
            "0123456789ABCDEF01234567" (Server.Str Toy.alice_public) Scenario.db))
  = 200
  /\ (forall id,
        Server.is_object_id id = true ->
        Server.lowercase id = Server.lowercase "0123456789ABCDEF01234567" ->
        Server.getPublicKey Scenario.cast_object_id id
          (snd (Server.updatePublicKey Scenario.buffer_from_base64
                  Scenario.cast_object_id "0123456789ABCDEF01234567"
                  (Server.Str Toy.alice_public) Scenario.db))
        = {| Server.status := 200;
             Server.body :=
               Server.PublicKeyBody Toy.alice_public
                 (Server.lowercase "0123456789ABCDEF01234567")
                 (Server.fullName
                    {| Server.publicKey := None; Server.fullName := "Alice" |}) |})
  /\ (forall id,
        Server.lowercase id <> Server.lowercase "0123456789ABCDEF01234567" ->
        Server.getPublicKey Scenario.cast_object_id id
          (snd (Server.updatePublicKey Scenario.buffer_from_base64
                  Scenario.cast_object_id "0123456789ABCDEF01234567"
                  (Server.Str Toy.alice_public) Scenario.db))
        = Server.getPublicKey Scenario.cast_object_id id Scenario.db).
Proof.
  apply (updatePublicKey_getPublicKey Scenario.buffer_from_base64
           Scenario.cast_object_id scenario_cast_object_id
           "0123456789ABCDEF01234567" Toy.alice_public Scenario.db
           {| Server.publicKey := None; Server.fullName := "Alice" |});
    vm_compute; reflexivity.
Defined.

Lemma alice_finds_nobody :
  CryptoContext.getUserPublicKey "bob" Toy.alice
  = (Throw (Error "User has not set up encryption yet"), Toy.alice)
  /\ CryptoContext.encryptMessage true (js "hello") "bob" Toy.alice
     = (Throw (Error "User has not set up encryption yet"), Toy.alice)
  /\ CryptoContext.decryptMessage true Toy.hello "bob" Toy.alice
     = (Ok CryptoContext.decryption_failed, Toy.alice).
Proof.
  apply (directory_failure_is_one_error (W := Toy.platform) "bob"
           (AxiosError (Some 404)) (js "hello") Toy.hello Toy.alice).
  reflexivity.
Defined.
